(** * A shallow embedding of the daily-notification pipeline (main.py)

    The program composes a notification (date, weather, anniversaries,
    birthdays) and pushes it to a list of recipients.  It is embedded here
    function by function:

    - [WeatherAPI]: [get_with_retry], [get_weather];
    - [DateCalculator]: [get_color], [calculate_days], [parse_date];
    - [WeChatService]: [get_access_token], [send_template_message];
    - [MessageGenerator]: [generate_message_data], [send_messages].

    Everything the program consults but does not define (the HTTP servers,
    the clock, the random generator, the lunar calendar library, the order
    in which the thread pool runs its tasks) is gathered in a [world] of
    oracles; the mutable attributes of the objects and the observable
    effects (requests issued, log lines) live in a [state].  Python
    exceptions are explicit: a computation yields [Return v] or [Raise e],
    together with the state reached. *)

From Stdlib Require Import ZArith SpecFloat String Ascii List Lia Permutation.
From stdpp Require Import base option list gmap strings pretty.
Import ListNotations.

Set Warnings "-register-all".
Open Scope string_scope.
Open Scope list_scope.
Open Scope Z_scope.

(* ================================================================== *)
(** * Exceptions and results *)
(* ================================================================== *)

(** The exception classes that the program can meet.  [RequestException]
    stands for the transport failures of [requests] (connection errors,
    timeouts); [JSONDecodeError] for a body that is not JSON. *)
Inductive exn_kind :=
| ValueError | KeyError | IndexError | TypeError | AttributeError
| OverflowError | RequestException | JSONDecodeError.

Record exn := Exn { exn_class : exn_kind; exn_msg : string }.

Inductive outcome (A : Type) :=
| Return (a : A)
| Raise (e : exn).
Arguments Return {A} a.
Arguments Raise {A} e.

Definition is_return {A} (o : outcome A) : bool :=
  match o with Return _ => true | Raise _ => false end.

Definition obind {A B} (o : outcome A) (f : A -> outcome B) : outcome B :=
  match o with Return a => f a | Raise e => Raise e end.

(* ================================================================== *)
(** * Text formatting *)
(* ================================================================== *)

Definition is_digit (c : ascii) : bool :=
  let n := nat_of_ascii c in ((48 <=? n) && (n <=? 57))%nat.

Definition digit_val (c : ascii) : Z := Z.of_nat (nat_of_ascii c) - 48.

Fixpoint pad_left (width : nat) (c : ascii) (s : string) : string :=
  match width with
  | O => s
  | S w => if (String.length s <=? w)%nat then String c (pad_left w c s) else s
  end.

(** [str(n)] for an integer. *)
Definition str_int (n : Z) : string := pretty n.

Definition hex_digit (d : Z) : ascii :=
  if d <? 10 then ascii_of_nat (Z.to_nat (48 + d))
  else ascii_of_nat (Z.to_nat (87 + d)).

(** ["{:06x}".format(n)] for [0 <= n < 2^24]. *)
Definition hex6 (n : Z) : string :=
  string_of_list_ascii
    (map (fun i => hex_digit ((n / 16 ^ i) mod 16)) [5; 4; 3; 2; 1; 0]).

(* ================================================================== *)
(** * Calendar dates ([datetime.date]) *)
(* ================================================================== *)

Record date := Date { year : Z; month : Z; day : Z }.

Definition is_leap (y : Z) : bool :=
  (y mod 4 =? 0) && (negb (y mod 100 =? 0) || (y mod 400 =? 0)).

Definition days_in_month (y m : Z) : Z :=
  match m with
  | 1 | 3 | 5 | 7 | 8 | 10 | 12 => 31
  | 4 | 6 | 9 | 11 => 30
  | 2 => if is_leap y then 29 else 28
  | _ => 0
  end.

Definition valid_ymd (y m d : Z) : bool :=
  (1 <=? y) && (y <=? 9999) && (1 <=? m) && (m <=? 12)
  && (1 <=? d) && (d <=? days_in_month y m).

Definition valid_date (d : date) : bool := valid_ymd (year d) (month d) (day d).

(** The constructor [date(y, m, d)], which raises [ValueError] outside the
    calendar. *)
Definition make_date (y m d : Z) : outcome date :=
  if valid_ymd y m d then Return (Date y m d)
  else Raise (Exn ValueError "date value out of range").

(** [d.replace(year=y)]. *)
Definition replace_year (d : date) (y : Z) : outcome date :=
  make_date y (month d) (day d).

Definition days_before_year (y : Z) : Z :=
  let p := y - 1 in p * 365 + p / 4 - p / 100 + p / 400.

Fixpoint days_before_month_aux (y : Z) (m : nat) : Z :=
  match m with
  | O => 0
  | S k => days_before_month_aux y k + days_in_month y (Z.of_nat (S k))
  end.

Definition days_before_month (y m : Z) : Z :=
  days_before_month_aux y (Z.to_nat (m - 1)).

Definition toordinal (d : date) : Z :=
  days_before_year (year d) + days_before_month (year d) (month d) + day d.

(** [d.weekday()]: Monday is 0, Sunday is 6. *)
Definition weekday (d : date) : Z := (toordinal d + 6) mod 7.

(** [a < b] on dates compares (year, month, day) lexicographically. *)
Definition date_lt (a b : date) : bool :=
  (year a <? year b)
  || ((year a =? year b)
      && ((month a <? month b)
          || ((month a =? month b) && (day a <? day b)))).

(** [str(d)], that is [d.isoformat()]. *)
Definition isoformat (d : date) : string :=
  pad_left 4 "0" (str_int (year d)) +:+ "-" +:+
  pad_left 2 "0" (str_int (month d)) +:+ "-" +:+
  pad_left 2 "0" (str_int (day d)).

(** ** Characters

    Text is held as its UTF-8 bytes.  [decode_char] reads the first
    character of a text: its code point and the text after it. *)

Definition byte_value (c : ascii) : Z := Z.of_nat (nat_of_ascii c).

Definition continuation_bits (s : string) : option (Z * string) :=
  match s with
  | String c r =>
      let b := byte_value c in
      if (128 <=? b) && (b <? 192) then Some (b - 128, r) else None
  | EmptyString => None
  end.

Definition decode_char (s : string) : option (Z * string) :=
  match s with
  | EmptyString => None
  | String c r =>
      let b := byte_value c in
      if b <? 128 then Some (b, r)
      else if (194 <=? b) && (b <? 224) then
        match continuation_bits r with
        | Some (x1, r1) => Some ((b - 192) * 64 + x1, r1)
        | None => None
        end
      else if (224 <=? b) && (b <? 240) then
        match continuation_bits r with
        | Some (x1, r1) =>
            match continuation_bits r1 with
            | Some (x2, r2) =>
                let cp := (b - 224) * 4096 + x1 * 64 + x2 in
                if (2048 <=? cp) && negb ((55296 <=? cp) && (cp <=? 57343))
                then Some (cp, r2) else None
            | None => None
            end
        | None => None
        end
      else if (240 <=? b) && (b <? 245) then
        match continuation_bits r with
        | Some (x1, r1) =>
            match continuation_bits r1 with
            | Some (x2, r2) =>
                match continuation_bits r2 with
                | Some (x3, r3) =>
                    let cp := (b - 240) * 262144 + x1 * 4096 + x2 * 64 + x3 in
                    if (65536 <=? cp) && (cp <=? 1114111)
                    then Some (cp, r3) else None
                | None => None
                end
            | None => None
            end
        | None => None
        end
      else None
  end.

(** The decimal digits of Unicode (category Nd) come in runs of ten, zero
    first.  These are the zeros of Unicode 14.0, the database of Python
    3.11; later versions add scripts. *)
Definition decimal_zeros : list Z :=
  [48; 1632; 1776; 1984; 2406; 2534; 2662; 2790;
   2918; 3046; 3174; 3302; 3430; 3558; 3664; 3792;
   3872; 4160; 4240; 6112; 6160; 6470; 6608; 6784;
   6800; 6992; 7088; 7232; 7248; 42528; 43216; 43264;
   43472; 43504; 43600; 44016; 65296; 66720; 68912; 69734;
   69872; 69942; 70096; 70384; 70736; 70864; 71248; 71360;
   71472; 71904; 72016; 72784; 73040; 73120; 92768; 92864;
   93008; 120782; 120792; 120802; 120812; 120822; 123200; 123632;
   125264; 130032].

(** The value of a decimal digit, given by its code point. *)
Definition decimal_value (cp : Z) : option Z :=
  match List.find (fun z => (z <=? cp) && (cp <? z + 10)) decimal_zeros with
  | Some z => Some (cp - z)
  | None => None
  end.

(** The white space of Unicode outside ASCII. *)
Definition unicode_space (cp : Z) : bool :=
  (cp =? 133) || (cp =? 160) || (cp =? 5760)
  || ((8192 <=? cp) && (cp <=? 8202))
  || (cp =? 8232) || (cp =? 8233) || (cp =? 8239) || (cp =? 8287)
  || (cp =? 12288).

(** What [\d] matches in a text pattern: a decimal digit of any script.
    Its value and the text after it. *)
Definition take_digit (s : string) : option (Z * string) :=
  match decode_char s with
  | Some (cp, rest) =>
      match decimal_value cp with
      | Some v => Some (v, rest)
      | None => None
      end
  | None => None
  end.

(** ** [datetime.strptime(s, "%Y-%m-%d").date()]

    The format is compiled to the pattern
    [(\d\d\d\d)-(1[0-2]|0[1-9]|[1-9])-(3[0-1]|[1-2]\d|0[1-9]|[1-9]| [1-9])],
    matched at the start of the text; the alternatives are tried in this
    order.  [\d] is any decimal digit of Unicode, the bracketed classes
    are ASCII.  For the month no later alternative can succeed where an
    earlier one matched and the following ["-"] did not, so the first
    match is the only one to consider.  Text left after the day is an
    error.  Each group is then read by [int]. *)

Definition strptime_error (s : string) : exn :=
  Exn ValueError ("time data '" +:+ s +:+ "' does not match format '%Y-%m-%d'").

Definition match_month (s : string) : option (Z * string) :=
  match s with
  | String a (String b rest) =>
      if Ascii.eqb a "1" && (is_digit b && (digit_val b <=? 2))
      then Some (10 + digit_val b, rest)
      else if Ascii.eqb a "0" && (is_digit b && (1 <=? digit_val b))
      then Some (digit_val b, rest)
      else if is_digit a && (1 <=? digit_val a)
      then Some (digit_val a, String b rest)
      else None
  | String a EmptyString =>
      if is_digit a && (1 <=? digit_val a) then Some (digit_val a, EmptyString)
      else None
  | EmptyString => None
  end.

(** [[1-2]\d]: an ASCII 1 or 2, then any decimal digit. *)
Definition match_day_teens (s : string) : option (Z * string) :=
  match s with
  | String a r =>
      if is_digit a && (1 <=? digit_val a) && (digit_val a <=? 2) then
        match take_digit r with
        | Some (v, rest) => Some (10 * digit_val a + v, rest)
        | None => None
        end
      else None
  | EmptyString => None
  end.

Definition match_day (s : string) : option (Z * string) :=
  match s with
  | String a (String b rest) =>
      if Ascii.eqb a "3" && (is_digit b && (digit_val b <=? 1))
      then Some (30 + digit_val b, rest)
      else
        match match_day_teens s with
        | Some r => Some r
        | None =>
            if Ascii.eqb a "0" && (is_digit b && (1 <=? digit_val b))
            then Some (digit_val b, rest)
            else if is_digit a && (1 <=? digit_val a)
            then Some (digit_val a, String b rest)
            else if Ascii.eqb a " " && (is_digit b && (1 <=? digit_val b))
            then Some (digit_val b, rest)
            else None
        end
  | String a EmptyString =>
      if is_digit a && (1 <=? digit_val a) then Some (digit_val a, EmptyString)
      else None
  | EmptyString => None
  end.

(** The four digits of [%Y] and their value. *)
Definition match_year (s : string) : option (Z * string) :=
  match take_digit s with
  | Some (y1, s1) =>
      match take_digit s1 with
      | Some (y2, s2) =>
          match take_digit s2 with
          | Some (y3, s3) =>
              match take_digit s3 with
              | Some (y4, s4) =>
                  Some (1000 * y1 + 100 * y2 + 10 * y3 + y4, s4)
              | None => None
              end
          | None => None
          end
      | None => None
      end
  | None => None
  end.

Definition strptime_ymd (s : string) : outcome date :=
  match match_year s with
  | Some (y, String "-" rest) =>
      match match_month rest with
      | Some (m, String "-" rest') =>
          match match_day rest' with
          | Some (d, EmptyString) => make_date y m d
          | Some (_, rem) =>
              Raise (Exn ValueError ("unconverted data remains: " +:+ rem))
          | None => Raise (strptime_error s)
          end
      | _ => Raise (strptime_error s)
      end
  | _ => Raise (strptime_error s)
  end.

(** ** [int(s)]

    The text is first brought to ASCII: an ASCII character is kept, a
    white space of Unicode becomes a blank, a decimal digit of any script
    becomes the ASCII digit of its value, and anything else cannot be part
    of a number.  What is then read is: surrounding ASCII blanks, an
    optional sign, decimal digits with single underscores between them,
    at most 4300 digits (the default limit on the conversion). *)

Definition ascii_char (cp : Z) : ascii :=
  if cp <? 128 then ascii_of_nat (Z.to_nat cp)
  else if unicode_space cp then " "%char
  else match decimal_value cp with
       | Some v => ascii_of_nat (Z.to_nat (48 + v))
       | None => "?"%char
       end.

(** [fuel] bounds the number of characters: the length of the text is
    enough. *)
Fixpoint ascii_form_aux (fuel : nat) (s : string) : string :=
  match fuel with
  | O => EmptyString
  | S k =>
      match decode_char s with
      | Some (cp, rest) => String (ascii_char cp) (ascii_form_aux k rest)
      | None =>
          match s with
          | EmptyString => EmptyString
          | String _ r => String "?" (ascii_form_aux k r)
          end
      end
  end.

Definition ascii_form (s : string) : string :=
  ascii_form_aux (String.length s) s.

Definition is_space (c : ascii) : bool :=
  let n := nat_of_ascii c in ((n =? 32) || ((9 <=? n) && (n <=? 13)))%nat.

Fixpoint lstrip (s : string) : string :=
  match s with
  | String c r => if is_space c then lstrip r else s
  | EmptyString => s
  end.

Definition strip (s : string) : string :=
  String.rev (lstrip (String.rev (lstrip s))).

(** [digits_value acc prev_digit s]: the digits of [s] appended to [acc];
    [prev_digit] tells whether an underscore may come next. *)
Fixpoint digits_value (acc : Z) (prev_digit : bool) (s : string) : option Z :=
  match s with
  | EmptyString => if prev_digit then Some acc else None
  | String c r =>
      if is_digit c then digits_value (10 * acc + digit_val c) true r
      else if Ascii.eqb c "_" && prev_digit then digits_value acc false r
      else None
  end.

Fixpoint count_digits (s : string) : nat :=
  match s with
  | EmptyString => 0
  | String c r => if is_digit c then S (count_digits r) else count_digits r
  end.

Definition max_str_digits : nat := 4300.

Definition int_error (s : string) : exn :=
  Exn ValueError ("invalid literal for int() with base 10: '" +:+ s +:+ "'").

Definition int_limit_error (digits : nat) : exn :=
  Exn ValueError
    ("Exceeds the limit (4300 digits) for integer string conversion: value has "
     +:+ str_int (Z.of_nat digits)
     +:+ " digits; use sys.set_int_max_str_digits() to increase the limit").

Definition py_int (s : string) : outcome Z :=
  let of_digits (sign : Z) (t : string) :=
    match digits_value 0 false t with
    | Some n =>
        if (count_digits t <=? max_str_digits)%nat then Return (sign * n)
        else Raise (int_limit_error (count_digits t))
    | None => Raise (int_error s)
    end in
  match strip (ascii_form s) with
  | String "-" t => of_digits (-1) t
  | String "+" t => of_digits 1 t
  | t => of_digits 1 t
  end.

(** [s.split('-')]. *)
Fixpoint split_dash_aux (cur : string) (s : string) : list string :=
  match s with
  | EmptyString => [String.rev cur]
  | String c r =>
      if Ascii.eqb c "-" then String.rev cur :: split_dash_aux EmptyString r
      else split_dash_aux (String c cur) r
  end.

Definition split_dash (s : string) : list string := split_dash_aux EmptyString s.

(** [l[i]] on a list, for a non-negative literal index. *)
Definition list_item {A} (l : list A) (i : nat) : outcome A :=
  match l !! i with
  | Some x => Return x
  | None => Raise (Exn IndexError "list index out of range")
  end.


(** [s[i]] on text holds the i-th character; the text is UTF-8 and a
    character starts at every byte that is not a continuation byte. *)
Definition is_continuation (c : ascii) : bool :=
  let n := nat_of_ascii c in ((128 <=? n) && (n <? 192))%nat.

Fixpoint utf8_chars_aux (cur : string) (s : string) : list string :=
  match s with
  | EmptyString => [String.rev cur]
  | String c r =>
      if is_continuation c then utf8_chars_aux (String c cur) r
      else String.rev cur :: utf8_chars_aux (String c EmptyString) r
  end.

Definition utf8_chars (s : string) : list string :=
  match s with
  | EmptyString => []
  | String c r => utf8_chars_aux (String c EmptyString) r
  end.

Definition is_substring (needle hay : string) : bool :=
  match String.index 0 needle hay with Some _ => true | None => false end.

(* ================================================================== *)
(** * Python values, as [json.loads] produces them *)
(* ================================================================== *)

(** ** Floats

    Python's [float] is the IEEE 754 binary64 format: 53 bits of
    precision, round to nearest with ties to even, signed zeros, two
    infinities and NaN.  [json.loads] yields every one of them ([NaN],
    [Infinity] and [-Infinity] are accepted). *)
Definition float : Type := spec_float.
Definition float_prec : Z := 53.
Definition float_emax : Z := 1024.

Definition float_add (x y : float) : float := SFadd float_prec float_emax x y.
Definition float_sub (x y : float) : float := SFsub float_prec float_emax x y.

(** [x < y]: false as soon as one side is NaN. *)
Definition float_lt (x y : float) : bool := SFltb x y.

(** The double nearest to an integer, an infinity when it is out of
    range. *)
Definition float_of_Z (z : Z) : float :=
  binary_normalize float_prec float_emax z 0 false.

(** The conversion of an [int] operand of float arithmetic. *)
Definition overflow_error : exn :=
  Exn OverflowError "int too large to convert to float".

Definition int_to_float (z : Z) : outcome float :=
  match float_of_Z z with
  | S754_infinity _ => Raise overflow_error
  | f => Return f
  end.

(** [x == n] for a float and an [int]: the comparison is exact, no side is
    rounded. *)
Definition float_eq_int (x : float) (n : Z) : bool :=
  match x with
  | S754_zero _ => n =? 0
  | S754_finite sign m e =>
      let v := if sign then Z.neg m else Z.pos m in
      if 0 <=? e then v * 2 ^ e =? n else v =? n * 2 ^ (- e)
  | S754_infinity _ | S754_nan => false
  end.

Inductive pyval :=
| PNone
| PBool (b : bool)
| PInt (z : Z)
| PFloat (x : float)
| PStr (s : string)
| PList (l : list pyval)
| PDict (d : gmap string pyval).

Definition type_name (v : pyval) : string :=
  match v with
  | PNone => "NoneType" | PBool _ => "bool" | PInt _ => "int"
  | PFloat _ => "float" | PStr _ => "str" | PList _ => "list"
  | PDict _ => "dict"
  end.

(** Truth value of [v], as tested by [not v]. *)
Definition truthy (v : pyval) : bool :=
  match v with
  | PNone => false
  | PBool b => b
  | PInt z => negb (z =? 0)
  | PFloat x => match x with S754_zero _ => false | _ => true end
  | PStr s => negb (String.eqb s "")
  | PList l => match l with [] => false | _ :: _ => true end
  | PDict d => match map_to_list d with [] => false | _ :: _ => true end
  end.

(** [v == s] for a text literal [s]. *)
Definition eq_str (v : pyval) (s : string) : bool :=
  match v with PStr t => String.eqb t s | _ => false end.

(** [v == n] for an integer literal [n]: numbers compare by value, and
    [True]/[False] are the integers 1 and 0. *)
Definition eq_int (v : pyval) (n : Z) : bool :=
  match v with
  | PInt z => z =? n
  | PBool b => (if b then 1 else 0) =? n
  | PFloat x => float_eq_int x n
  | _ => false
  end.

Definition key_error (k : string) : exn := Exn KeyError ("'" +:+ k +:+ "'").

(** [v[k]] for a text key [k]. *)
Definition getitem_key (v : pyval) (k : string) : outcome pyval :=
  match v with
  | PDict d => match d !! k with
               | Some x => Return x
               | None => Raise (key_error k)
               end
  | PList _ =>
      Raise (Exn TypeError "list indices must be integers or slices, not str")
  | PStr _ => Raise (Exn TypeError "string indices must be integers, not 'str'")
  | _ => Raise (Exn TypeError ("'" +:+ type_name v +:+ "' object is not subscriptable"))
  end.

(** [v[i]] for a non-negative integer literal [i]. *)
Definition getitem_index (v : pyval) (i : nat) : outcome pyval :=
  match v with
  | PList l => list_item l i
  | PStr s => match utf8_chars s !! i with
              | Some c => Return (PStr c)
              | None => Raise (Exn IndexError "string index out of range")
              end
  | PDict _ => Raise (Exn KeyError (str_int (Z.of_nat i)))
  | _ => Raise (Exn TypeError ("'" +:+ type_name v +:+ "' object is not subscriptable"))
  end.

(** [k in v] for a text [k]. *)
Definition contains_key (v : pyval) (k : string) : outcome bool :=
  match v with
  | PDict d => Return (bool_decide (is_Some (d !! k)))
  | PList l => Return (existsb (fun x => eq_str x k) l)
  | PStr s => Return (is_substring k s)
  | _ => Raise (Exn TypeError
                  ("argument of type '" +:+ type_name v +:+ "' is not iterable"))
  end.

(** [v.get(k)]. *)
Definition dict_get (v : pyval) (k : string) : outcome pyval :=
  match v with
  | PDict d => Return (default PNone (d !! k))
  | _ => Raise (Exn AttributeError
                  ("'" +:+ type_name v +:+ "' object has no attribute 'get'"))
  end.

(** The value of [v] as the right operand of [float + v]: an [int] (and
    a [bool], which is one) is converted, and the conversion raises
    [OverflowError] when the integer is out of the range of floats. *)
Definition to_number (v : pyval) : outcome float :=
  match v with
  | PInt z => int_to_float z
  | PFloat x => Return x
  | PBool b => Return (float_of_Z (if b then 1 else 0))
  | _ => Raise (Exn TypeError
                  ("unsupported operand type(s) for +: 'float' and '"
                   +:+ type_name v +:+ "'"))
  end.

(* ================================================================== *)
(** * Configuration and messages *)
(* ================================================================== *)

(** An anniversary or birthday entry of the configuration. *)
Record entry := Entry { entry_name : string; entry_date : string }.

(** The configuration, with the keys [load_config] requires and the
    optional ones. *)
Record config := {
  app_id : string;
  app_secret : string;
  weather_key : string;
  template_id : string;
  region : string;
  user : list string;
  anniversaries : option (list entry);
  birthdays : option (list entry);
  redirect_url : option string }.

(** One field of the message: [{"value": ..., "color": ...}]. *)
Record field_entry := Field { value : pyval; color : string }.

(** The body of a send request:
    [{"touser": ..., "template_id": ..., "url": ..., "topcolor": ...,
      "data": ...}]. *)
Record template_message := {
  msg_touser : string;
  msg_template_id : string;
  msg_url : string;
  msg_topcolor : string;
  msg_data : gmap string field_entry }.

Inductive request :=
| GET (url : string)
| POST (url : string) (body : template_message).

(* ================================================================== *)
(** * The world and the state *)
(* ================================================================== *)

(** What an HTTP call can do: fail in transport, or answer with a body
    that is JSON ([Some v]) or is not ([None]). *)
Inductive http_outcome :=
| TransportFailure (msg : string)
| HttpResponse (body : option pyval).

(** One reading of [datetime.now()]. *)
Record instant := { timestamp : float; local_date : date }.

Record world := {
  (** the outcome of the k-th HTTP call of the run, given its request *)
  http_oracle : nat -> request -> http_outcome;
  (** the k-th reading of the clock *)
  clock_oracle : nat -> instant;
  (** the k-th number drawn from the random generator *)
  rand_oracle : nat -> Z;
  (** the order in which the thread pool runs [n] submitted tasks *)
  pool_order : nat -> list nat;
  (** [ZhDate(y, m, d).to_datetime().date()] *)
  lunar_to_solar : Z -> Z -> Z -> outcome date;
  (** [repr] of floats, lists and dicts *)
  py_repr : pyval -> string }.

Inductive level := INFO | WARNING | ERROR.

(** A weather snapshot: [(text, f"{temp}°C", windDir)]. *)
Definition snapshot : Type := pyval * string * pyval.

Record state := State {
  (** HTTP calls issued so far, oldest first *)
  requests : list request;
  clock_reads : nat;
  rand_draws : nat;
  (** log records, oldest first *)
  log : list (level * string);
  (** [WeatherAPI.cache] *)
  cache : gmap string snapshot;
  (** [WeChatService.access_token] and [token_expire]; the expiry starts
      as the integer 0, which compares with the clock as the float zero
      does *)
  access_token : pyval;
  token_expire : float }.

(** The state when the objects have just been constructed. *)
Definition initial_state : state :=
  State [] 0 0 [] ∅ PNone (float_of_Z 0).

(** A computation reads the world, transforms the state, and returns or
    raises.  The state reached is kept when it raises. *)
Definition M (A : Type) : Type := world -> state -> outcome A * state.

Definition ret {A} (a : A) : M A := fun _ s => (Return a, s).

Definition bind {A B} (c : M A) (f : A -> M B) : M B :=
  fun W s =>
    match c W s with
    | (Return a, s') => f a W s'
    | (Raise e, s') => (Raise e, s')
    end.

Definition raise {A} (e : exn) : M A := fun _ s => (Raise e, s).

(** [try: c  except Exception as e: h e]. *)
Definition try_except {A} (c : M A) (h : exn -> M A) : M A :=
  fun W s =>
    match c W s with
    | (Return a, s') => (Return a, s')
    | (Raise e, s') => h e W s'
    end.

Definition lift {A} (o : outcome A) : M A := fun _ s => (o, s).

Definition ask : M world := fun W s => (Return W, s).

Declare Scope py_scope.
Delimit Scope py_scope with py.
Notation "'let*' x := c 'in' k" := (bind c (fun x => k))
  (at level 10, x name, c at level 100, k at level 200) : py_scope.
Notation "c ;; k" := (bind c (fun _ => k))
  (at level 100, k at level 200, right associativity) : py_scope.
Open Scope py_scope.

(** [str(v)], as an f-string formats [v]. *)
Definition py_str (W : world) (v : pyval) : string :=
  match v with
  | PNone => "None"
  | PBool true => "True"
  | PBool false => "False"
  | PInt z => str_int z
  | PStr s => s
  | _ => py_repr W v
  end.

(** [requests.get(url)]: records the call and asks the world. *)
Definition requests_get (url : string) : M (option pyval) :=
  fun W s =>
    let s' := State (requests s ++ [GET url]) (clock_reads s) (rand_draws s)
                    (log s) (cache s) (access_token s) (token_expire s) in
    match http_oracle W (length (requests s)) (GET url) with
    | TransportFailure msg => (Raise (Exn RequestException msg), s')
    | HttpResponse body => (Return body, s')
    end.

(** [requests.post(url, json=body)]. *)
Definition requests_post (url : string) (body : template_message)
  : M (option pyval) :=
  fun W s =>
    let s' := State (requests s ++ [POST url body]) (clock_reads s)
                    (rand_draws s) (log s) (cache s) (access_token s)
                    (token_expire s) in
    match http_oracle W (length (requests s)) (POST url body) with
    | TransportFailure msg => (Raise (Exn RequestException msg), s')
    | HttpResponse b => (Return b, s')
    end.

(** [response.json()]. *)
Definition response_json (body : option pyval) : M pyval :=
  match body with
  | Some v => ret v
  | None => raise (Exn JSONDecodeError "Expecting value: line 1 column 1 (char 0)")
  end.

(** [datetime.now()]. *)
Definition datetime_now : M instant :=
  fun W s =>
    (Return (clock_oracle W (clock_reads s)),
     State (requests s) (S (clock_reads s)) (rand_draws s) (log s) (cache s)
           (access_token s) (token_expire s)).

(** [random.randint(0, 0xFFFFFF)]: the draw is reduced into the range. *)
Definition randint_24bit : M Z :=
  fun W s =>
    (Return (rand_oracle W (rand_draws s) mod 16777216),
     State (requests s) (clock_reads s) (S (rand_draws s)) (log s) (cache s)
           (access_token s) (token_expire s)).

(** [logging.info], [logging.warning], [logging.error]. *)
Definition logging (lvl : level) (msg : string) : M unit :=
  fun _ s =>
    (Return tt,
     State (requests s) (clock_reads s) (rand_draws s) (log s ++ [(lvl, msg)])
           (cache s) (access_token s) (token_expire s)).

Definition set_cache (c : gmap string snapshot) : M unit :=
  fun _ s =>
    (Return tt,
     State (requests s) (clock_reads s) (rand_draws s) (log s) c
           (access_token s) (token_expire s)).

Definition set_access_token (t : pyval) : M unit :=
  fun _ s =>
    (Return tt,
     State (requests s) (clock_reads s) (rand_draws s) (log s) (cache s)
           t (token_expire s)).

Definition set_token_expire (q : float) : M unit :=
  fun _ s =>
    (Return tt,
     State (requests s) (clock_reads s) (rand_draws s) (log s) (cache s)
           (access_token s) q).

Definition get_state : M state := fun _ s => (Return s, s).


(* ================================================================== *)
(** * WeatherAPI *)
(* ================================================================== *)

(** The loop of [get_with_retry]: [n] iterations remain. *)
Fixpoint get_with_retry_loop (url : string) (n : nat) : M pyval :=
  match n with
  | O => ret PNone
  | S k =>
      try_except
        (let* response := requests_get url in
         response_json response)
        (fun e =>
           logging WARNING ("请求失败: " +:+ exn_msg e +:+ ", 正在重试...") ;;
           get_with_retry_loop url k)
  end.

Definition get_with_retry (url : string) (max_retries : Z) : M pyval :=
  get_with_retry_loop url (Z.to_nat max_retries).

Definition location_url (api_key region : string) : string :=
  "https://geoapi.qweather.com/v2/city/lookup?location=" +:+ region
  +:+ "&key=" +:+ api_key.

Definition weather_url (api_key location_id : string) : string :=
  "https://devapi.qweather.com/v7/weather/now?location=" +:+ location_id
  +:+ "&key=" +:+ api_key.

Definition region_lookup_error : exn := Exn ValueError "地区查询失败".
Definition weather_lookup_error : exn := Exn ValueError "天气查询失败".

(** [not data or data['code'] != '200'] *)
Definition lookup_failed (data : pyval) : outcome bool :=
  if negb (truthy data) then Return true
  else obind (getitem_key data "code") (fun c => Return (negb (eq_str c "200"))).

(** [data['location'][0]['id']] *)
Definition location_id_of (data : pyval) : outcome pyval :=
  obind (getitem_key data "location") (fun locations =>
  obind (getitem_index locations 0) (fun first =>
  getitem_key first "id")).

(** [(data['now']['text'], f"{data['now']['temp']}°C", data['now']['windDir'])] *)
Definition snapshot_of (W : world) (data : pyval) : outcome snapshot :=
  obind (getitem_key data "now") (fun now1 =>
  obind (getitem_key now1 "text") (fun text =>
  obind (getitem_key data "now") (fun now2 =>
  obind (getitem_key now2 "temp") (fun temp =>
  obind (getitem_key data "now") (fun now3 =>
  obind (getitem_key now3 "windDir") (fun wind =>
  Return (text, py_str W temp +:+ "°C", wind))))))).

Definition get_weather (api_key region : string) : M snapshot :=
  let* s := get_state in
  match cache s !! region with
  | Some cached => ret cached
  | None =>
      let* location_data := get_with_retry (location_url api_key region) 3 in
      let* failed := lift (lookup_failed location_data) in
      if failed : bool then raise region_lookup_error
      else
        let* location_id := lift (location_id_of location_data) in
        let* W := ask in
        let* weather_data :=
          get_with_retry (weather_url api_key (py_str W location_id)) 3 in
        let* failed := lift (lookup_failed weather_data) in
        if failed : bool then raise weather_lookup_error
        else
          let* result := lift (snapshot_of W weather_data) in
          let* s' := get_state in
          set_cache (<[region := result]> (cache s')) ;;
          ret result
  end.

(* ================================================================== *)
(** * DateCalculator *)
(* ================================================================== *)

Definition get_color : M string :=
  let* n := randint_24bit in
  ret ("#" +:+ hex6 n).

Definition calculate_days (start_date end_date : date) : Z :=
  toordinal end_date - toordinal start_date.

Definition parse_date (W : world) (date_str : string) : outcome date :=
  match date_str with
  | String "r" rest =>
      let parts := split_dash rest in
      obind (obind (list_item parts 0) py_int) (fun y =>
      obind (obind (list_item parts 1) py_int) (fun m =>
      obind (obind (list_item parts 2) py_int) (fun d =>
      lunar_to_solar W y m d)))
  | _ => strptime_ymd date_str
  end.

(* ================================================================== *)
(** * WeChatService *)
(* ================================================================== *)

Definition token_url (app_id app_secret : string) : string :=
  "https://api.weixin.qq.com/cgi-bin/token?grant_type=client_credential&appid="
  +:+ app_id +:+ "&secret=" +:+ app_secret.

Definition auth_error : exn := Exn ValueError "微信API认证失败".

Definition get_access_token (app_id app_secret : string) : M pyval :=
  let* now := datetime_now in
  let* s := get_state in
  if float_lt (timestamp now) (token_expire s) then ret (access_token s)
  else
    let* body := requests_get (token_url app_id app_secret) in
    let* response := response_json body in
    let* present := lift (contains_key response "access_token") in
    if negb present then
      let* W := ask in
      logging ERROR ("获取Token失败: " +:+ py_str W response) ;;
      raise auth_error
    else
      let* token := lift (getitem_key response "access_token") in
      set_access_token token ;;
      let* now' := datetime_now in
      let* expires_in := lift (getitem_key response "expires_in") in
      let* seconds := lift (to_number expires_in) in
      set_token_expire
        (float_sub (float_add (timestamp now') seconds) (float_of_Z 300)) ;;
      let* s' := get_state in
      ret (access_token s').

Definition send_url (token : string) : string :=
  "https://api.weixin.qq.com/cgi-bin/message/template/send?access_token="
  +:+ token.

Definition send_template_message (app_id app_secret : string)
    (user_id : string) (template_data : template_message) : M bool :=
  let* token := get_access_token app_id app_secret in
  let* W := ask in
  let* response := requests_post (send_url (py_str W token)) template_data in
  let* result := response_json response in
  let* errcode := lift (dict_get result "errcode") in
  if negb (eq_int errcode 0) then
    logging ERROR ("消息发送失败: " +:+ py_str W result) ;;
    ret false
  else ret true.

(* ================================================================== *)
(** * MessageGenerator *)
(* ================================================================== *)

Definition week_list : list string :=
  ["星期日"; "星期一"; "星期二"; "星期三"; "星期四"; "星期五"; "星期六"].

(** The placeholder used when the weather is unavailable. *)
Definition unknown : string := "未知".

(** The weather fields: from [get_weather], or the placeholder when it
    raises. *)
Definition weather_fields (cfg : config) : M (pyval * pyval * pyval) :=
  try_except
    (let* w := get_weather (weather_key cfg) (region cfg) in
     ret (w.1.1, PStr w.1.2, w.2))
    (fun e =>
       logging ERROR ("天气查询失败: " +:+ exn_msg e) ;;
       ret (PStr unknown, PStr unknown, PStr unknown)).

Definition base_data_of (today : date) (cfg : config)
    (w : pyval * pyval * pyval) : M (gmap string field_entry) :=
  let* day_name := lift (list_item week_list (Z.to_nat (weekday today))) in
  let* c_date := get_color in
  let* c_region := get_color in
  let* c_weather := get_color in
  let* c_temp := get_color in
  let* c_wind := get_color in
  ret (<["wind_dir" := Field w.2 c_wind]>
       (<["temp" := Field w.1.2 c_temp]>
       (<["weather" := Field w.1.1 c_weather]>
       (<["region" := Field (PStr (region cfg)) c_region]>
       (<["date" := Field (PStr (isoformat today +:+ " " +:+ day_name)) c_date]>
        ∅))))).

(** The text of an anniversary entry. *)
Definition anniversary_text (W : world) (today : date) (ann : entry)
  : outcome string :=
  obind (parse_date W (entry_date ann)) (fun start_date =>
  let days := calculate_days start_date today in
  Return (entry_name ann +:+ "已经 " +:+ str_int days +:+ " 天")).

(** [birth_date.replace(year=today.year)], moved to the next year when it
    lies before today. *)
Definition next_birthday (birth_date today : date) : outcome date :=
  obind (replace_year birth_date (year today)) (fun candidate =>
  if date_lt candidate today then replace_year candidate (year today + 1)
  else Return candidate).

Definition birthday_today : string := "今天生日！".

Definition birthday_status (days : Z) : string :=
  if days =? 0 then birthday_today else "还有" +:+ str_int days +:+ "天".

(** Days from today to the next birthday. *)
Definition birthday_days (W : world) (today : date) (bd : entry) : outcome Z :=
  obind (parse_date W (entry_date bd)) (fun birth_date =>
  obind (next_birthday birth_date today) (fun next =>
  Return (toordinal next - toordinal today))).

Definition birthday_text (W : world) (today : date) (bd : entry)
  : outcome string :=
  obind (birthday_days W today bd) (fun days =>
  Return (entry_name bd +:+ "生日" +:+ birthday_status days)).

(** One of the two loops over configured entries: entry number [idx] gets
    the key [prefix ++ str(idx)]. *)
Fixpoint entries_loop (prefix : string) (text : world -> entry -> outcome string)
    (idx : nat) (entries : list entry) (acc : gmap string field_entry)
  : M (gmap string field_entry) :=
  match entries with
  | [] => ret acc
  | e :: rest =>
      let* W := ask in
      let* v := lift (text W e) in
      let* c := get_color in
      entries_loop prefix text (S idx) rest
        (<[prefix +:+ str_int (Z.of_nat idx) := Field (PStr v) c]> acc)
  end.

Definition generate_message_data (cfg : config)
  : M (gmap string field_entry) :=
  let* now := datetime_now in
  let today := local_date now in
  let* w := weather_fields cfg in
  let* base_data := base_data_of today cfg w in
  let* anniversary_data :=
    entries_loop "anniversary_" (fun W => anniversary_text W today) 0
      (default [] (anniversaries cfg)) ∅ in
  let* birthday_data :=
    entries_loop "birthday_" (fun W => birthday_text W today) 0
      (default [] (birthdays cfg)) ∅ in
  ret (birthday_data ∪ anniversary_data ∪ base_data).

(** ** The thread pool

    A submitted task runs to completion with its exception, if any, kept
    in its future.  The pool picks the order: the tasks named by
    [pool_order] run first, in that order, and leaving the [with] block
    waits for every task, so those still pending run then, oldest
    first.  Tasks are taken as atomic here; the interleaving inside
    [get_access_token] is the subject of [TokenRace] below. *)

Definition capture {A} (c : M A) : M (outcome A) :=
  fun W s => (Return (c W s).1, (c W s).2).

Fixpoint run_tasks (order : list nat) (tasks : list (M bool))
    (futures : list (option (outcome bool)))
  : M (list (option (outcome bool))) :=
  match order with
  | [] => ret futures
  | i :: rest =>
      match tasks !! i, futures !! i with
      | Some task, Some None =>
          let* r := capture task in
          run_tasks rest tasks (<[i := Some r]> futures)
      | _, _ => run_tasks rest tasks futures
      end
  end.

Fixpoint finish_tasks (tasks : list (M bool))
    (futures : list (option (outcome bool))) : M (list (outcome bool)) :=
  match tasks, futures with
  | task :: ts, f :: fs =>
      let* r := match f with Some r => ret r | None => capture task end in
      let* rs := finish_tasks ts fs in
      ret (r :: rs)
  | _, _ => ret []
  end.

Definition thread_pool (tasks : list (M bool)) : M (list (outcome bool)) :=
  let* W := ask in
  let n := length tasks in
  let* started := run_tasks (pool_order W n) tasks (replicate n None) in
  finish_tasks tasks started.

(** [[f.result() for f in futures]]: the first exception met is raised. *)
Fixpoint future_results (futures : list (outcome bool)) : M (list bool) :=
  match futures with
  | [] => ret []
  | f :: fs =>
      let* b := lift f in
      let* bs := future_results fs in
      ret (b :: bs)
  end.

(** [sum(results)]. *)
Definition sum_results (results : list bool) : Z :=
  Z.of_nat (length (filter (fun b => b = true) results)).

Definition summary_line (sent failed : Z) : string :=
  "成功发送 " +:+ str_int sent +:+ " 条消息，失败 " +:+ str_int failed +:+ " 条".

Definition template_data_for (cfg : config) (data : gmap string field_entry)
    (u : string) : template_message :=
  {| msg_touser := u;
     msg_template_id := template_id cfg;
     msg_url := default "http://weixin.qq.com/download" (redirect_url cfg);
     msg_topcolor := "#FF0000";
     msg_data := data |}.

Definition send_messages (cfg : config) : M unit :=
  let* data := generate_message_data cfg in
  let tasks :=
    map (fun u => send_template_message (app_id cfg) (app_secret cfg) u
                    (template_data_for cfg data u)) (user cfg) in
  let* futures := thread_pool tasks in
  let* results := future_results futures in
  logging INFO
    (summary_line (sum_results results)
       (Z.of_nat (length results) - sum_results results)).

(* ================================================================== *)
(** * ConfigManager and the main block *)
(* ================================================================== *)

(** A computation of the main block completes, or ends the process with
    [sys.exit(status)]. *)
Inductive or_exit (A : Type) :=
| Completed (a : A)
| SysExit (status : Z).
Arguments Completed {A} a.
Arguments SysExit {A} status.

Definition required_keys : list string :=
  ["app_id"; "app_secret"; "weather_key"; "template_id"; "region"; "user"].

(** [all(k in config for k in keys)]: the keys are tested in order, up to
    the first that is absent. *)
Fixpoint all_keys_in (config : pyval) (keys : list string) : outcome bool :=
  match keys with
  | [] => Return true
  | k :: rest =>
      obind (contains_key config k) (fun present =>
      if present : bool then all_keys_in config rest else Return false)
  end.

Definition missing_keys_error : exn := Exn ValueError "缺少必要配置项".

(** [load_config], given what opening [config.json] and [json.load] give:
    the parsed value, or the exception raised, of which only the message
    is used. *)
Definition load_config (file : outcome pyval) : M (or_exit pyval) :=
  try_except
    (let* config := lift file in
     let* complete := lift (all_keys_in config required_keys) in
     if negb complete then raise missing_keys_error
     else ret (Completed config))
    (fun e =>
       logging ERROR ("配置加载失败: " +:+ exn_msg e) ;;
       ret (SysExit 1)).

(** [MessageGenerator(config)]: a [WeatherAPI] with an empty cache and a
    [WeChatService] without token. *)
Definition new_generator : M unit :=
  fun _ s =>
    (Return tt,
     State (requests s) (clock_reads s) (rand_draws s) (log s) ∅ PNone
           (float_of_Z 0)).

(** The main block once [load_config] has returned the configuration
    [cfg]. *)
Definition main_after_load (cfg : config) : M (or_exit unit) :=
  try_except
    (new_generator ;;
     send_messages cfg ;;
     ret (Completed tt))
    (fun e =>
       logging ERROR ("程序异常终止: " +:+ exn_msg e) ;;
       ret (SysExit 1)).

(* ================================================================== *)
(** * Notions used in the statements *)
(* ================================================================== *)

(** The JSON value delivered by the HTTP call number [k] when it is a GET
    of [url]; [None] when that call fails in transport or in decoding. *)
Definition attempt (W : world) (k : nat) (url : string) : option pyval :=
  match http_oracle W k (GET url) with
  | HttpResponse (Some v) => Some v
  | _ => None
  end.

(** What a computation leaves untouched when it only issues requests and
    writes log lines. *)
Definition same_objects (s s' : state) : Prop :=
  clock_reads s' = clock_reads s /\ rand_draws s' = rand_draws s
  /\ cache s' = cache s /\ access_token s' = access_token s
  /\ token_expire s' = token_expire s.


(** ** Sample worlds and configurations, for concrete runs *)

Definition dict (l : list (string * pyval)) : pyval := PDict (list_to_map l).

(** A world in which the k-th HTTP call gets the k-th outcome of [script]
    (a transport failure once the script is exhausted), the clock shows
    the instant [now], every random draw is [0] and the pool runs its
    tasks in submission order. *)
Definition scripted_world (script : list http_outcome) (now : instant) : world :=
  {| http_oracle := fun k _ => default (TransportFailure "connection refused") (script !! k);
     clock_oracle := fun _ => now;
     rand_oracle := fun _ => 0;
     pool_order := fun n => seq 0 n;
     lunar_to_solar := fun y m d => make_date y m d;
     py_repr := fun _ => "<repr>" |}.

Definition noon_2024_03_15 : instant :=
  {| timestamp := float_of_Z 1710475200; local_date := Date 2024 3 15 |}.

Definition geocoding_ok : pyval :=
  dict [("code", PStr "200");
        ("location", PList [dict [("id", PStr "101010100")]])].

Definition weather_ok : pyval :=
  dict [("code", PStr "200");
        ("now", dict [("text", PStr "Sunny"); ("temp", PStr "21");
                      ("windDir", PStr "NE")])].

(** A geocoding answer without the status field, and one that reports
    success with no location. *)
Definition geocoding_no_code : pyval :=
  dict [("location", PList [dict [("id", PStr "101010100")]])].

Definition geocoding_no_location : pyval :=
  dict [("code", PStr "200"); ("location", PList [])].

(** The state after one reading of the clock. *)
Definition after_clock_read (s : state) : state :=
  State (requests s) (S (clock_reads s)) (rand_draws s) (log s) (cache s)
        (access_token s) (token_expire s).

(** The JSON answer received by the POST of [send_template_message], when
    the token is obtained and the POST delivers JSON. *)
Definition send_response (app_id app_secret : string)
    (template_data : template_message) (W : world) (s : state)
  : option pyval :=
  match get_access_token app_id app_secret W s with
  | (Return token, s1) =>
      match http_oracle W (length (requests s1))
              (POST (send_url (py_str W token)) template_data) with
      | HttpResponse (Some v) => Some v
      | _ => None
      end
  | (Raise _, _) => None
  end.

(** The refresh path of [get_access_token], taken once the cached token is
    found stale. *)
Definition refresh (a b : string) : M pyval :=
  let* body := requests_get (token_url a b) in
  let* response := response_json body in
  let* present := lift (contains_key response "access_token") in
  if negb present then
    let* W := ask in
    logging ERROR ("获取Token失败: " +:+ py_str W response) ;;
    raise auth_error
  else
    let* token := lift (getitem_key response "access_token") in
    set_access_token token ;;
    let* now' := datetime_now in
    let* expires_in := lift (getitem_key response "expires_in") in
    let* seconds := lift (to_number expires_in) in
    set_token_expire
      (float_sub (float_add (timestamp now') seconds) (float_of_Z 300)) ;;
    let* s' := get_state in
    ret (access_token s').

Definition token_ok : pyval :=
  dict [("access_token", PStr "TOKEN"); ("expires_in", PInt 7200)].

Definition sample_message : template_message :=
  {| msg_touser := "alice"; msg_template_id := "T"; msg_url := "http://x/";
     msg_topcolor := "#FF0000"; msg_data := ∅ |}.

(** The key of the entry number [i] in one of the generated name spaces. *)
Definition entry_key (prefix : string) (i : nat) : string :=
  prefix +:+ str_int (Z.of_nat i).

(** Every entry of a list yields its text. *)
Definition all_texts_ok (text : entry -> outcome string) (entries : list entry)
  : Prop :=
  Forall (fun e => is_return (text e) = true) entries.

(** The placeholder weather, and the state in which the fallback leaves the
    log. *)
Definition unknown_weather : pyval * pyval * pyval :=
  (PStr unknown, PStr unknown, PStr unknown).

(** The two loops and the merge that end [generate_message_data]. *)
Definition generated_entries (cfg : config) (today : date)
    (base_data : gmap string field_entry) : M (gmap string field_entry) :=
  let* anniversary_data :=
    entries_loop "anniversary_" (fun W => anniversary_text W today) 0
      (default [] (anniversaries cfg)) ∅ in
  let* birthday_data :=
    entries_loop "birthday_" (fun W => birthday_text W today) 0
      (default [] (birthdays cfg)) ∅ in
  ret (birthday_data ∪ anniversary_data ∪ base_data).

Definition sample_config : config :=
  {| app_id := "A"; app_secret := "S"; weather_key := "K";
     template_id := "T"; region := "Beijing";
     user := ["u1"; "u2"; "u3"];
     anniversaries := Some [Entry "Wedding" "2020-01-01"];
     birthdays := Some [Entry "Bob" "1990-03-15"];
     redirect_url := None |}.

(** The same, with a malformed date in the first of two birthdays. *)
Definition malformed_config : config :=
  {| app_id := "A"; app_secret := "S"; weather_key := "K";
     template_id := "T"; region := "Beijing";
     user := ["u1"; "u2"; "u3"];
     anniversaries := None;
     birthdays := Some [Entry "Ann" "2024-13-40"; Entry "Bob" "1990-03-15"];
     redirect_url := None |}.

(** A world in which the weather service is unreachable. *)
Definition no_weather_world : world := scripted_world [] noon_2024_03_15.

(** ** Notions for the dispatch *)

(** The recipients of the send requests found in a list of requests. *)
Definition post_recipients (reqs : list request) : list string :=
  omap (fun r => match r with
                 | POST _ body => Some (msg_touser body)
                 | GET _ => None
                 end) reqs.

(** The token endpoint always answers with a token and a numeric
    lifetime. *)
Definition token_available (W : world) (app_id app_secret : string) : Prop :=
  forall k, exists (d : gmap string pyval) (tok e : pyval) (secs : float),
    http_oracle W k (GET (token_url app_id app_secret))
    = HttpResponse (Some (PDict d))
    /\ d !! "access_token" = Some tok
    /\ d !! "expires_in" = Some e
    /\ to_number e = Return secs.

(** What a send makes of the outcome of its POST. *)
Definition send_outcome (o : http_outcome) : outcome bool :=
  match o with
  | TransportFailure msg => Raise (Exn RequestException msg)
  | HttpResponse None =>
      Raise (Exn JSONDecodeError "Expecting value: line 1 column 1 (char 0)")
  | HttpResponse (Some v) =>
      obind (dict_get v "errcode") (fun code => Return (eq_int code 0))
  end.

(** The users whose future is still pending. *)
Fixpoint pending_users (futures : list (option (outcome bool)))
    (users : list string) : list string :=
  match futures, users with
  | f :: fs, u :: us =>
      match f with
      | None => u :: pending_users fs us
      | Some _ => pending_users fs us
      end
  | _, _ => []
  end.

(** The first exception among completed futures, and the values of those
    that returned. *)
Fixpoint first_raise (outcomes : list (outcome bool)) : option exn :=
  match outcomes with
  | [] => None
  | Return _ :: rest => first_raise rest
  | Raise e :: _ => Some e
  end.

Definition returned (outcomes : list (outcome bool)) : list bool :=
  omap (fun o => match o with Return b => Some b | Raise _ => None end) outcomes.

Definition count_outcome (b : bool) (outcomes : list (outcome bool)) : Z :=
  Z.of_nat (length (filter (fun x => x = b) (returned outcomes))).

(** Log lines of level [ERROR] only. *)
Definition only_errors (lines : list (level * string)) : Prop :=
  Forall (fun l => l.1 = ERROR) lines.

(** A world whose services always answer: geocoding and weather succeed,
    the token endpoint hands out a token, and the outcome of a send is
    decided by its recipient.  The pool runs its tasks last to first. *)
Definition service_world (answer : string -> http_outcome) : world :=
  {| http_oracle := fun _ req =>
       match req with
       | GET url =>
           if String.prefix "https://geoapi" url
           then HttpResponse (Some geocoding_ok)
           else if String.prefix "https://devapi" url
           then HttpResponse (Some weather_ok)
           else HttpResponse (Some token_ok)
       | POST _ body => answer (msg_touser body)
       end;
     clock_oracle := fun _ => noon_2024_03_15;
     rand_oracle := fun k => Z.of_nat k;
     pool_order := fun n => rev (seq 0 n);
     lunar_to_solar := fun y m d => make_date y m d;
     py_repr := fun _ => "<repr>" |}.

Definition seven_recipients : config :=
  {| app_id := "A"; app_secret := "S"; weather_key := "K";
     template_id := "T"; region := "Beijing";
     user := ["u1"; "u2"; "u3"; "u4"; "u5"; "u6"; "u7"];
     anniversaries := None; birthdays := None; redirect_url := None |}.

(** The provider accepts every send but the one to ["u3"], which it
    rejects with an error code. *)
Definition third_rejected (u : string) : http_outcome :=
  if String.eqb u "u3"
  then HttpResponse (Some (dict [("errcode", PInt 40003)]))
  else HttpResponse (Some (dict [("errcode", PInt 0)])).

(** The send to ["u3"] fails in transport. *)
Definition third_unreachable (u : string) : http_outcome :=
  if String.eqb u "u3" then TransportFailure "connection reset"
  else HttpResponse (Some (dict [("errcode", PInt 0)])).

(** Every future is pending or holds the expected outcome of its task. *)
Definition futures_ok (expected : string -> outcome bool) (us : list string)
    (futures : list (option (outcome bool))) : Prop :=
  Forall2 (fun u f => f = None \/ f = Some (expected u)) us futures.

(** A computation that never removes or changes an entry of the weather
    cache. *)
Definition cache_monotone {A} (c : M A) : Prop :=
  forall (W : world) (s : state) (r : string) (v : snapshot),
    cache s !! r = Some v -> cache (c W s).2 !! r = Some v.

(* ================================================================== *)
(** * Concurrent workers in [get_access_token] *)
(* ================================================================== *)

(** The pool's workers call [get_access_token] on the same
    [WeChatService] object, and the function takes no lock.  A worker is
    followed statement by statement: after each statement another worker
    may run.  The attributes [access_token] and [token_expire], the clock
    and the requests are those of the shared [state]. *)
Module TokenRace.

(** Where a worker stands in [get_access_token]. *)
Inductive pc :=
| AtCheck                           (* before the test on the expiry *)
| AtFetch                           (* the test failed: before the request *)
| AtStoreToken (response : pyval)   (* before [self.access_token = ...] *)
| AtStoreExpire (response : pyval)  (* before [self.token_expire = ...] *)
| AtReturn                          (* before the final [return] *)
| Done (r : outcome pyval).

(** One statement of a worker.  An exception ends the worker. *)
Definition step_worker (a b : string) (p : pc) : M pc :=
  match p with
  | AtCheck =>
      let* now := datetime_now in
      let* s := get_state in
      if float_lt (timestamp now) (token_expire s)
      then ret (Done (Return (access_token s)))
      else ret AtFetch
  | AtFetch =>
      try_except
        (let* body := requests_get (token_url a b) in
         let* response := response_json body in
         let* present := lift (contains_key response "access_token") in
         if negb present then
           let* W := ask in
           logging ERROR ("获取Token失败: " +:+ py_str W response) ;;
           raise auth_error
         else ret (AtStoreToken response))
        (fun e => ret (Done (Raise e)))
  | AtStoreToken response =>
      try_except
        (let* token := lift (getitem_key response "access_token") in
         set_access_token token ;;
         ret (AtStoreExpire response))
        (fun e => ret (Done (Raise e)))
  | AtStoreExpire response =>
      try_except
        (let* now' := datetime_now in
         let* expires_in := lift (getitem_key response "expires_in") in
         let* seconds := lift (to_number expires_in) in
         set_token_expire
           (float_sub (float_add (timestamp now') seconds) (float_of_Z 300)) ;;
         ret AtReturn)
        (fun e => ret (Done (Raise e)))
  | AtReturn =>
      let* s := get_state in
      ret (Done (Return (access_token s)))
  | Done r => ret (Done r)
  end.

(** The workers and the shared state; worker [i] takes a step. *)
Definition step_at (a b : string) (W : world) (i : nat)
    (c : list pc * state) : list pc * state :=
  match c.1 !! i with
  | Some p =>
      match step_worker a b p W c.2 with
      | (Return p', s') => (<[i := p']> c.1, s')
      | (Raise _, s') => (c.1, s')
      end
  | None => c
  end.

(** The workers scheduled in the order [sched]. *)
Definition run (a b : string) (W : world) (sched : list nat)
    (c : list pc * state) : list pc * state :=
  fold_left (fun c i => step_at a b W i c) sched c.

(** [n] workers entering [get_access_token]. *)
Definition workers (n : nat) : list pc := replicate n AtCheck.

(** Requests issued between two states. *)
Definition fetches (s s' : state) : nat :=
  (length (requests s') - length (requests s))%nat.

(** A worker left alone: its five statements in a row. *)
Definition worker_alone (a b : string) : M pyval :=
  let* p1 := step_worker a b AtCheck in
  let* p2 := step_worker a b p1 in
  let* p3 := step_worker a b p2 in
  let* p4 := step_worker a b p3 in
  let* p5 := step_worker a b p4 in
  match p5 with
  | Done r => lift r
  | _ => raise (Exn TypeError "unfinished")
  end.




(** Two answers of the endpoint with different tokens and lifetimes. *)
Definition two_answers : world :=
  scripted_world
    [HttpResponse (Some (dict [("access_token", PStr "FIRST");
                               ("expires_in", PInt 7200)]));
     HttpResponse (Some (dict [("access_token", PStr "SECOND");
                               ("expires_in", PInt 3600)]))]
    noon_2024_03_15.

End TokenRace.

(* ================================================================== *)
(** * Notions for the properties of whole computations *)
(* ================================================================== *)

(** A computation whose final state is always related by [R] to its
    initial state, whether it returns or raises. *)
Definition preserves (R : state -> state -> Prop) {A} (c : M A) : Prop :=
  forall (W : world) (s : state), R s (c W s).2.

(** The requests issued between [s] and [s'] all satisfy [P]. *)
Definition issues_only (P : request -> Prop) (s s' : state) : Prop :=
  exists new, requests s' = requests s ++ new /\ Forall P new.

(** A GET addressed to one of the two hosts of the weather provider. *)
Definition to_weather_provider (r : request) : Prop :=
  exists url, r = GET url
    /\ (String.prefix "https://geoapi.qweather.com/" url = true
        \/ String.prefix "https://devapi.qweather.com/" url = true).

(** A token request or a send. *)
Definition to_messaging_provider (app_id app_secret : string) (r : request)
  : Prop :=
  r = GET (token_url app_id app_secret)
  \/ exists token body, r = POST (send_url token) body.

(** What the composition may do to the state: read the clock, draw
    colours, query the weather provider, fill the cache, write log lines.
    It leaves the token alone. *)
Definition weather_phase (s s' : state) : Prop :=
  access_token s' = access_token s
  /\ token_expire s' = token_expire s
  /\ issues_only to_weather_provider s s'.

(** What the dispatch may do: read the clock, talk to the messaging
    provider, store the token, write log lines.  It leaves the weather
    cache and the random generator alone. *)
Definition messaging_phase (app_id app_secret : string) (s s' : state) : Prop :=
  cache s' = cache s
  /\ rand_draws s' = rand_draws s
  /\ issues_only (to_messaging_provider app_id app_secret) s s'.

(** The requests are those of [s]. *)
Definition same_requests (s s' : state) : Prop := requests s' = requests s.

(** What [send_messages] does once the data are composed: the pool, the
    collection of the results and the summary. *)
Definition dispatch (cfg : config) (data : gmap string field_entry) : M unit :=
  let tasks :=
    map (fun u => send_template_message (app_id cfg) (app_secret cfg) u
                    (template_data_for cfg data u)) (user cfg) in
  let* futures := thread_pool tasks in
  let* results := future_results futures in
  logging INFO
    (summary_line (sum_results results)
       (Z.of_nat (length results) - sum_results results)).

(** An exception raised by subscripting the data of an answer. *)
Definition data_error (e : exn) : Prop :=
  exn_class e = KeyError \/ exn_class e = IndexError \/ exn_class e = TypeError.

(** The state after one more request. *)
Definition after_request (r : request) (s : state) : state :=
  State (requests s ++ [r]) (clock_reads s) (rand_draws s) (log s) (cache s)
        (access_token s) (token_expire s).

(** The state with a snapshot stored under a region. *)
Definition with_snapshot (region : string) (snap : snapshot) (s : state)
  : state :=
  State (requests s) (clock_reads s) (rand_draws s) (log s)
        (<[region := snap]> (cache s)) (access_token s) (token_expire s).

(** The state after one more log line. *)
Definition after_log (lvl : level) (msg : string) (s : state) : state :=
  State (requests s) (clock_reads s) (rand_draws s) (log s ++ [(lvl, msg)])
        (cache s) (access_token s) (token_expire s).

(** ** Colours *)

Definition is_hex_digit (c : ascii) : bool :=
  let n := nat_of_ascii c in
  (((48 <=? n) && (n <=? 57)) || ((97 <=? n) && (n <=? 102)))%nat.

Definition hex_digit_value (c : ascii) : Z :=
  let n := Z.of_nat (nat_of_ascii c) in
  if n <=? 57 then n - 48 else n - 87.

(** The number written by hexadecimal digits, most significant first. *)
Fixpoint hex_value (acc : Z) (s : string) : Z :=
  match s with
  | EmptyString => acc
  | String c r => hex_value (16 * acc + hex_digit_value c) r
  end.

(** A colour as the provider expects it: ["#"] and six lowercase
    hexadecimal digits. *)
Definition is_color (c : string) : bool :=
  match c with
  | String "#" digits =>
      (String.length digits =? 6)%nat
      && forallb is_hex_digit (list_ascii_of_string digits)
  | _ => false
  end.

Definition color_value (c : string) : Z :=
  match c with
  | String _ digits => hex_value 0 digits
  | EmptyString => 0
  end.

(** Every field of a mapping carries a well-formed colour. *)
Definition colors_ok (m : gmap string field_entry) : Prop :=
  map_Forall (fun _ f => is_color (color f) = true) m.

Definition fixed_keys : list string :=
  ["date"; "region"; "weather"; "temp"; "wind_dir"].

(** ** Days of the week *)

(** The name that [week_list], which starts on Sunday, gives to the day
    of a given ordinal.  Day 1 of the calendar, 0001-01-01, is a Monday:
    the ordinals of the Sundays are the multiples of 7. *)
Definition day_name (ordinal : Z) : option string :=
  week_list !! Z.to_nat (ordinal mod 7).

(** ** Refused credentials *)

(** The token endpoint answers every request with a JSON object that
    carries no token (an error code, typically). *)
Definition token_refused (W : world) (app_id app_secret : string) : Prop :=
  forall k, exists d : gmap string pyval,
    http_oracle W k (GET (token_url app_id app_secret))
    = HttpResponse (Some (PDict d))
    /\ d !! "access_token" = None.

(** No stored token is ever fresh: the expiry [expire] is never ahead of
    the clock. *)
Definition never_fresh (W : world) (expire : float) : Prop :=
  forall k, float_lt (timestamp (clock_oracle W k)) expire = false.

(** A world without weather whose token endpoint answers every request
    with an error code, and a configuration with two recipients. *)
Definition refusing_world : world :=
  {| http_oracle := fun _ req =>
       match req with
       | GET url =>
           if String.prefix "https://api.weixin" url
           then HttpResponse (Some (dict [("errcode", PInt 40013)]))
           else TransportFailure "unreachable"
       | POST _ _ => HttpResponse (Some (dict [("errcode", PInt 0)]))
       end;
     clock_oracle := fun _ => noon_2024_03_15;
     rand_oracle := fun k => Z.of_nat k;
     pool_order := fun n => seq 0 n;
     lunar_to_solar := fun y m d => make_date y m d;
     py_repr := fun _ => "<repr>" |}.

Definition refused_config : config :=
  {| app_id := "A"; app_secret := "S"; weather_key := "K";
     template_id := "T"; region := "Beijing";
     user := ["u1"; "u2"];
     anniversaries := None; birthdays := None; redirect_url := None |}.

(** ** The main block *)

(** The state in which [MessageGenerator(config)] leaves the objects: an
    empty weather cache and no token. *)
Definition fresh_generator (s : state) : state :=
  State (requests s) (clock_reads s) (rand_draws s) (log s) ∅ PNone
        (float_of_Z 0).

(** ** Lunar dates *)

(** Text without ["-"]. *)
Fixpoint dash_free (s : string) : bool :=
  match s with
  | EmptyString => true
  | String c r => negb (Ascii.eqb c "-") && dash_free r
  end.

(** What the lunar branch of [parse_date] makes of three parts. *)
Definition lunar_of_parts (W : world) (a b c : string) : outcome date :=
  obind (py_int a) (fun y =>
  obind (py_int b) (fun m =>
  obind (py_int c) (fun d => lunar_to_solar W y m d))).

(* ================================================================== *)
(** * Properties of [get_with_retry] *)
(* ================================================================== *)

Lemma same_objects_trans s1 s2 s3 :
  same_objects s1 s2 -> same_objects s2 s3 -> same_objects s1 s3.
Proof.
  intros (?&?&?&?&?) (?&?&?&?&?). repeat split; congruence.
Qed.

Lemma attempt_failed_at_start W s url :
  (forall v, http_oracle W (length (requests s)) (GET url) <> HttpResponse (Some v)) ->
  attempt W (length (requests s) + 0) url = None.
Proof.
  intros H. unfold attempt. rewrite Nat.add_0_r.
  destruct (http_oracle W _ _) as [|[v|]]; try done. by destruct (H v).
Qed.

(** The loop never raises; it stops at the first attempt that delivers
    JSON, and gives [None] when the [n] attempts are used up. *)
Lemma get_with_retry_loop_spec (n : nat) :
  forall W s url,
  exists k v s',
    get_with_retry_loop url n W s = (Return v, s')
    /\ (k <= n)%nat
    /\ requests s' = requests s ++ replicate k (GET url)
    /\ same_objects s s'
    /\ ((exists j, k = S j
                   /\ attempt W (length (requests s) + j) url = Some v
                   /\ forall i, (i < j)%nat ->
                        attempt W (length (requests s) + i) url = None)
        \/ (k = n /\ v = PNone
            /\ forall i, (i < n)%nat ->
                 attempt W (length (requests s) + i) url = None)).
Proof.
  induction n as [|n IH]; intros W s url.
  - exists 0%nat, PNone, s. simpl. rewrite app_nil_r.
    repeat split; try done. right. repeat split; try done. intros i Hi. lia.
  - assert (Hagain : forall st,
      requests st = requests s ++ [GET url] -> same_objects s st ->
      attempt W (length (requests s) + 0) url = None ->
      exists k v s',
        get_with_retry_loop url n W st = (Return v, s')
        /\ (k <= S n)%nat
        /\ requests s' = requests s ++ replicate k (GET url)
        /\ same_objects s s'
        /\ ((exists j, k = S j
                   /\ attempt W (length (requests s) + j) url = Some v
                   /\ forall i, (i < j)%nat ->
                        attempt W (length (requests s) + i) url = None)
            \/ (k = S n /\ v = PNone
                /\ forall i, (i < S n)%nat ->
                     attempt W (length (requests s) + i) url = None))).
    { intros st Hst Hobj Hfirst.
      destruct (IH W st url) as (k & v & s' & Hrun & Hk & Hreq & Hsame & Hcases).
      exists (S k), v, s'. split; [exact Hrun|]. split; [lia|].
      split. { rewrite Hreq, Hst, <- app_assoc. done. }
      split. { eapply same_objects_trans; eassumption. }
      rewrite Hst, length_app in Hcases. simpl in Hcases.
      destruct Hcases as [(j & -> & Hj & Hbefore)|(-> & -> & Hall)].
      - left. exists (S j). split; [done|]. split.
        { rewrite <- Hj. f_equal. lia. }
        intros [|i] Hi; [done|].
        rewrite <- (Hbefore i) by lia. f_equal. lia.
      - right. repeat split; try done.
        intros [|i] Hi; [done|].
        rewrite <- (Hall i) by lia. f_equal. lia. }
    simpl. unfold try_except, bind, requests_get.
    destruct (http_oracle W (length (requests s)) (GET url)) as [msg|[v|]] eqn:Hcall;
      simpl.
    + apply Hagain; [done | by repeat split |].
      apply attempt_failed_at_start. intros v. by rewrite Hcall.
    + eexists 1%nat, v, _. split; [reflexivity|]. split; [lia|].
      split; [done|]. split; [by repeat split|].
      left. exists 0%nat. split; [done|]. split.
      { unfold attempt. rewrite Nat.add_0_r, Hcall. done. }
      intros i Hi. lia.
    + apply Hagain; [done | by repeat split |].
      apply attempt_failed_at_start. intros v. by rewrite Hcall.
Qed.

(** Consequences used for the callers: with a positive budget at least
    one attempt is made, and a world whose first attempt succeeds sees
    exactly one. *)
Lemma get_with_retry_3 (W : world) (s : state) (url : string) :
  exists k v s',
    get_with_retry url 3 W s = (Return v, s')
    /\ (1 <= k <= 3)%nat
    /\ requests s' = requests s ++ replicate k (GET url)
    /\ same_objects s s'
    /\ (attempt W (length (requests s)) url <> None -> k = 1%nat).
Proof.
  destruct (get_with_retry_loop_spec 3 W s url)
    as (k & v & s' & Hrun & Hk & Hreq & Hsame & Hcases).
  exists k, v, s'. split; [exact Hrun|].
  split. { destruct Hcases as [(j & -> & _)|(-> & _)]; lia. }
  split; [exact Hreq|]. split; [exact Hsame|].
  intros Hfirst.
  destruct Hcases as [(j & -> & _ & Hbefore)|(_ & _ & Hall)].
  - destruct j as [|j]; [done|].
    destruct Hfirst. rewrite <- (Hbefore 0%nat) by lia. f_equal. lia.
  - destruct Hfirst. rewrite <- (Hall 0%nat) by lia. f_equal. lia.
Qed.

(** C6. For every URL and positive budget [n], [get_with_retry] makes [k]
    GET attempts with [k <= n], never raises, returns the JSON of the
    first attempt that succeeds (every earlier attempt having failed in
    transport or decoding), and returns [None] after exactly [n] attempts
    when all of them fail. *)
Theorem get_with_retry_attempts (W : world) (s : state) (url : string) (n : Z) :
  0 < n ->
  exists (k : nat) (v : pyval) (s' : state),
    get_with_retry url n W s = (Return v, s')
    /\ Z.of_nat k <= n
    /\ requests s' = requests s ++ replicate k (GET url)
    /\ ((exists j, k = S j
                   /\ attempt W (length (requests s) + j) url = Some v
                   /\ forall i, (i < j)%nat ->
                        attempt W (length (requests s) + i) url = None)
        \/ (Z.of_nat k = n /\ v = PNone
            /\ forall i, (i < k)%nat ->
                 attempt W (length (requests s) + i) url = None)).
Proof.
  intros Hn. unfold get_with_retry.
  destruct (get_with_retry_loop_spec (Z.to_nat n) W s url)
    as (k & v & s' & Hrun & Hk & Hreq & _ & Hcases).
  exists k, v, s'. split; [exact Hrun|]. split; [lia|]. split; [exact Hreq|].
  destruct Hcases as [Hfound|(-> & -> & Hall)]; [by left|].
  right. split; [lia|]. by split.
Qed.

(** A run with budget 3 in which the first call fails in transport, the
    second answers with a body that is not JSON and the third succeeds. *)
Lemma get_with_retry_attempts_witness :
  0 < 3 /\
  exists (k : nat) (v : pyval) (s' : state),
    get_with_retry "http://example/" 3
      (scripted_world [TransportFailure "timeout"; HttpResponse None;
                       HttpResponse (Some (PInt 7))] noon_2024_03_15)
      initial_state = (Return v, s')
    /\ Z.of_nat k <= 3
    /\ requests s' = requests initial_state ++ replicate k (GET "http://example/")
    /\ ((exists j, k = S j
           /\ attempt (scripted_world [TransportFailure "timeout"; HttpResponse None;
                       HttpResponse (Some (PInt 7))] noon_2024_03_15)
                (length (requests initial_state) + j) "http://example/" = Some v
           /\ forall i, (i < j)%nat ->
                attempt (scripted_world [TransportFailure "timeout"; HttpResponse None;
                       HttpResponse (Some (PInt 7))] noon_2024_03_15)
                  (length (requests initial_state) + i) "http://example/" = None)
        \/ (Z.of_nat k = 3 /\ v = PNone
            /\ forall i, (i < k)%nat ->
                 attempt (scripted_world [TransportFailure "timeout"; HttpResponse None;
                       HttpResponse (Some (PInt 7))] noon_2024_03_15)
                   (length (requests initial_state) + i) "http://example/" = None)).
Proof.
  split; [lia|].
  apply (get_with_retry_attempts
           (scripted_world [TransportFailure "timeout"; HttpResponse None;
                            HttpResponse (Some (PInt 7))] noon_2024_03_15)
           initial_state "http://example/" 3).
  lia.
Defined.

Example get_with_retry_third_time_lucky :
  (get_with_retry "http://example/" 3
     (scripted_world [TransportFailure "timeout"; HttpResponse None;
                      HttpResponse (Some (PInt 7))] noon_2024_03_15)
     initial_state).1 = Return (PInt 7).
Proof. reflexivity. Qed.

Example get_with_retry_gives_up :
  (get_with_retry "http://example/" 3
     (scripted_world [] noon_2024_03_15) initial_state).1 = Return PNone.
Proof. reflexivity. Qed.

(* ================================================================== *)
(** * Properties of [get_weather] *)
(* ================================================================== *)

Lemma get_weather_cached (key region : string) (W : world) (s : state)
    (snap : snapshot) :
  cache s !! region = Some snap ->
  get_weather key region W s = (Return snap, s).
Proof.
  intros H. unfold get_weather, bind, get_state. simpl. rewrite H. done.
Qed.

(** A query for a region that is not cached: the requests it issues, and
    what becomes of the cache.  The second batch of requests, if any, goes
    to the current-weather endpoint, for the location id read in the
    geocoding answer. *)
Lemma get_weather_uncached (key region : string) (W : world) (s : state) :
  cache s !! region = None ->
  exists (k1 k2 : nat) (wurl : string) r s',
    get_weather key region W s = (r, s')
    /\ requests s' = requests s ++ replicate k1 (GET (location_url key region))
                       ++ replicate k2 (GET wurl)
    /\ (1 <= k1 <= 3)%nat /\ (k2 <= 3)%nat
    /\ match r with
       | Return snap => (1 <= k2)%nat /\ cache s' = <[region := snap]> (cache s)
       | Raise _ => cache s' = cache s
       end
    /\ ((forall k url, attempt W k url <> None) -> k1 = 1%nat /\ (k2 <= 1)%nat)
    /\ ((1 <= k2)%nat ->
        exists v1 id,
          (get_with_retry (location_url key region) 3 W s).1 = Return v1
          /\ location_id_of v1 = Return id
          /\ wurl = weather_url key (py_str W id)).
Proof.
  intros Hc.
  set (first := (get_with_retry (location_url key region) 3 W s).1).
  destruct (get_with_retry_3 W s (location_url key region))
    as (k1 & v1 & s1 & Hrun1 & Hk1 & Hreq1 & Hsame1 & Hone1).
  assert (Hcache1 : cache s1 = cache s) by (destruct Hsame1 as (?&?&?&?&?); done).
  assert (Hstop : forall e, exists (k1 k2 : nat) (wurl : string) r s',
    (Raise e, s1) = (r, s')
    /\ requests s' = requests s ++ replicate k1 (GET (location_url key region))
                       ++ replicate k2 (GET wurl)
    /\ (1 <= k1 <= 3)%nat /\ (k2 <= 3)%nat
    /\ match r with
       | Return snap => (1 <= k2)%nat /\ cache s' = <[region := snap]> (cache s)
       | Raise _ => cache s' = cache s
       end
    /\ ((forall k url, attempt W k url <> None) -> k1 = 1%nat /\ (k2 <= 1)%nat)
    /\ ((1 <= k2)%nat ->
        exists v1 id,
          first = Return v1
          /\ location_id_of v1 = Return id
          /\ wurl = weather_url key (py_str W id))).
  { intros e. exists k1, 0%nat, "", (Raise e), s1. split; [done|].
    simpl. rewrite app_nil_r.
    split; [exact Hreq1|]. split; [exact Hk1|]. split; [lia|].
    split; [exact Hcache1|].
    split; [|intros Hk; lia].
    intros Hrel. split; [apply Hone1, Hrel | lia]. }
  unfold get_weather. unfold bind at 1. simpl. rewrite Hc.
  unfold bind at 1. rewrite Hrun1.
  unfold bind at 1, lift at 1.
  destruct (lookup_failed v1) as [[|]|e1]; [apply Hstop| |apply Hstop].
  unfold bind at 1, lift at 1.
  destruct (location_id_of v1) as [id|e2] eqn:Hid; [|apply Hstop].
  assert (Hurl : exists v1' id',
            first = Return v1'
            /\ location_id_of v1' = Return id'
            /\ weather_url key (py_str W id) = weather_url key (py_str W id')).
  { exists v1, id. unfold first. by rewrite Hrun1. }
  unfold bind at 1, ask at 1.
  destruct (get_with_retry_3 W s1 (weather_url key (py_str W id)))
    as (k2 & v2 & s2 & Hrun2 & Hk2 & Hreq2 & Hsame2 & Hone2).
  assert (Hcache2 : cache s2 = cache s)
    by (destruct Hsame2 as (?&?&?&?&?); congruence).
  assert (Hstop2 : forall e, exists (k1 k2 : nat) (wurl : string) r s',
    (Raise e, s2) = (r, s')
    /\ requests s' = requests s ++ replicate k1 (GET (location_url key region))
                       ++ replicate k2 (GET wurl)
    /\ (1 <= k1 <= 3)%nat /\ (k2 <= 3)%nat
    /\ match r with
       | Return snap => (1 <= k2)%nat /\ cache s' = <[region := snap]> (cache s)
       | Raise _ => cache s' = cache s
       end
    /\ ((forall k url, attempt W k url <> None) -> k1 = 1%nat /\ (k2 <= 1)%nat)
    /\ ((1 <= k2)%nat ->
        exists v1 id,
          first = Return v1
          /\ location_id_of v1 = Return id
          /\ wurl = weather_url key (py_str W id))).
  { intros e. exists k1, k2, (weather_url key (py_str W id)), (Raise e), s2.
    split; [done|]. split. { rewrite Hreq2, Hreq1, <- app_assoc. done. }
    split; [exact Hk1|]. split; [lia|]. split; [exact Hcache2|].
    split; [|intros _; exact Hurl].
    intros Hrel. split; [apply Hone1, Hrel|].
    rewrite Hone2; [lia | apply Hrel]. }
  unfold bind at 1. rewrite Hrun2.
  unfold bind at 1, lift at 1.
  destruct (lookup_failed v2) as [[|]|e3]; [apply Hstop2| |apply Hstop2].
  unfold bind at 1, lift at 1.
  destruct (snapshot_of W v2) as [snap|e4]; [|apply Hstop2].
  exists k1, k2, (weather_url key (py_str W id)), (Return snap).
  eexists. split; [reflexivity|]. simpl.
  split. { rewrite Hreq2, Hreq1, <- app_assoc. done. }
  split; [exact Hk1|]. split; [lia|].
  split. { split; [lia|]. by rewrite Hcache2. }
  split; [|intros _; exact Hurl].
  intros Hrel. split; [apply Hone1, Hrel|].
  rewrite Hone2; [lia | apply Hrel].
Qed.

Lemma truthy_dict (d : gmap string pyval) : d <> ∅ -> truthy (PDict d) = true.
Proof.
  intros Hd. simpl. destruct (map_to_list d) eqn:Hl; [|done].
  apply map_to_list_empty_iff in Hl. done.
Qed.

(** C3. After the geocoding call has delivered [v1]: a missing or falsy
    answer, or a status field different from ["200"], raises the
    region-lookup error; but an answer without the status field raises
    [KeyError], and an answer with status ["200"] and an empty location
    list raises [IndexError]. *)
Theorem get_weather_lookup_failure_kinds (key region : string) (W : world)
    (s s1 : state) (v1 : pyval) :
  cache s !! region = None ->
  get_with_retry (location_url key region) 3 W s = (Return v1, s1) ->
  (lookup_failed v1 = Return true ->
     get_weather key region W s = (Raise region_lookup_error, s1))
  /\ (forall d : gmap string pyval,
        v1 = PDict d -> d <> ∅ -> d !! "code" = None ->
        get_weather key region W s = (Raise (key_error "code"), s1))
  /\ (forall d : gmap string pyval,
        v1 = PDict d -> d !! "code" = Some (PStr "200") ->
        d !! "location" = Some (PList []) ->
        get_weather key region W s
        = (Raise (Exn IndexError "list index out of range"), s1)).
Proof.
  intros Hc Hrun.
  assert (Hstart : get_weather key region W s
    = bind (lift (lookup_failed v1)) (fun failed : bool =>
        if failed then raise region_lookup_error
        else
          let* location_id := lift (location_id_of v1) in
          let* W := ask in
          let* weather_data :=
            get_with_retry (weather_url key (py_str W location_id)) 3 in
          let* failed := lift (lookup_failed weather_data) in
          if failed : bool then raise weather_lookup_error
          else
            let* result := lift (snapshot_of W weather_data) in
            let* s' := get_state in
            set_cache (<[region := result]> (cache s')) ;;
            ret result) W s1).
  { unfold get_weather. unfold bind at 1. simpl. rewrite Hc.
    unfold bind at 1. rewrite Hrun. done. }
  rewrite Hstart. clear Hstart. unfold bind at 1, lift at 1.
  split; [|split].
  - intros ->. done.
  - intros d -> Hne Hcode. unfold lookup_failed.
    rewrite truthy_dict by done. simpl. rewrite Hcode. done.
  - intros d -> Hcode Hloc. unfold lookup_failed.
    assert (d <> ∅) by (intros ->; by rewrite lookup_empty in Hcode).
    rewrite truthy_dict by done. simpl. rewrite Hcode. simpl.
    unfold bind at 1, lift at 1. unfold location_id_of. simpl.
    rewrite Hloc. done.
Qed.

(** The two answers above, met on a first query: the first raises
    [KeyError], the second [IndexError]. *)
Lemma get_weather_lookup_failure_kinds_witness :
  (get_weather "K" "Beijing"
     (scripted_world [HttpResponse (Some geocoding_no_code)] noon_2024_03_15)
     initial_state).1 = Raise (key_error "code")
  /\ (get_weather "K" "Beijing"
        (scripted_world [HttpResponse (Some geocoding_no_location)] noon_2024_03_15)
        initial_state).1 = Raise (Exn IndexError "list index out of range").
Proof.
  split.
  - pose proof (get_weather_lookup_failure_kinds "K" "Beijing"
      (scripted_world [HttpResponse (Some geocoding_no_code)] noon_2024_03_15)
      initial_state
      (get_with_retry (location_url "K" "Beijing") 3
         (scripted_world [HttpResponse (Some geocoding_no_code)] noon_2024_03_15)
         initial_state).2
      geocoding_no_code eq_refl eq_refl) as (_ & Hkey & _).
    rewrite (Hkey _ eq_refl); [reflexivity | | reflexivity].
    intros Hempty. apply (f_equal (fun m => m !! "location")) in Hempty.
    vm_compute in Hempty. discriminate Hempty.
  - pose proof (get_weather_lookup_failure_kinds "K" "Beijing"
      (scripted_world [HttpResponse (Some geocoding_no_location)] noon_2024_03_15)
      initial_state
      (get_with_retry (location_url "K" "Beijing") 3
         (scripted_world [HttpResponse (Some geocoding_no_location)] noon_2024_03_15)
         initial_state).2
      geocoding_no_location eq_refl eq_refl) as (_ & _ & Hidx).
    rewrite (Hidx _ eq_refl eq_refl eq_refl). reflexivity.
Defined.

(** A first query need not issue two calls: with one failed attempt it
    issues three. *)
Lemma get_weather_two_calls_counterexample :
  ~ (forall (key region : string) (W : world) (s : state),
       cache s !! region = None ->
       length (requests (get_weather key region W s).2)
       = (length (requests s) + 2)%nat).
Proof.
  intros Hclaim.
  specialize (Hclaim "K" "Beijing"
    (scripted_world [TransportFailure "timeout"; HttpResponse (Some geocoding_ok);
                     HttpResponse (Some weather_ok)] noon_2024_03_15)
    initial_state eq_refl).
  vm_compute in Hclaim. discriminate Hclaim.
Qed.

Example get_weather_retry_three_calls :
  let r := get_weather "K" "Beijing"
             (scripted_world [TransportFailure "timeout";
                              HttpResponse (Some geocoding_ok);
                              HttpResponse (Some weather_ok)] noon_2024_03_15)
             initial_state in
  r.1 = Return (PStr "Sunny", "21°C", PStr "NE")
  /\ length (requests r.2) = 3%nat.
Proof. split; reflexivity. Qed.

Example get_weather_unknown_region_one_call :
  length (requests (get_weather "K" "Atlantis"
    (scripted_world [HttpResponse (Some (dict [("code", PStr "404")]))]
       noon_2024_03_15) initial_state).2) = 1%nat.
Proof. reflexivity. Qed.

(** Whatever the query, an entry already in the cache is still there,
    unchanged, afterwards. *)
Lemma get_weather_keeps_entries (key region : string) (W : world) (s : state)
    (r : string) (snap : snapshot) :
  cache s !! r = Some snap ->
  cache (get_weather key region W s).2 !! r = Some snap.
Proof.
  intros Hr.
  destruct (cache s !! region) as [cached|] eqn:Hc.
  - rewrite (get_weather_cached key region W s cached Hc). exact Hr.
  - destruct (get_weather_uncached key region W s Hc)
      as (k1 & k2 & wurl & res & s' & Hrun & _ & _ & _ & Hres & _).
    rewrite Hrun. simpl. destruct res as [new|e].
    + destruct Hres as [_ ->]. rewrite lookup_insert_ne; [exact Hr|].
      intros ->. congruence.
    + by rewrite Hres.
Qed.

(* ================================================================== *)
(** * Properties of [WeChatService] *)
(* ================================================================== *)

(** ** Running a computation step by step *)

Lemma bind_ret {A B} (a : A) (f : A -> M B) W s : bind (ret a) f W s = f a W s.
Proof. reflexivity. Qed.

Lemma bind_lift {A B} (o : outcome A) (f : A -> M B) W s :
  bind (lift o) f W s
  = match o with Return a => f a W s | Raise e => (Raise e, s) end.
Proof. by destruct o. Qed.

Lemma bind_ask {B} (f : world -> M B) W s : bind ask f W s = f W W s.
Proof. reflexivity. Qed.

Lemma bind_get_state {B} (f : state -> M B) W s : bind get_state f W s = f s W s.
Proof. reflexivity. Qed.

Lemma bind_logging {B} lvl msg (f : unit -> M B) W s :
  bind (logging lvl msg) f W s
  = f tt W (State (requests s) (clock_reads s) (rand_draws s)
              (log s ++ [(lvl, msg)]) (cache s) (access_token s)
              (token_expire s)).
Proof. reflexivity. Qed.

Lemma bind_set_access_token {B} t (f : unit -> M B) W s :
  bind (set_access_token t) f W s
  = f tt W (State (requests s) (clock_reads s) (rand_draws s) (log s)
              (cache s) t (token_expire s)).
Proof. reflexivity. Qed.

Lemma bind_set_token_expire {B} q (f : unit -> M B) W s :
  bind (set_token_expire q) f W s
  = f tt W (State (requests s) (clock_reads s) (rand_draws s) (log s)
              (cache s) (access_token s) q).
Proof. reflexivity. Qed.

Lemma bind_datetime_now {B} (f : instant -> M B) W s :
  bind datetime_now f W s
  = f (clock_oracle W (clock_reads s)) W (after_clock_read s).
Proof. reflexivity. Qed.

Lemma bind_requests_get {B} url (f : option pyval -> M B) W s :
  bind (requests_get url) f W s
  = let s' := State (requests s ++ [GET url]) (clock_reads s) (rand_draws s)
                (log s) (cache s) (access_token s) (token_expire s) in
    match http_oracle W (length (requests s)) (GET url) with
    | TransportFailure msg => (Raise (Exn RequestException msg), s')
    | HttpResponse body => f body W s'
    end.
Proof.
  unfold bind, requests_get. by destruct (http_oracle W _ _).
Qed.

Lemma bind_requests_post {B} url body (f : option pyval -> M B) W s :
  bind (requests_post url body) f W s
  = let s' := State (requests s ++ [POST url body]) (clock_reads s)
                (rand_draws s) (log s) (cache s) (access_token s)
                (token_expire s) in
    match http_oracle W (length (requests s)) (POST url body) with
    | TransportFailure msg => (Raise (Exn RequestException msg), s')
    | HttpResponse b => f b W s'
    end.
Proof.
  unfold bind, requests_post. by destruct (http_oracle W _ _).
Qed.

Lemma bind_response_json {B} body (f : pyval -> M B) W s :
  bind (response_json body) f W s
  = match body with
    | Some v => f v W s
    | None => (Raise (Exn JSONDecodeError
                        "Expecting value: line 1 column 1 (char 0)"), s)
    end.
Proof. by destruct body. Qed.

Lemma get_access_token_cached (a b : string) (W : world) (s : state) :
  float_lt (timestamp (clock_oracle W (clock_reads s))) (token_expire s) = true ->
  get_access_token a b W s = (Return (access_token s), after_clock_read s).
Proof.
  intros Hlt.
  unfold get_access_token. rewrite bind_datetime_now, bind_get_state.
  cbn [token_expire after_clock_read]. rewrite Hlt. done.
Qed.

Lemma get_access_token_stale (a b : string) (W : world) (s : state) :
  float_lt (timestamp (clock_oracle W (clock_reads s))) (token_expire s) = false ->
  get_access_token a b W s = refresh a b W (after_clock_read s).
Proof.
  intros Hge.
  unfold get_access_token. rewrite bind_datetime_now, bind_get_state.
  cbn [token_expire after_clock_read]. rewrite Hge. done.
Qed.

Lemma refresh_one_request (a b : string) (W : world) (s : state) :
  requests (refresh a b W s).2 = requests s ++ [GET (token_url a b)].
Proof.
  unfold refresh. rewrite bind_requests_get. cbv zeta.
  destruct (http_oracle W _ _) as [msg|body]; [done|].
  rewrite bind_response_json. destruct body as [v|]; [|done].
  rewrite bind_lift.
  destruct (contains_key v "access_token") as [[|]|e]; [|done|done].
  cbn [negb]. rewrite bind_lift.
  destruct (getitem_key v "access_token") as [tok|e]; [|done].
  rewrite bind_set_access_token, bind_datetime_now, bind_lift.
  destruct (getitem_key v "expires_in") as [ex|e]; [|done].
  rewrite bind_lift. destruct (to_number ex) as [q|e]; done.
Qed.

Lemma refresh_success (a b : string) (W : world) (s : state)
    (d : gmap string pyval) (tok e : pyval) (secs : float) :
  http_oracle W (length (requests s)) (GET (token_url a b))
  = HttpResponse (Some (PDict d)) ->
  d !! "access_token" = Some tok ->
  d !! "expires_in" = Some e ->
  to_number e = Return secs ->
  refresh a b W s
  = (Return tok,
     State (requests s ++ [GET (token_url a b)]) (S (clock_reads s))
           (rand_draws s) (log s) (cache s) tok
           (float_sub
              (float_add (timestamp (clock_oracle W (clock_reads s))) secs)
              (float_of_Z 300))).
Proof.
  intros Hcall Htok Hexp Hnum.
  unfold refresh. rewrite bind_requests_get, Hcall. cbv zeta.
  rewrite bind_response_json, bind_lift. cbn [contains_key].
  rewrite bool_decide_eq_true_2 by (rewrite Htok; eauto). cbn [negb].
  rewrite bind_lift. cbn [getitem_key]. rewrite Htok.
  rewrite bind_set_access_token, bind_datetime_now, bind_lift.
  cbn [getitem_key]. rewrite Hexp, bind_lift, Hnum.
  rewrite bind_set_token_expire, bind_get_state. reflexivity.
Qed.

(** Whenever the refresh returns, it has stored the token it returns and an
    expiry computed in floating point from the clock reading taken after
    the answer, the number under [expires_in], and the margin of 300
    seconds. *)
Lemma refresh_returns (a b : string) (W : world) (s : state)
    (tok : pyval) (s' : state) :
  refresh a b W s = (Return tok, s') ->
  exists (d : gmap string pyval) (e : pyval) (secs : float),
    http_oracle W (length (requests s)) (GET (token_url a b))
    = HttpResponse (Some (PDict d))
    /\ d !! "access_token" = Some tok
    /\ d !! "expires_in" = Some e
    /\ to_number e = Return secs
    /\ access_token s' = tok
    /\ token_expire s'
       = float_sub
           (float_add (timestamp (clock_oracle W (clock_reads s))) secs)
           (float_of_Z 300).
Proof.
  unfold refresh. rewrite bind_requests_get. cbv zeta.
  destruct (http_oracle W _ _) as [msg|body] eqn:Hcall; [done|].
  rewrite bind_response_json. destruct body as [v|]; [|done].
  rewrite bind_lift.
  destruct (contains_key v "access_token") as [[|]|err] eqn:Hin; [|done|done].
  cbn [negb]. rewrite bind_lift.
  destruct (getitem_key v "access_token") as [t|err] eqn:Htok; [|done].
  rewrite bind_set_access_token, bind_datetime_now, bind_lift.
  destruct (getitem_key v "expires_in") as [e|err] eqn:Hexp; [|done].
  rewrite bind_lift. destruct (to_number e) as [secs|err] eqn:Hnum; [|done].
  rewrite bind_set_token_expire, bind_get_state.
  intros [= <- <-]. cbn.
  destruct v as [| | | | |l|d]; cbn in Htok, Hexp; try done.
  exists d, e, secs.
  destruct (d !! "access_token") as [t'|] eqn:Ht; [|done].
  destruct (d !! "expires_in") as [e'|] eqn:He; [|done].
  simplify_eq. done.
Qed.

(** An integer lifetime beyond the range of floats: the conversion raises
    [OverflowError] once the token is stored, and the expiry is kept. *)
Lemma refresh_overflow (a b : string) (W : world) (s : state)
    (d : gmap string pyval) (tok : pyval) (z : Z) :
  http_oracle W (length (requests s)) (GET (token_url a b))
  = HttpResponse (Some (PDict d)) ->
  d !! "access_token" = Some tok ->
  d !! "expires_in" = Some (PInt z) ->
  int_to_float z = Raise overflow_error ->
  refresh a b W s
  = (Raise overflow_error,
     State (requests s ++ [GET (token_url a b)]) (S (clock_reads s))
           (rand_draws s) (log s) (cache s) tok (token_expire s)).
Proof.
  intros Hcall Htok Hexp Hnum.
  unfold refresh. rewrite bind_requests_get, Hcall. cbv zeta.
  rewrite bind_response_json, bind_lift. cbn [contains_key].
  rewrite bool_decide_eq_true_2 by (rewrite Htok; eauto). cbn [negb].
  rewrite bind_lift. cbn [getitem_key]. rewrite Htok.
  rewrite bind_set_access_token, bind_datetime_now, bind_lift.
  cbn [getitem_key]. rewrite Hexp, bind_lift. cbn [to_number].
  rewrite Hnum. reflexivity.
Qed.

(** The claim that the stored expiry always lies the margin before the end
    of the token's life fails in floating point: with a lifetime of
    [10^30] seconds the subtraction of 300 is absorbed by rounding, and
    the stored expiry is [now + expires_in] itself. *)
Lemma get_access_token_margin_counterexample :
  ~ (forall (a b : string) (W : world) (s : state) (tok : pyval) (s' : state),
       float_lt (timestamp (clock_oracle W (clock_reads s))) (token_expire s)
       = false ->
       get_access_token a b W s = (Return tok, s') ->
       exists (d : gmap string pyval) (e : pyval) (secs : float),
         http_oracle W (length (requests s)) (GET (token_url a b))
         = HttpResponse (Some (PDict d))
         /\ d !! "expires_in" = Some e
         /\ to_number e = Return secs
         /\ float_lt (token_expire s')
              (float_add (timestamp (clock_oracle W (S (clock_reads s)))) secs)
            = true).
Proof.
  intros Hclaim.
  set (W := scripted_world
              [HttpResponse (Some (dict [("access_token", PStr "TOKEN");
                                         ("expires_in", PInt (10 ^ 30))]))]
              noon_2024_03_15).
  assert (Hstale : float_lt (timestamp (clock_oracle W (clock_reads initial_state)))
                     (token_expire initial_state) = false)
    by (vm_compute; reflexivity).
  assert (Hrun : get_access_token "A" "S" W initial_state
                 = (Return (PStr "TOKEN"),
                    (get_access_token "A" "S" W initial_state).2))
    by (vm_compute; reflexivity).
  destruct (Hclaim "A" "S" W initial_state (PStr "TOKEN") _ Hstale Hrun)
    as (d & e & secs & Hcall & Hexp & Hnum & Hlt).
  injection Hcall as <-.
  vm_compute in Hexp. injection Hexp as <-.
  vm_compute in Hnum. injection Hnum as <-.
  vm_compute in Hlt. discriminate Hlt.
Qed.

(** C5 (amended). With [now] the clock reading taken on entry: when [now]
    is strictly below the stored expiry the cached token is returned and
    no request is issued; otherwise exactly one request, to the token
    endpoint, is issued.  Every refresh that returns has stored the token
    it returns, and the expiry [(now' + expires_in) - 300] computed in
    double precision, left to right, from the clock reading [now'] taken
    after the answer; an answer carrying both fields, with a lifetime that
    float addition accepts, does make the refresh return; and an integer
    lifetime too large for a float makes it raise [OverflowError] with the
    new token stored and the old expiry kept.  This is the behaviour of one
    call run without interruption. *)
Theorem get_access_token_cache (a b : string) (W : world) (s : state) :
  let now := timestamp (clock_oracle W (clock_reads s)) in
  let now' := timestamp (clock_oracle W (S (clock_reads s))) in
  (float_lt now (token_expire s) = true ->
     get_access_token a b W s = (Return (access_token s), after_clock_read s)
     /\ requests (get_access_token a b W s).2 = requests s)
  /\ (float_lt now (token_expire s) = false ->
      requests (get_access_token a b W s).2
      = requests s ++ [GET (token_url a b)])
  /\ (float_lt now (token_expire s) = false ->
      forall tok s', get_access_token a b W s = (Return tok, s') ->
      exists (d : gmap string pyval) (e : pyval) (secs : float),
        http_oracle W (length (requests s)) (GET (token_url a b))
        = HttpResponse (Some (PDict d))
        /\ d !! "access_token" = Some tok
        /\ d !! "expires_in" = Some e
        /\ to_number e = Return secs
        /\ access_token s' = tok
        /\ token_expire s'
           = float_sub (float_add now' secs) (float_of_Z 300))
  /\ (float_lt now (token_expire s) = false ->
      forall (d : gmap string pyval) (tok e : pyval) (secs : float),
        http_oracle W (length (requests s)) (GET (token_url a b))
        = HttpResponse (Some (PDict d)) ->
        d !! "access_token" = Some tok ->
        d !! "expires_in" = Some e ->
        to_number e = Return secs ->
        exists s', get_access_token a b W s = (Return tok, s')
                   /\ access_token s' = tok
                   /\ token_expire s'
                      = float_sub (float_add now' secs) (float_of_Z 300))
  /\ (float_lt now (token_expire s) = false ->
      forall (d : gmap string pyval) (tok : pyval) (z : Z),
        http_oracle W (length (requests s)) (GET (token_url a b))
        = HttpResponse (Some (PDict d)) ->
        d !! "access_token" = Some tok ->
        d !! "expires_in" = Some (PInt z) ->
        int_to_float z = Raise overflow_error ->
        exists s', get_access_token a b W s = (Raise overflow_error, s')
                   /\ access_token s' = tok
                   /\ token_expire s' = token_expire s).
Proof.
  cbv zeta. split; [|split; [|split; [|split]]].
  - intros Hlt. rewrite (get_access_token_cached a b W s Hlt). done.
  - intros Hge. rewrite (get_access_token_stale a b W s Hge).
    exact (refresh_one_request a b W (after_clock_read s)).
  - intros Hge tok s'. rewrite (get_access_token_stale a b W s Hge).
    intros Hret. exact (refresh_returns a b W (after_clock_read s) tok s' Hret).
  - intros Hge d tok e secs Hcall Htok Hexp Hnum.
    rewrite (get_access_token_stale a b W s Hge).
    rewrite (refresh_success a b W (after_clock_read s) d tok e secs
               Hcall Htok Hexp Hnum).
    eexists. split; [reflexivity|]. done.
  - intros Hge d tok z Hcall Htok Hexp Hnum.
    rewrite (get_access_token_stale a b W s Hge).
    rewrite (refresh_overflow a b W (after_clock_read s) d tok z
               Hcall Htok Hexp Hnum).
    eexists. split; [reflexivity|]. done.
Qed.

(** A stale cache (the initial state) refreshed by an answer with
    [expires_in = 7200]: the expiry stored is [now + 7200 - 300], here
    without rounding. *)
Lemma get_access_token_cache_witness :
  float_lt (timestamp noon_2024_03_15) (token_expire initial_state) = false /\
  exists s',
    get_access_token "A" "S"
      (scripted_world [HttpResponse (Some token_ok)] noon_2024_03_15)
      initial_state = (Return (PStr "TOKEN"), s')
    /\ access_token s' = PStr "TOKEN"
    /\ token_expire s' = float_of_Z (1710475200 + 7200 - 300).
Proof.
  assert (Hstale : float_lt (timestamp noon_2024_03_15)
                     (token_expire initial_state) = false)
    by (vm_compute; reflexivity).
  split; [exact Hstale|].
  destruct (get_access_token_cache "A" "S"
              (scripted_world [HttpResponse (Some token_ok)] noon_2024_03_15)
              initial_state) as (_ & _ & _ & Hfresh & _).
  destruct (Hfresh Hstale (list_to_map [("access_token", PStr "TOKEN");
                                        ("expires_in", PInt 7200)])
              (PStr "TOKEN") (PInt 7200) (float_of_Z 7200))
    as (s' & Hrun & Htok & Hexp); try (vm_compute; reflexivity).
  exists s'. split; [exact Hrun|]. split; [exact Htok|].
  rewrite Hexp. vm_compute. reflexivity.
Defined.

(** A lifetime of 7200.1 seconds: the expiry stored is the sum at noon of
    2024-03-15 rounded to the nearest float, 1710482100.1 up to [2^-22]. *)
Example get_access_token_rounded_expiry :
  token_expire
    (get_access_token "A" "S"
       (scripted_world
          [HttpResponse
             (Some (dict [("access_token", PStr "TOKEN");
                          ("expires_in",
                           PFloat (S754_finite false 7916593671149978 (-40)))]))]
          noon_2024_03_15)
       initial_state).2
  = S754_finite false 7174281914377830 (-22).
Proof. vm_compute. reflexivity. Qed.

(** A lifetime of [2^1024] seconds is an integer that no float holds. *)
Example get_access_token_overflow :
  (get_access_token "A" "S"
     (scripted_world
        [HttpResponse (Some (dict [("access_token", PStr "TOKEN");
                                   ("expires_in", PInt (2 ^ 1024))]))]
        noon_2024_03_15)
     initial_state).1 = Raise overflow_error.
Proof. vm_compute. reflexivity. Qed.

Example get_access_token_second_call_is_cached :
  let W := scripted_world [HttpResponse (Some token_ok)] noon_2024_03_15 in
  let s1 := (get_access_token "A" "S" W initial_state).2 in
  (get_access_token "A" "S" W s1).1 = Return (PStr "TOKEN")
  /\ requests (get_access_token "A" "S" W s1).2 = requests s1.
Proof. split; reflexivity. Qed.

(** ** [send_template_message] *)

Lemma float_eq_int_zero (x : float) :
  float_eq_int x 0 = true <-> exists sign, x = S754_zero sign.
Proof.
  destruct x as [sign|sign| |sign m e]; cbn [float_eq_int].
  - split; [eauto|done].
  - split; [done|]. by intros [? ?].
  - split; [done|]. by intros [? ?].
  - split; [|by intros [? ?]]. intros H. exfalso.
    destruct (0 <=? e) eqn:He.
    + apply Z.leb_le in He. apply Z.eqb_eq in H.
      pose proof (Z.pow_pos_nonneg 2 e ltac:(lia) He).
      destruct sign; nia.
    + apply Z.eqb_eq in H. destruct sign; lia.
Qed.

Lemma eq_int_zero (v : pyval) :
  eq_int v 0 = true
  <-> v = PInt 0 \/ v = PBool false
      \/ exists sign, v = PFloat (S754_zero sign).
Proof.
  destruct v as [|[|]|z|x| | |]; cbn [eq_int]; split;
    try (intros H; discriminate H);
    try (intros [H|[H|(sign & H)]]; discriminate H).
  - intros _. right. by left.
  - done.
  - intros Hz. left. f_equal. lia.
  - intros [[= ->]|[H|(sign & H)]]; done.
  - intros Hx. right. right. apply float_eq_int_zero in Hx as [sign ->]. eauto.
  - intros [H|[H|(sign & [= ->])]]; try discriminate H. done.
Qed.

(** What [send_template_message] returns, by the answer to its POST. *)
Lemma send_template_message_result (a b u : string) (td : template_message)
    (W : world) (s : state) :
  (send_template_message a b u td W s).1
  = match get_access_token a b W s with
    | (Return token, s1) =>
        match http_oracle W (length (requests s1))
                (POST (send_url (py_str W token)) td) with
        | TransportFailure msg => Raise (Exn RequestException msg)
        | HttpResponse None =>
            Raise (Exn JSONDecodeError "Expecting value: line 1 column 1 (char 0)")
        | HttpResponse (Some v) =>
            obind (dict_get v "errcode") (fun code => Return (eq_int code 0))
        end
    | (Raise e, _) => Raise e
    end.
Proof.
  unfold send_template_message. unfold bind at 1.
  destruct (get_access_token a b W s) as [[token|e] s1]; [|done].
  rewrite bind_ask, bind_requests_post. cbv zeta.
  destruct (http_oracle W _ _) as [msg|body]; [done|].
  rewrite bind_response_json. destruct body as [v|]; [|done].
  rewrite bind_lift. destruct (dict_get v "errcode") as [code|e]; [|done].
  cbn [obind]. destruct (eq_int code 0); done.
Qed.

(** The claim that only the integer 0 counts as success fails: the JSON
    value [false] compares equal to 0. *)
Lemma send_template_message_integer_zero_counterexample :
  ~ (forall (a b u : string) (td : template_message) (W : world) (s : state),
       (send_template_message a b u td W s).1 = Return true ->
       exists d : gmap string pyval,
         send_response a b td W s = Some (PDict d)
         /\ d !! "errcode" = Some (PInt 0)).
Proof.
  intros Hclaim.
  destruct (Hclaim "A" "S" "alice" sample_message
    (scripted_world [HttpResponse (Some token_ok);
                     HttpResponse (Some (dict [("errcode", PBool false)]))]
       noon_2024_03_15)
    initial_state eq_refl) as (d & Hresp & Hcode).
  vm_compute in Hresp. injection Hresp as <-.
  vm_compute in Hcode. discriminate Hcode.
Qed.

(** C10 (amended). When the JSON object answering the POST has no
    ["errcode"] key, [send_template_message] returns [False].  It returns
    [True] exactly when the answer is a JSON object whose ["errcode"]
    compares equal to 0: the integer 0, the value [false], or a float equal
    to zero. *)
Theorem send_template_message_errcode (a b u : string) (td : template_message)
    (W : world) (s : state) :
  (forall d : gmap string pyval,
     send_response a b td W s = Some (PDict d) -> d !! "errcode" = None ->
     (send_template_message a b u td W s).1 = Return false)
  /\ ((send_template_message a b u td W s).1 = Return true
      <-> exists (d : gmap string pyval) (code : pyval),
            send_response a b td W s = Some (PDict d)
            /\ d !! "errcode" = Some code
            /\ (code = PInt 0 \/ code = PBool false
                \/ exists sign, code = PFloat (S754_zero sign))).
Proof.
  rewrite send_template_message_result. unfold send_response.
  destruct (get_access_token a b W s) as [[token|e] s1].
  2:{ split; [done|]. split; [done|]. by intros (d & code & H & _). }
  destruct (http_oracle W _ _) as [msg|[v|]].
  1:{ split; [done|]. split; [done|]. by intros (d & code & H & _). }
  2:{ split; [done|]. split; [done|]. by intros (d & code & H & _). }
  split.
  - intros d [= ->] Hnone. cbn. rewrite Hnone. done.
  - split.
    + destruct v as [| | | | | |d]; cbn; try done.
      destruct (d !! "errcode") as [code|] eqn:Hcode; cbn.
      * intros [= Hz]. exists d, code. split; [done|]. split; [done|].
        by apply eq_int_zero.
      * done.
    + intros (d & code & [= ->] & Hcode & Hzero). cbn. rewrite Hcode. cbn.
      f_equal. by apply eq_int_zero.
Qed.

(** An answer without ["errcode"] counts as a failure. *)
Lemma send_template_message_errcode_witness :
  (send_template_message "A" "S" "alice" sample_message
     (scripted_world [HttpResponse (Some token_ok);
                      HttpResponse (Some (dict [("errmsg", PStr "ok")]))]
        noon_2024_03_15)
     initial_state).1 = Return false.
Proof.
  destruct (send_template_message_errcode "A" "S" "alice" sample_message
    (scripted_world [HttpResponse (Some token_ok);
                     HttpResponse (Some (dict [("errmsg", PStr "ok")]))]
       noon_2024_03_15)
    initial_state) as (Hmissing & _).
  apply (Hmissing (list_to_map [("errmsg", PStr "ok")])); reflexivity.
Defined.

(* ================================================================== *)
(** * Properties of the birthday computation *)
(* ================================================================== *)

Lemma make_date_return (y m d : Z) (x : date) :
  make_date y m d = Return x -> x = Date y m d /\ valid_ymd y m d = true.
Proof.
  unfold make_date. destruct (valid_ymd y m d); [|done]. by intros [= <-].
Qed.

Lemma date_lt_next_year (y m d : Z) (today : date) :
  year today = y -> date_lt (Date (y + 1) m d) today = false.
Proof.
  intros <-. unfold date_lt. simpl.
  replace (year today + 1 <? year today) with false by (symmetry; lia).
  replace (year today + 1 =? year today) with false by (symmetry; lia).
  done.
Qed.

(** The next occurrence keeps the month and the day of the birth date, is
    not before today, and falls in today's year unless that occurrence is
    already past. *)
Lemma next_birthday_return (birth today next : date) :
  next_birthday birth today = Return next ->
  month next = month birth /\ day next = day birth
  /\ date_lt next today = false
  /\ ((year next = year today
       /\ date_lt (Date (year today) (month birth) (day birth)) today = false)
      \/ (year next = year today + 1
          /\ date_lt (Date (year today) (month birth) (day birth)) today = true)).
Proof.
  unfold next_birthday, replace_year.
  destruct (make_date (year today) (month birth) (day birth)) as [c|e] eqn:Hc;
    [|done].
  apply make_date_return in Hc as [-> _]. cbn [obind year month day].
  destruct (date_lt (Date (year today) (month birth) (day birth)) today) eqn:Hlt.
  - intros Hn. apply make_date_return in Hn as [-> _]. cbn.
    split; [done|]. split; [done|].
    split; [by apply date_lt_next_year|]. right. done.
  - intros [= <-]. cbn. split; [done|]. split; [done|]. split; [done|].
    left. done.
Qed.

Lemma days_in_month_other_year (y y' m d : Z) :
  ~ (m = 2 /\ d = 29) -> d <= days_in_month y m -> d <= days_in_month y' m.
Proof.
  intros Hfeb. unfold days_in_month.
  destruct m as [|p|p]; [lia| |lia].
  do 4 (try destruct p as [p|p|]); try lia;
    destruct (is_leap y), (is_leap y'); lia.
Qed.

(** Unless the birth date is a 29th of February, the next occurrence
    exists. *)
Lemma next_birthday_total (birth today : date) :
  valid_date birth = true -> valid_date today = true -> year today < 9999 ->
  ~ (month birth = 2 /\ day birth = 29) ->
  exists next, next_birthday birth today = Return next.
Proof.
  unfold valid_date, valid_ymd. intros Hb Ht Hy Hfeb.
  repeat (apply andb_prop in Hb as [Hb ?]).
  repeat (apply andb_prop in Ht as [Ht ?]).
  assert (Hv : forall y, 1 <= y <= 9999 ->
            valid_ymd y (month birth) (day birth) = true).
  { intros y Hy'. unfold valid_ymd.
    pose proof (days_in_month_other_year (year birth) y (month birth)
                  (day birth) Hfeb) as Hd.
    repeat (apply andb_true_intro; split); lia. }
  unfold next_birthday, replace_year, make_date.
  rewrite Hv by lia. cbn [obind month day].
  destruct (date_lt _ today); [|eauto].
  rewrite Hv by lia. eauto.
Qed.

(** C7. The next occurrence is the birth date with its year replaced by
    today's year, moved to the following year when that date precedes
    today; it keeps the month and day of the birth date, is not before
    today, and exists whenever the birth date is not a 29th of February.
    For the birth date 1990-03-15: on 2024-03-15 the day count is 0
    and the status is the birthday literal; on 2024-03-16 the next
    occurrence is 2025-03-15. *)
Theorem next_birthday_occurrence (W : world) :
  (forall birth today candidate,
     replace_year birth (year today) = Return candidate ->
     next_birthday birth today
     = if date_lt candidate today then replace_year candidate (year today + 1)
       else Return candidate)
  /\ (forall birth today next,
        next_birthday birth today = Return next ->
        month next = month birth /\ day next = day birth
        /\ date_lt next today = false
        /\ (year next = year today \/ year next = year today + 1))
  /\ (forall birth today,
        valid_date birth = true -> valid_date today = true ->
        year today < 9999 -> ~ (month birth = 2 /\ day birth = 29) ->
        exists next, next_birthday birth today = Return next)
  /\ (forall name,
        birthday_days W (Date 2024 3 15) (Entry name "1990-03-15") = Return 0
        /\ birthday_status 0 = birthday_today
        /\ birthday_text W (Date 2024 3 15) (Entry name "1990-03-15")
           = Return (name +:+ "生日" +:+ birthday_today))
  /\ obind (parse_date W "1990-03-15")
       (fun birth => next_birthday birth (Date 2024 3 16))
     = Return (Date 2025 3 15).
Proof.
  split; [|split; [|split; [|split]]].
  - intros birth today candidate Hc. unfold next_birthday. by rewrite Hc.
  - intros birth today next Hn.
    destruct (next_birthday_return birth today next Hn)
      as (Hm & Hd & Hlt & [[Hy _]|[Hy _]]); auto.
  - apply next_birthday_total.
  - intros name. repeat split; reflexivity.
  - reflexivity.
Qed.

(** The two dated cases, and a later birthday in the same year. *)
Lemma next_birthday_occurrence_witness :
  next_birthday (Date 1990 3 15) (Date 2024 3 15) = Return (Date 2024 3 15)
  /\ next_birthday (Date 1990 3 15) (Date 2024 3 16) = Return (Date 2025 3 15)
  /\ next_birthday (Date 1990 12 25) (Date 2024 3 16) = Return (Date 2024 12 25).
Proof.
  destruct (next_birthday_occurrence (scripted_world [] noon_2024_03_15))
    as (Hdef & _).
  split; [|split].
  - rewrite (Hdef (Date 1990 3 15) (Date 2024 3 15) (Date 2024 3 15) eq_refl).
    reflexivity.
  - rewrite (Hdef (Date 1990 3 15) (Date 2024 3 16) (Date 2024 3 15) eq_refl).
    reflexivity.
  - rewrite (Hdef (Date 1990 12 25) (Date 2024 3 16) (Date 2024 12 25) eq_refl).
    reflexivity.
Defined.

Example leap_day_birthday_raises :
  is_return (next_birthday (Date 2000 2 29) (Date 2023 6 1)) = false.
Proof. reflexivity. Qed.

Example days_between_2020_2024 :
  calculate_days (Date 2020 1 1) (Date 2024 1 1) = 1461.
Proof. reflexivity. Qed.

(* ================================================================== *)
(** * Properties of [generate_message_data] *)
(* ================================================================== *)

Lemma bind_get_color {B} (f : string -> M B) W s :
  bind get_color f W s
  = f ("#" +:+ hex6 (rand_oracle W (rand_draws s) mod 16777216)) W
      (State (requests s) (clock_reads s) (S (rand_draws s)) (log s)
         (cache s) (access_token s) (token_expire s)).
Proof. reflexivity. Qed.

Lemma entry_key_inj (prefix : string) (i j : nat) :
  entry_key prefix i = entry_key prefix j -> i = j.
Proof.
  unfold entry_key, str_int. intros H.
  apply (inj (String.app prefix)) in H. apply (inj pretty) in H. lia.
Qed.

(** ** The loops over configured entries *)

Lemma entries_loop_returns (prefix : string)
    (text : world -> entry -> outcome string) (entries : list entry) :
  forall (idx : nat) (acc : gmap string field_entry) (W : world) (s : state),
  all_texts_ok (text W) entries ->
  exists m s',
    entries_loop prefix text idx entries acc W s = (Return m, s')
    /\ (forall k : string,
          (forall i, (i < length entries)%nat -> k <> entry_key prefix (idx + i)) ->
          m !! k = acc !! k)
    /\ (forall i e, entries !! i = Some e ->
          exists v c, text W e = Return v
                      /\ m !! entry_key prefix (idx + i) = Some (Field (PStr v) c)).
Proof.
  induction entries as [|e rest IH]; intros idx acc W s Hok.
  - exists acc, s. split; [done|]. split; [done|]. intros i e Hi. done.
  - apply Forall_cons in Hok as [He Hrest].
    cbn [entries_loop]. rewrite bind_ask, bind_lift.
    destruct (text W e) as [v|err] eqn:Hv; [|done].
    rewrite bind_get_color.
    match goal with |- context [entries_loop _ _ _ _ ?acc' W ?st] =>
      destruct (IH (S idx) acc' W st Hrest) as (m & s' & Hrun & Hother & Hmine)
    end.
    exists m, s'. split; [exact Hrun|]. split.
    + intros k Hk. rewrite Hother.
      * apply lookup_insert_ne. intros Heq. apply (Hk 0%nat); [simpl; lia|].
        rewrite Nat.add_0_r. done.
      * intros i Hi. replace (S idx + i)%nat with (idx + S i)%nat by lia.
        apply Hk. simpl. lia.
    + intros [|i] e' Hi.
      * injection Hi as <-. eexists v, _. split; [done|].
        rewrite Nat.add_0_r. rewrite Hother.
        -- apply lookup_insert_eq.
        -- intros i _ Heq. apply entry_key_inj in Heq. lia.
      * replace (idx + S i)%nat with (S idx + i)%nat by lia.
        apply Hmine. exact Hi.
Qed.

Lemma entries_loop_raises (prefix : string)
    (text : world -> entry -> outcome string) (entries : list entry) :
  forall (idx : nat) (acc : gmap string field_entry) (W : world) (s : state),
  Exists (fun e => is_return (text W e) = false) entries ->
  exists err s', entries_loop prefix text idx entries acc W s = (Raise err, s')
                 /\ Exists (fun e => text W e = Raise err) entries.
Proof.
  induction entries as [|e rest IH]; intros idx acc W s Hbad.
  - by apply Exists_nil in Hbad.
  - cbn [entries_loop]. rewrite bind_ask, bind_lift.
    destruct (text W e) as [v|err] eqn:Hv.
    + apply Exists_cons in Hbad as [Hbad|Hbad]; [by rewrite Hv in Hbad|].
      rewrite bind_get_color.
      match goal with |- context [entries_loop _ _ _ _ ?acc' W ?st] =>
        destruct (IH (S idx) acc' W st Hbad) as (err & s' & Hrun & Hwhich)
      end.
      exists err, s'. split; [exact Hrun|]. by apply Exists_cons_tl.
    + exists err, s. split; [done|]. by apply Exists_cons_hd.
Qed.

(** Keys of the generated name spaces differ from the fixed names and from
    one another. *)
Lemma anniversary_key_not_fixed (i : nat) (k : string) :
  k ∈ ["date"; "region"; "weather"; "temp"; "wind_dir"] ->
  k <> entry_key "anniversary_" i.
Proof.
  intros Hk ->. unfold entry_key in Hk. cbn in Hk.
  repeat (apply elem_of_cons in Hk as [Hk|Hk]; [discriminate Hk|]).
  by apply elem_of_nil in Hk.
Qed.

Lemma birthday_key_not_fixed (i : nat) (k : string) :
  k ∈ ["date"; "region"; "weather"; "temp"; "wind_dir"] ->
  k <> entry_key "birthday_" i.
Proof.
  intros Hk ->. unfold entry_key in Hk. cbn in Hk.
  repeat (apply elem_of_cons in Hk as [Hk|Hk]; [discriminate Hk|]).
  by apply elem_of_nil in Hk.
Qed.

Lemma birthday_key_not_anniversary (i j : nat) :
  entry_key "anniversary_" i <> entry_key "birthday_" j.
Proof. unfold entry_key. cbn. discriminate. Qed.

(** ** The fixed entries *)

Lemma week_day_name (today : date) :
  exists name, list_item week_list (Z.to_nat (weekday today)) = Return name.
Proof.
  unfold weekday.
  pose proof (Z.mod_pos_bound (toordinal today + 6) 7 ltac:(lia)) as Hb.
  assert (Hn : (Z.to_nat ((toordinal today + 6) mod 7) < 7)%nat) by lia.
  destruct (Z.to_nat ((toordinal today + 6) mod 7)) as [|[|[|[|[|[|[|n]]]]]]];
    try lia; cbn; eauto.
Qed.

Lemma base_data_of_returns (today : date) (cfg : config)
    (w : pyval * pyval * pyval) (W : world) (s : state) :
  exists (name c1 c2 c3 c4 c5 : string) (s' : state),
    base_data_of today cfg w W s
    = (Return (<["wind_dir" := Field w.2 c5]>
              (<["temp" := Field w.1.2 c4]>
              (<["weather" := Field w.1.1 c3]>
              (<["region" := Field (PStr (region cfg)) c2]>
              (<["date" := Field (PStr (isoformat today +:+ " " +:+ name)) c1]>
               ∅))))), s')
    /\ log s' = log s /\ requests s' = requests s.
Proof.
  destruct (week_day_name today) as [name Hname].
  unfold base_data_of. rewrite bind_lift, Hname.
  rewrite !bind_get_color.
  eexists name, _, _, _, _, _, _. split; [reflexivity|]. done.
Qed.

Lemma weather_fields_returns (cfg : config) (W : world) (s : state) :
  exists w s', weather_fields cfg W s = (Return w, s').
Proof.
  unfold weather_fields, try_except, bind.
  destruct (get_weather (weather_key cfg) (region cfg) W s) as [[snap|e] s1];
    cbn; eauto.
Qed.

Lemma weather_fields_fallback (cfg : config) (W : world) (s s1 : state) (e : exn) :
  get_weather (weather_key cfg) (region cfg) W s = (Raise e, s1) ->
  exists s', weather_fields cfg W s = (Return unknown_weather, s')
             /\ log s' = log s1 ++ [(ERROR, "天气查询失败: " +:+ exn_msg e)].
Proof.
  intros Hw. unfold weather_fields, try_except, bind. rewrite Hw. cbn. eauto.
Qed.

(** ** The generated entries *)

Lemma generated_entries_returns (cfg : config) (today : date)
    (base : gmap string field_entry) (W : world) (s : state) :
  all_texts_ok (anniversary_text W today) (default [] (anniversaries cfg)) ->
  all_texts_ok (birthday_text W today) (default [] (birthdays cfg)) ->
  exists m s',
    generated_entries cfg today base W s = (Return m, s')
    /\ (forall k : string,
          k ∈ ["date"; "region"; "weather"; "temp"; "wind_dir"] ->
          m !! k = base !! k)
    /\ (forall i a, default [] (anniversaries cfg) !! i = Some a ->
          exists v c, anniversary_text W today a = Return v
            /\ m !! entry_key "anniversary_" i = Some (Field (PStr v) c))
    /\ (forall i b, default [] (birthdays cfg) !! i = Some b ->
          exists v c, birthday_text W today b = Return v
            /\ m !! entry_key "birthday_" i = Some (Field (PStr v) c)).
Proof.
  intros Hanns Hbds. unfold generated_entries.
  destruct (entries_loop_returns "anniversary_"
              (fun W => anniversary_text W today) _ 0%nat ∅ W s Hanns)
    as (ma & sa & Hruna & Hothera & Hminea).
  unfold bind at 1. rewrite Hruna.
  destruct (entries_loop_returns "birthday_"
              (fun W => birthday_text W today) _ 0%nat ∅ W sa Hbds)
    as (mb & sb & Hrunb & Hotherb & Hmineb).
  unfold bind at 1. rewrite Hrunb.
  exists (mb ∪ ma ∪ base), sb. split; [done|]. split; [|split].
  - intros k Hk.
    assert (Hb : mb !! k = None).
    { rewrite Hotherb; [apply lookup_empty|].
      intros i _. by apply birthday_key_not_fixed. }
    assert (Ha : ma !! k = None).
    { rewrite Hothera; [apply lookup_empty|].
      intros i _. by apply anniversary_key_not_fixed. }
    rewrite lookup_union_r; [done|]. apply lookup_union_None. done.
  - intros i a Hi. destruct (Hminea i a Hi) as (v & c & Hv & Hm).
    exists v, c. split; [done|].
    assert (Hb : mb !! entry_key "anniversary_" i = None).
    { rewrite Hotherb; [apply lookup_empty|].
      intros j _. apply birthday_key_not_anniversary. }
    rewrite <- assoc_L by apply _. rewrite lookup_union_r by done.
    apply lookup_union_Some_l. exact Hm.
  - intros i b Hi. destruct (Hmineb i b Hi) as (v & c & Hv & Hm).
    exists v, c. split; [done|].
    rewrite <- assoc_L by apply _. apply lookup_union_Some_l. exact Hm.
Qed.

Lemma texts_ok_or_bad (text : entry -> outcome string) (entries : list entry) :
  all_texts_ok text entries
  \/ Exists (fun e => is_return (text e) = false) entries.
Proof.
  induction entries as [|e rest [IH|IH]].
  - left. constructor.
  - destruct (is_return (text e)) eqn:He.
    + left. by constructor.
    + right. by apply Exists_cons_hd.
  - right. by apply Exists_cons_tl.
Qed.

Lemma generated_entries_raises (cfg : config) (today : date)
    (base : gmap string field_entry) (W : world) (s : state) :
  Exists (fun a => is_return (anniversary_text W today a) = false)
    (default [] (anniversaries cfg))
  \/ Exists (fun b => is_return (birthday_text W today b) = false)
       (default [] (birthdays cfg)) ->
  exists err s', generated_entries cfg today base W s = (Raise err, s').
Proof.
  intros Hbad. unfold generated_entries. unfold bind at 1.
  destruct (texts_ok_or_bad (anniversary_text W today)
              (default [] (anniversaries cfg))) as [Hok|Hko].
  - destruct Hbad as [Hbad|Hbad].
    { apply Exists_exists in Hbad as (a & Hin & Ha).
      unfold all_texts_ok in Hok. rewrite Forall_forall in Hok.
      specialize (Hok a Hin). congruence. }
    destruct (entries_loop_returns "anniversary_"
                (fun W => anniversary_text W today) _ 0%nat ∅ W s Hok)
      as (ma & sa & Hruna & _).
    rewrite Hruna. unfold bind at 1.
    destruct (entries_loop_raises "birthday_"
                (fun W => birthday_text W today) _ 0%nat ∅ W sa Hbad)
      as (err & s' & Hrunb & _).
    rewrite Hrunb. eauto.
  - destruct (entries_loop_raises "anniversary_"
                (fun W => anniversary_text W today) _ 0%nat ∅ W s Hko)
      as (err & s' & Hruna & _).
    rewrite Hruna. eauto.
Qed.

(** [generate_message_data], by stages. *)
Lemma generate_message_data_stages (cfg : config) (W : world) (s : state) :
  generate_message_data cfg W s
  = (let today := local_date (clock_oracle W (clock_reads s)) in
     let* w := weather_fields cfg in
     let* base_data := base_data_of today cfg w in
     generated_entries cfg today base_data) W (after_clock_read s).
Proof. reflexivity. Qed.

(** ** Weather failure *)

(** The claim that a failing weather lookup never aborts the composition
    fails: the fallback covers the lookup only, and a configured date that
    cannot be processed still raises. *)
Lemma generate_message_data_weather_fallback_counterexample :
  ~ (forall (cfg : config) (W : world) (s s1 : state) (e : exn),
       get_weather (weather_key cfg) (region cfg) W (after_clock_read s)
       = (Raise e, s1) ->
       exists m s',
         generate_message_data cfg W s = (Return m, s')
         /\ value <$> m !! "weather" = Some (PStr unknown)
         /\ value <$> m !! "temp" = Some (PStr unknown)
         /\ value <$> m !! "wind_dir" = Some (PStr unknown)).
Proof.
  intros Hclaim.
  destruct (Hclaim malformed_config no_weather_world initial_state
              (get_weather "K" "Beijing" no_weather_world
                 (after_clock_read initial_state)).2
              region_lookup_error eq_refl)
    as (m & s' & Hrun & _).
  vm_compute in Hrun. discriminate Hrun.
Qed.

(** C8 (amended). If [get_weather] raises, the composition goes on with
    the placeholder in the three weather fields: what remains to run is
    the two loops over the configured entries, started from the five fixed
    entries.  When every configured entry is processed without error the
    mapping is returned, with [weather], [temp] and [wind_dir] set to
    the placeholder, [region] to the configured region and [date] to the
    formatted date; when some configured entry cannot be processed, the
    composition raises all the same.  The failure of the lookup is
    logged. *)
Theorem generate_message_data_weather_fallback (cfg : config) (W : world)
    (s s1 : state) (e : exn) :
  get_weather (weather_key cfg) (region cfg) W (after_clock_read s)
  = (Raise e, s1) ->
  let today := local_date (clock_oracle W (clock_reads s)) in
  exists (base : gmap string field_entry) (s2 : state) (day_name : string),
    generate_message_data cfg W s = generated_entries cfg today base W s2
    /\ value <$> base !! "weather" = Some (PStr unknown)
    /\ value <$> base !! "temp" = Some (PStr unknown)
    /\ value <$> base !! "wind_dir" = Some (PStr unknown)
    /\ value <$> base !! "region" = Some (PStr (region cfg))
    /\ value <$> base !! "date"
       = Some (PStr (isoformat today +:+ " " +:+ day_name))
    /\ log s2 = log s1 ++ [(ERROR, "天气查询失败: " +:+ exn_msg e)]
    /\ (all_texts_ok (anniversary_text W today) (default [] (anniversaries cfg)) ->
        all_texts_ok (birthday_text W today) (default [] (birthdays cfg)) ->
        exists m s',
          generate_message_data cfg W s = (Return m, s')
          /\ value <$> m !! "weather" = Some (PStr unknown)
          /\ value <$> m !! "temp" = Some (PStr unknown)
          /\ value <$> m !! "wind_dir" = Some (PStr unknown)
          /\ value <$> m !! "region" = Some (PStr (region cfg))
          /\ value <$> m !! "date"
             = Some (PStr (isoformat today +:+ " " +:+ day_name)))
    /\ (Exists (fun a => is_return (anniversary_text W today a) = false)
          (default [] (anniversaries cfg))
        \/ Exists (fun b => is_return (birthday_text W today b) = false)
             (default [] (birthdays cfg)) ->
        exists err s', generate_message_data cfg W s = (Raise err, s')).
Proof.
  intros Hw today.
  destruct (weather_fields_fallback cfg W _ s1 e Hw) as (sw & Hfields & Hlog).
  destruct (base_data_of_returns today cfg unknown_weather W sw)
    as (name & c1 & c2 & c3 & c4 & c5 & s2 & Hbase & Hlog2 & _).
  match type of Hbase with _ = (Return ?b, _) => set (base := b) in * end.
  assert (Hstages : generate_message_data cfg W s
                    = generated_entries cfg today base W s2).
  { rewrite generate_message_data_stages. cbv zeta. fold today.
    unfold bind at 1. rewrite Hfields. unfold bind at 1. rewrite Hbase. done. }
  assert (Hlookups :
    value <$> base !! "weather" = Some (PStr unknown)
    /\ value <$> base !! "temp" = Some (PStr unknown)
    /\ value <$> base !! "wind_dir" = Some (PStr unknown)
    /\ value <$> base !! "region" = Some (PStr (region cfg))
    /\ value <$> base !! "date"
       = Some (PStr (isoformat today +:+ " " +:+ name))).
  { subst base. repeat split; by simplify_map_eq. }
  destruct Hlookups as (Hl1 & Hl2 & Hl3 & Hl4 & Hl5).
  exists base, s2, name. split; [exact Hstages|].
  split; [exact Hl1|]. split; [exact Hl2|]. split; [exact Hl3|].
  split; [exact Hl4|]. split; [exact Hl5|]. split; [congruence|].
  split.
  - intros Hanns Hbds.
    destruct (generated_entries_returns cfg today base W s2 Hanns Hbds)
      as (m & s' & Hrun & Hfixed & _).
    exists m, s'. split; [by rewrite Hstages|].
    rewrite !Hfixed by (repeat constructor). done.
  - intros Hbad. rewrite Hstages.
    by apply generated_entries_raises.
Qed.

(** The weather service is unreachable and the configured dates are well
    formed: the mapping is returned with the placeholder.  With a
    malformed birthday, the composition raises. *)
Lemma generate_message_data_weather_fallback_witness :
  (exists m s',
     generate_message_data sample_config no_weather_world initial_state
     = (Return m, s')
     /\ value <$> m !! "weather" = Some (PStr unknown)
     /\ value <$> m !! "temp" = Some (PStr unknown)
     /\ value <$> m !! "wind_dir" = Some (PStr unknown)
     /\ value <$> m !! "region" = Some (PStr "Beijing"))
  /\ (exists err s',
        generate_message_data malformed_config no_weather_world initial_state
        = (Raise err, s')).
Proof.
  split.
  - destruct (generate_message_data_weather_fallback sample_config
                no_weather_world initial_state
                (get_weather "K" "Beijing" no_weather_world
                   (after_clock_read initial_state)).2
                region_lookup_error eq_refl)
      as (base & s2 & name & _ & _ & _ & _ & _ & _ & _ & Hreturns & _).
    destruct Hreturns as (m & s' & Hrun & Hw & Ht & Hd & Hr & _).
    + repeat constructor.
    + repeat constructor.
    + exists m, s'. repeat split; assumption.
  - destruct (generate_message_data_weather_fallback malformed_config
                no_weather_world initial_state
                (get_weather "K" "Beijing" no_weather_world
                   (after_clock_read initial_state)).2
                region_lookup_error eq_refl)
      as (base & s2 & name & _ & _ & _ & _ & _ & _ & _ & _ & Hraises).
    apply Hraises. right. apply Exists_cons_hd. reflexivity.
Defined.

(** ** Malformed dates *)

Lemma malformed_date_no_text (W : world) (today : date) (e : entry) :
  is_return (parse_date W (entry_date e)) = false ->
  is_return (anniversary_text W today e) = false
  /\ is_return (birthday_text W today e) = false.
Proof.
  unfold anniversary_text, birthday_text, birthday_days.
  destruct (parse_date W (entry_date e)); [done|]. done.
Qed.

(** One malformed birthday does abort the composition. *)
Lemma malformed_date_skipped_counterexample :
  ~ (forall (cfg : config) (W : world) (s : state) (bad : entry)
            (others : list entry),
       anniversaries cfg = None -> birthdays cfg = Some (bad :: others) ->
       is_return (parse_date W (entry_date bad)) = false ->
       all_texts_ok
         (birthday_text W (local_date (clock_oracle W (clock_reads s)))) others ->
       exists m s',
         generate_message_data cfg W s = (Return m, s')
         /\ forall j, (j < length others)%nat ->
              is_Some (m !! entry_key "birthday_" (S j))).
Proof.
  intros Hclaim.
  destruct (Hclaim malformed_config
              (scripted_world [HttpResponse (Some geocoding_ok);
                               HttpResponse (Some weather_ok)] noon_2024_03_15)
              initial_state (Entry "Ann" "2024-13-40")
              [Entry "Bob" "1990-03-15"] eq_refl eq_refl eq_refl)
    as (m & s' & Hrun & _).
  - repeat constructor.
  - vm_compute in Hrun. discriminate Hrun.
Qed.

Example malformed_date_error :
  (generate_message_data malformed_config
     (scripted_world [HttpResponse (Some geocoding_ok);
                      HttpResponse (Some weather_ok)] noon_2024_03_15)
     initial_state).1
  = Raise (strptime_error "2024-13-40").
Proof. reflexivity. Qed.

(** C2 (amended). An anniversary or birthday entry that cannot be processed
    (in particular one whose date string is malformed) makes
    [generate_message_data] raise: no mapping is produced.  When every
    configured entry is processed without error, the mapping is returned
    and holds, under its generated key, the text of each anniversary and of
    each birthday. *)
Theorem generate_message_data_dates (cfg : config) (W : world) (s : state) :
  let today := local_date (clock_oracle W (clock_reads s)) in
  let anns := default [] (anniversaries cfg) in
  let bds := default [] (birthdays cfg) in
  (forall e, e ∈ anns ++ bds ->
     is_return (parse_date W (entry_date e)) = false ->
     exists err s', generate_message_data cfg W s = (Raise err, s'))
  /\ (Exists (fun a => is_return (anniversary_text W today a) = false) anns
      \/ Exists (fun b => is_return (birthday_text W today b) = false) bds ->
      exists err s', generate_message_data cfg W s = (Raise err, s'))
  /\ (all_texts_ok (anniversary_text W today) anns ->
      all_texts_ok (birthday_text W today) bds ->
      exists m s',
        generate_message_data cfg W s = (Return m, s')
        /\ (forall i a, anns !! i = Some a ->
              exists v c, anniversary_text W today a = Return v
                /\ m !! entry_key "anniversary_" i = Some (Field (PStr v) c))
        /\ (forall i b, bds !! i = Some b ->
              exists v c, birthday_text W today b = Return v
                /\ m !! entry_key "birthday_" i = Some (Field (PStr v) c))).
Proof.
  intros today anns bds.
  destruct (weather_fields_returns cfg W (after_clock_read s)) as (w & sw & Hw).
  destruct (base_data_of_returns today cfg w W sw)
    as (name & c1 & c2 & c3 & c4 & c5 & s2 & Hbase & _).
  assert (Hstages : exists base,
            generate_message_data cfg W s
            = generated_entries cfg today base W s2).
  { eexists. rewrite generate_message_data_stages. cbv zeta. fold today.
    unfold bind at 1. rewrite Hw. unfold bind at 1. rewrite Hbase. done. }
  destruct Hstages as [base Hstages]. rewrite Hstages.
  assert (Hraise :
    Exists (fun a => is_return (anniversary_text W today a) = false) anns
    \/ Exists (fun b => is_return (birthday_text W today b) = false) bds ->
    exists err s', generated_entries cfg today base W s2 = (Raise err, s')).
  { apply generated_entries_raises. }
  split; [|split].
  - intros e Hin Hbad. apply Hraise.
    destruct (malformed_date_no_text W today e Hbad) as [Ha Hb].
    apply elem_of_app in Hin as [Hin|Hin].
    + left. apply Exists_exists. eauto.
    + right. apply Exists_exists. eauto.
  - exact Hraise.
  - intros Hanns Hbds.
    destruct (generated_entries_returns cfg today base W s2 Hanns Hbds)
      as (m & s' & Hrun & _ & Ha & Hb).
    exists m, s'. done.
Qed.

(** The malformed birthday of [malformed_config] aborts the composition;
    the well-formed [sample_config] is composed in full. *)
Lemma generate_message_data_dates_witness :
  (exists err s',
      generate_message_data malformed_config no_weather_world initial_state
      = (Raise err, s'))
  /\ (exists m s',
        generate_message_data sample_config no_weather_world initial_state
        = (Return m, s')
        /\ is_Some (m !! entry_key "anniversary_" 0)
        /\ is_Some (m !! entry_key "birthday_" 0)).
Proof.
  split.
  - destruct (generate_message_data_dates malformed_config no_weather_world
                initial_state) as (Hbad & _).
    apply (Hbad (Entry "Ann" "2024-13-40")); [|reflexivity].
    apply elem_of_app. right. apply elem_of_cons. by left.
  - destruct (generate_message_data_dates sample_config no_weather_world
                initial_state) as (_ & _ & Hgood).
    destruct Hgood as (m & s' & Hrun & Ha & Hb).
    + repeat constructor.
    + repeat constructor.
    + exists m, s'. split; [exact Hrun|]. split.
      * destruct (Ha 0%nat (Entry "Wedding" "2020-01-01") eq_refl)
          as (v & c & _ & Hm). rewrite Hm. eauto.
      * destruct (Hb 0%nat (Entry "Bob" "1990-03-15") eq_refl)
          as (v & c & _ & Hm). rewrite Hm. eauto.
Defined.

(** ** Concrete compositions *)

Example birthday_today_in_message :
  let r := generate_message_data sample_config no_weather_world initial_state in
  (match r.1 with
   | Return m => value <$> m !! "birthday_0"
   | Raise _ => None
   end) = Some (PStr "Bob生日今天生日！")
  /\ (match r.1 with
      | Return m => value <$> m !! "anniversary_0"
      | Raise _ => None
      end) = Some (PStr "Wedding已经 1535 天").
Proof. split; reflexivity. Qed.

(** [weekday()] counts from Monday while [week_list] starts on Sunday:
    2024-03-15, a Friday, is given the fifth name of the table. *)
Example date_field_of_2024_03_15 :
  weekday (Date 2024 3 15) = 4
  /\ (match (generate_message_data sample_config no_weather_world
               initial_state).1 with
      | Return m => value <$> m !! "date"
      | Raise _ => None
      end) = Some (PStr "2024-03-15 星期四").
Proof. split; reflexivity. Qed.

Example no_entries_five_fields :
  (match (generate_message_data seven_recipients no_weather_world
            initial_state).1 with
   | Return m => Some (size m)
   | Raise _ => None
   end) = Some 5%nat.
Proof. reflexivity. Qed.

(* ================================================================== *)
(** * Properties of the dispatch *)
(* ================================================================== *)

Lemma post_recipients_app (r1 r2 : list request) :
  post_recipients (r1 ++ r2) = post_recipients r1 ++ post_recipients r2.
Proof. apply omap_app. Qed.

Lemma bind_capture {A B} (c : M A) (f : outcome A -> M B) W s :
  bind (capture c) f W s = f (c W s).1 W (c W s).2.
Proof. reflexivity. Qed.

(** ** One send *)

Lemma get_access_token_available (a b : string) (W : world) (s : state) :
  token_available W a b ->
  exists tok s' gets,
    get_access_token a b W s = (Return tok, s')
    /\ requests s' = requests s ++ gets
    /\ post_recipients gets = []
    /\ log s' = log s.
Proof.
  intros Havail.
  destruct (float_lt (timestamp (clock_oracle W (clock_reads s)))
              (token_expire s)) eqn:Hlt.
  - rewrite (get_access_token_cached a b W s Hlt).
    exists (access_token s), (after_clock_read s), [].
    rewrite app_nil_r. done.
  - rewrite (get_access_token_stale a b W s Hlt).
    destruct (Havail (length (requests s)))
      as (d & tok & e & secs & Hcall & Htok & Hexp & Hnum).
    rewrite (refresh_success a b W (after_clock_read s) d tok e secs
               Hcall Htok Hexp Hnum).
    eexists tok, _, [GET (token_url a b)]. done.
Qed.

Lemma send_template_message_available (a b u : string)
    (td : template_message) (W : world) (s : state)
    (answer : string -> http_outcome) :
  token_available W a b ->
  (forall k url body, http_oracle W k (POST url body) = answer (msg_touser body)) ->
  msg_touser td = u ->
  exists s' new lines,
    send_template_message a b u td W s = (send_outcome (answer u), s')
    /\ requests s' = requests s ++ new
    /\ post_recipients new = [u]
    /\ log s' = log s ++ lines
    /\ only_errors lines.
Proof.
  intros Havail Hanswer Hu.
  destruct (get_access_token_available a b W s Havail)
    as (tok & s1 & gets & Htoken & Hreq & Hgets & Hlog).
  unfold send_template_message. unfold bind at 1. rewrite Htoken.
  rewrite bind_ask, bind_requests_post. cbv zeta.
  rewrite Hanswer, Hu.
  assert (Hnew : post_recipients (gets ++ [POST (send_url (py_str W tok)) td]) = [u]).
  { rewrite post_recipients_app, Hgets. cbn. by rewrite Hu. }
  destruct (answer u) as [msg|[v|]]; cbn [send_outcome].
  - eexists _, (gets ++ [POST (send_url (py_str W tok)) td]), [].
    split; [reflexivity|]. cbn. rewrite Hreq, <- app_assoc, app_nil_r.
    repeat split; try done. constructor.
  - rewrite bind_response_json, bind_lift.
    destruct (dict_get v "errcode") as [code|e]; cbn [obind].
    + destruct (eq_int code 0); cbn [negb].
      * eexists _, (gets ++ [POST (send_url (py_str W tok)) td]), [].
        split; [reflexivity|]. cbn. rewrite Hreq, <- app_assoc, app_nil_r.
        repeat split; try done. constructor.
      * rewrite bind_logging.
        eexists _, (gets ++ [POST (send_url (py_str W tok)) td]), [_].
        split; [reflexivity|]. cbn. rewrite Hreq, <- app_assoc, Hlog.
        repeat split; try done. by repeat constructor.
    + eexists _, (gets ++ [POST (send_url (py_str W tok)) td]), [].
      split; [reflexivity|]. cbn. rewrite Hreq, <- app_assoc, app_nil_r.
      repeat split; try done. constructor.
  - rewrite bind_response_json.
    eexists _, (gets ++ [POST (send_url (py_str W tok)) td]), [].
    split; [reflexivity|]. cbn. rewrite Hreq, <- app_assoc, app_nil_r.
    repeat split; try done. constructor.
Qed.

(** ** The thread pool *)

Lemma pending_users_insert (futures : list (option (outcome bool))) :
  forall (users : list string) (i : nat) (u : string) (r : outcome bool),
  futures !! i = Some None -> users !! i = Some u ->
  pending_users futures users
  ≡ₚ u :: pending_users (<[i := Some r]> futures) users.
Proof.
  induction futures as [|f fs IH]; intros users i u r Hf Hu; [done|].
  destruct users as [|u' us]; [done|].
  destruct i as [|i]; cbn in Hf, Hu |- *.
  - injection Hf as ->. injection Hu as ->. done.
  - destruct f as [r'|].
    + by apply IH.
    + rewrite (IH us i u r Hf Hu). apply Permutation_swap.
Qed.

Lemma pending_users_fresh (users : list string) :
  pending_users (replicate (length users) None) users = users.
Proof. induction users as [|u us IH]; [done|]. cbn. by rewrite IH. Qed.

Section pool.
Context (W : world) (users : list string) (task : string -> M bool)
        (expected : string -> outcome bool).

(** Each task, from any state, yields its expected outcome, issues the
    one send of its user, and logs errors only. *)
Hypothesis task_spec : forall u s,
  exists s' new lines,
    task u W s = (expected u, s')
    /\ requests s' = requests s ++ new
    /\ post_recipients new = [u]
    /\ log s' = log s ++ lines
    /\ only_errors lines.

Lemma run_tasks_spec (order : list nat) :
  forall futures s,
  futures_ok expected users futures ->
  exists futures' s' new lines,
    run_tasks order (map task users) futures W s = (Return futures', s')
    /\ futures_ok expected users futures'
    /\ requests s' = requests s ++ new
    /\ post_recipients new ++ pending_users futures' users
       ≡ₚ pending_users futures users
    /\ log s' = log s ++ lines
    /\ only_errors lines.
Proof.
  induction order as [|i order IH]; intros futures s Hok.
  - exists futures, s, [], []. rewrite !app_nil_r.
    repeat split; try done. constructor.
  - cbn [run_tasks]. rewrite list_lookup_fmap.
    destruct (users !! i) as [u|] eqn:Hu; cbn [fmap option_fmap option_map];
      [|by apply IH].
    destruct (futures !! i) as [[r|]|] eqn:Hf; [by apply IH| |by apply IH].
    rewrite bind_capture.
    destruct (task_spec u s) as (s1 & new1 & lines1 & Hrun & Hreq1 & Hpost1
                                 & Hlog1 & Herr1).
    rewrite Hrun. cbn [fst snd].
    assert (Hok' : futures_ok expected users (<[i := Some (expected u)]> futures)).
    { unfold futures_ok. rewrite <- (list_insert_id users i u Hu).
      apply Forall2_insert; [exact Hok | by right]. }
    destruct (IH _ s1 Hok')
      as (futures' & s' & new & lines & Hrest & Hok'' & Hreq & Hperm
          & Hlog & Herr).
    exists futures', s', (new1 ++ new), (lines1 ++ lines).
    split; [exact Hrest|]. split; [exact Hok''|].
    split. { rewrite Hreq, Hreq1, <- app_assoc. done. }
    split.
    { rewrite post_recipients_app, Hpost1, <- app_assoc, Hperm.
      cbn. symmetry. by apply pending_users_insert. }
    split. { rewrite Hlog, Hlog1, <- app_assoc. done. }
    by apply Forall_app.
Qed.

Lemma finish_tasks_spec (us : list string) :
  forall futures s,
  futures_ok expected us futures ->
  exists s' new lines,
    finish_tasks (map task us) futures W s = (Return (map expected us), s')
    /\ requests s' = requests s ++ new
    /\ post_recipients new ≡ₚ pending_users futures us
    /\ log s' = log s ++ lines
    /\ only_errors lines.
Proof.
  induction us as [|u us IH]; intros futures s Hok.
  - exists s, [], []. rewrite !app_nil_r. apply Forall2_nil_inv_l in Hok as ->.
    repeat split; try done. constructor.
  - apply Forall2_cons_inv_l in Hok as (f & fs & Hf & Hfs & ->).
    cbn [map finish_tasks pending_users].
    destruct Hf as [->| ->].
    + rewrite bind_capture.
      destruct (task_spec u s) as (s1 & new1 & lines1 & Hrun & Hreq1 & Hpost1
                                   & Hlog1 & Herr1).
      rewrite Hrun. cbn [fst snd].
      destruct (IH fs s1 Hfs) as (s' & new & lines & Hrest & Hreq & Hperm
                                  & Hlog & Herr).
      unfold bind at 1. rewrite Hrest.
      exists s', (new1 ++ new), (lines1 ++ lines).
      split; [done|].
      split. { rewrite Hreq, Hreq1, <- app_assoc. done. }
      split. { rewrite post_recipients_app, Hpost1, Hperm. done. }
      split. { rewrite Hlog, Hlog1, <- app_assoc. done. }
      by apply Forall_app.
    + rewrite bind_ret.
      destruct (IH fs s Hfs) as (s' & new & lines & Hrest & Hreq & Hperm
                                 & Hlog & Herr).
      unfold bind at 1. rewrite Hrest.
      exists s', new, lines. done.
Qed.

(** The pool runs every task once: the futures hold the expected
    outcomes, in submission order, and the sends issued are those of the
    users, in some order. *)
Lemma thread_pool_spec (s : state) :
  exists s' new lines,
    thread_pool (map task users) W s = (Return (map expected users), s')
    /\ requests s' = requests s ++ new
    /\ post_recipients new ≡ₚ users
    /\ log s' = log s ++ lines
    /\ only_errors lines.
Proof.
  unfold thread_pool. rewrite bind_ask. rewrite length_map.
  assert (Hfresh : futures_ok expected users (replicate (length users) None)).
  { unfold futures_ok. clear task_spec.
    induction users as [|u us IH]; constructor; [by left | exact IH]. }
  destruct (run_tasks_spec (pool_order W (length users)) _ s Hfresh)
    as (futures & s1 & new1 & lines1 & Hrun & Hok & Hreq1 & Hperm1 & Hlog1
        & Herr1).
  unfold bind at 1. rewrite Hrun.
  destruct (finish_tasks_spec users futures s1 Hok)
    as (s' & new2 & lines2 & Hfin & Hreq2 & Hperm2 & Hlog2 & Herr2).
  exists s', (new1 ++ new2), (lines1 ++ lines2).
  split; [exact Hfin|].
  split. { rewrite Hreq2, Hreq1, <- app_assoc. done. }
  split. { rewrite post_recipients_app, Hperm2, Hperm1.
           by rewrite pending_users_fresh. }
  split. { rewrite Hlog2, Hlog1, <- app_assoc. done. }
  by apply Forall_app.
Qed.
End pool.

(** ** Collecting the results *)

Lemma future_results_spec (outcomes : list (outcome bool)) (W : world)
    (s : state) :
  future_results outcomes W s
  = (match first_raise outcomes with
     | Some e => Raise e
     | None => Return (returned outcomes)
     end, s).
Proof.
  induction outcomes as [|[b|e] rest IH]; [done| |done].
  cbn [future_results first_raise]. rewrite bind_lift.
  unfold bind at 1. rewrite IH. destruct (first_raise rest); done.
Qed.

Lemma first_raise_none (outcomes : list (outcome bool)) :
  first_raise outcomes = None ->
  length (returned outcomes) = length outcomes.
Proof.
  induction outcomes as [|[b|e] rest IH]; [done| |done].
  intros H. cbn. f_equal. by apply IH.
Qed.

Lemma count_outcomes_total (outcomes : list (outcome bool)) :
  count_outcome true outcomes + count_outcome false outcomes
  = Z.of_nat (length (returned outcomes)).
Proof.
  unfold count_outcome. induction (returned outcomes) as [|[|] l IH].
  - done.
  - rewrite filter_cons_True by done. rewrite filter_cons_False by done.
    cbn [length]. lia.
  - rewrite filter_cons_False by done. rewrite filter_cons_True by done.
    cbn [length]. lia.
Qed.

(** ** [send_messages] *)

Lemma service_world_token (answer : string -> http_outcome) :
  token_available (service_world answer) "A" "S".
Proof.
  intros k.
  exists (list_to_map [("access_token", PStr "TOKEN"); ("expires_in", PInt 7200)]),
         (PStr "TOKEN"), (PInt 7200), (float_of_Z 7200).
  repeat split; reflexivity.
Qed.

(** A transport failure of one send is not counted: no aggregate is
    reported at all. *)
Lemma send_messages_transport_failure_counterexample :
  ~ (forall (cfg : config) (W : world) (s : state)
            (answer : string -> http_outcome),
       is_return (generate_message_data cfg W s).1 = true ->
       token_available W (app_id cfg) (app_secret cfg) ->
       (forall k url body,
          http_oracle W k (POST url body) = answer (msg_touser body)) ->
       exists sent failed,
         last (log (send_messages cfg W s).2)
         = Some (INFO, summary_line sent failed)
         /\ sent + failed = Z.of_nat (length (user cfg))).
Proof.
  intros Hclaim.
  destruct (Hclaim seven_recipients (service_world third_unreachable)
              initial_state third_unreachable eq_refl
              (service_world_token third_unreachable)
              (fun _ _ _ => eq_refl))
    as (sent & failed & Hlast & _).
  vm_compute in Hlast. discriminate Hlast.
Qed.

Example send_messages_transport_failure_raises :
  (send_messages seven_recipients (service_world third_unreachable)
     initial_state).1
  = Raise (Exn RequestException "connection reset")
  /\ post_recipients
       (requests (send_messages seven_recipients
                    (service_world third_unreachable) initial_state).2)
     = ["u7"; "u6"; "u5"; "u4"; "u3"; "u2"; "u1"].
Proof. split; reflexivity. Qed.

(** C1 (amended). Let the composition succeed, the token be obtainable and
    the outcome of each send be decided by its recipient.  Then
    [send_messages] issues exactly one send per recipient, in some order,
    whatever the outcomes of the sends.  When no send raises, it returns
    and its last log line reports [sent] and [failed] with
    [sent + failed] the number of recipients, [sent] counting the sends
    that returned [True] and [failed] those that returned [False] (an
    ["errcode"] that is absent or not equal to 0).  When a send raises (a
    transport failure, a body that is not JSON), [send_messages] raises
    the first such exception in recipient order, after all sends have
    run, and reports no aggregate. *)
Theorem send_messages_aggregate (cfg : config) (W : world) (s s1 : state)
    (data : gmap string field_entry) (answer : string -> http_outcome) :
  generate_message_data cfg W s = (Return data, s1) ->
  token_available W (app_id cfg) (app_secret cfg) ->
  (forall k url body,
     http_oracle W k (POST url body) = answer (msg_touser body)) ->
  let outcomes := map (fun u => send_outcome (answer u)) (user cfg) in
  exists (sends : list request) (lines : list (level * string)) (s' : state),
    send_messages cfg W s
    = (match first_raise outcomes with
       | Some e => Raise e
       | None => Return tt
       end, s')
    /\ requests s' = requests s1 ++ sends
    /\ post_recipients sends ≡ₚ user cfg
    /\ only_errors lines
    /\ log s'
       = log s1 ++ lines
         ++ match first_raise outcomes with
            | Some _ => []
            | None => [(INFO, summary_line (count_outcome true outcomes)
                                (count_outcome false outcomes))]
            end
    /\ (first_raise outcomes = None ->
        count_outcome true outcomes + count_outcome false outcomes
        = Z.of_nat (length (user cfg))).
Proof.
  intros Hgen Havail Hanswer outcomes.
  unfold send_messages. unfold bind at 1. rewrite Hgen.
  destruct (thread_pool_spec W (user cfg)
              (fun u => send_template_message (app_id cfg) (app_secret cfg) u
                          (template_data_for cfg data u))
              (fun u => send_outcome (answer u))
              (fun u st => send_template_message_available
                             (app_id cfg) (app_secret cfg) u
                             (template_data_for cfg data u) W st answer
                             Havail Hanswer eq_refl)
              s1)
    as (s2 & sends & lines & Hpool & Hreq & Hperm & Hlog & Herr).
  unfold bind at 1. rewrite Hpool. fold outcomes.
  unfold bind at 1. rewrite future_results_spec.
  assert (Hlen : length outcomes = length (user cfg))
    by (unfold outcomes; apply length_map).
  destruct (first_raise outcomes) as [e|] eqn:Hfirst.
  - exists sends, lines, s2. rewrite app_nil_r. done.
  - eexists sends, lines, _. split; [reflexivity|]. cbn.
    split; [exact Hreq|]. split; [exact Hperm|]. split; [exact Herr|].
    pose proof (count_outcomes_total outcomes) as Htotal.
    pose proof (first_raise_none outcomes Hfirst) as Hret.
    split.
    + rewrite Hlog, <- app_assoc. do 2 f_equal.
      unfold sum_results, count_outcome in *. do 3 f_equal. lia.
    + intros _. rewrite Htotal, Hret, Hlen. done.
Qed.

(** Seven recipients, the provider rejecting the third: seven sends are
    issued and the last log line reports 6 sent and 1 failed. *)
Lemma send_messages_aggregate_witness :
  exists (sends : list request) (lines : list (level * string)) (s' : state),
    send_messages seven_recipients (service_world third_rejected) initial_state
    = (Return tt, s')
    /\ post_recipients sends ≡ₚ user seven_recipients
    /\ requests s'
       = requests (generate_message_data seven_recipients
                     (service_world third_rejected) initial_state).2 ++ sends
    /\ last (log s') = Some (INFO, summary_line 6 1).
Proof.
  destruct (generate_message_data seven_recipients
              (service_world third_rejected) initial_state)
    as [[data|e] s1] eqn:Hgen; [|vm_compute in Hgen; discriminate Hgen].
  destruct (send_messages_aggregate seven_recipients
              (service_world third_rejected) initial_state s1 data
              third_rejected Hgen (service_world_token third_rejected)
              (fun _ _ _ => eq_refl))
    as (sends & lines & s' & Hrun & Hreq & Hperm & _ & Hlog & _).
  exists sends, lines, s'. split; [exact Hrun|]. split; [exact Hperm|].
  split; [exact Hreq|]. rewrite Hlog.
  rewrite app_assoc. apply last_snoc.
Defined.

Example send_messages_seven_recipients_log :
  log (send_messages seven_recipients (service_world third_rejected)
         initial_state).2
  = [(ERROR, "消息发送失败: <repr>"); (INFO, "成功发送 6 条消息，失败 1 条")].
Proof. reflexivity. Qed.

(* ================================================================== *)
(** * Properties of concurrent workers *)
(* ================================================================== *)

Ltac run_steps :=
  repeat (progress (cbn [TokenRace.step_worker];
                    unfold bind, try_except, datetime_now, get_state, ret, lift,
                      raise, ask, requests_get, response_json, logging,
                      set_access_token, set_token_expire;
                    cbn)).

(** A worker that is not interrupted behaves as [get_access_token]. *)
Lemma worker_alone_is_get_access_token (a b : string) (W : world) (s : state) :
  TokenRace.worker_alone a b W s = get_access_token a b W s.
Proof.
  unfold TokenRace.worker_alone, get_access_token. run_steps.
  destruct (float_lt _ _); run_steps; [done|].
  destruct (http_oracle W _ _) as [msg|[v|]]; run_steps; try done.
  destruct (contains_key v "access_token") as [[|]|e]; run_steps; try done.
  destruct (getitem_key v "access_token") as [tok|e]; run_steps; try done.
  destruct (getitem_key v "expires_in") as [ex|e]; run_steps; try done.
  destruct (to_number ex) as [q|e]; run_steps; done.
Qed.


Section race.
Context (a b : string) (W : world) (t0 : pyval).







End race.



(** In that run the token stored last is kept with the expiry stored last,
    which was computed from the other answer; and the first worker
    returns the token fetched by the second. *)
Example workers_mixed_credential :
  let c := TokenRace.run "A" "S" TokenRace.two_answers
             [0; 1; 0; 1; 0; 1; 1; 0; 0; 1]%nat
             (TokenRace.workers 2, initial_state) in
  c.1 = [TokenRace.Done (Return (PStr "SECOND"));
         TokenRace.Done (Return (PStr "SECOND"))]
  /\ access_token c.2 = PStr "SECOND"
  /\ token_expire c.2
     = float_sub (float_add (timestamp noon_2024_03_15) (float_of_Z 7200))
         (float_of_Z 300)
  /\ TokenRace.fetches initial_state c.2 = 2%nat.
Proof. repeat split; reflexivity. Qed.


(* ================================================================== *)
(** * The weather cache over a whole run *)
(* ================================================================== *)

Lemma cache_monotone_keeps {A} (c : M A) :
  (forall W s, cache (c W s).2 = cache s) -> cache_monotone c.
Proof. intros H W s r v Hr. by rewrite H. Qed.

Lemma cache_monotone_bind {A B} (c : M A) (f : A -> M B) :
  cache_monotone c -> (forall a, cache_monotone (f a)) ->
  cache_monotone (bind c f).
Proof.
  intros Hc Hf W s r v Hr. unfold bind.
  specialize (Hc W s r v Hr).
  destruct (c W s) as [[a|e] s1]; [|exact Hc].
  by apply Hf.
Qed.

Lemma cache_monotone_try_except {A} (c : M A) (h : exn -> M A) :
  cache_monotone c -> (forall e, cache_monotone (h e)) ->
  cache_monotone (try_except c h).
Proof.
  intros Hc Hh W s r v Hr. unfold try_except.
  specialize (Hc W s r v Hr).
  destruct (c W s) as [[a|e] s1]; [exact Hc|].
  by apply Hh.
Qed.

Lemma cache_monotone_capture {A} (c : M A) :
  cache_monotone c -> cache_monotone (capture c).
Proof. intros Hc W s r v Hr. by apply Hc. Qed.

Lemma cache_monotone_requests_get (url : string) :
  cache_monotone (requests_get url).
Proof.
  apply cache_monotone_keeps. intros W s. unfold requests_get.
  by destruct (http_oracle W _ _).
Qed.

Lemma cache_monotone_requests_post (url : string) (body : template_message) :
  cache_monotone (requests_post url body).
Proof.
  apply cache_monotone_keeps. intros W s. unfold requests_post.
  by destruct (http_oracle W _ _).
Qed.

Lemma cache_monotone_response_json (body : option pyval) :
  cache_monotone (response_json body).
Proof. apply cache_monotone_keeps. intros W s. by destruct body. Qed.

Lemma cache_monotone_get_weather (key region : string) :
  cache_monotone (get_weather key region).
Proof.
  intros W s r v Hr. by apply get_weather_keeps_entries.
Qed.

(** Splits a computation along its binds, handlers and tests, and closes
    the steps that leave the cache alone. *)
Ltac cache_step :=
  lazymatch goal with
  | |- cache_monotone (bind _ _) => apply cache_monotone_bind; [|intros ?]
  | |- cache_monotone (try_except _ _) =>
      apply cache_monotone_try_except; [|intros ?]
  | |- cache_monotone (capture _) => apply cache_monotone_capture
  | |- cache_monotone (requests_get _) => apply cache_monotone_requests_get
  | |- cache_monotone (requests_post _ _) => apply cache_monotone_requests_post
  | |- cache_monotone (response_json _) => apply cache_monotone_response_json
  | |- cache_monotone (get_weather _ _) => apply cache_monotone_get_weather
  | |- cache_monotone (if ?b then _ else _) => destruct b
  | |- cache_monotone (match ?x with _ => _ end) => destruct x
  | |- cache_monotone _ =>
      first [ assumption
            | apply cache_monotone_keeps; intros ? ?; reflexivity ]
  end.

Ltac cache_steps := repeat cache_step.

Lemma cache_monotone_get_access_token (a b : string) :
  cache_monotone (get_access_token a b).
Proof. unfold get_access_token. cache_steps. Qed.

Lemma cache_monotone_send_template_message (a b u : string)
    (td : template_message) :
  cache_monotone (send_template_message a b u td).
Proof.
  unfold send_template_message.
  apply cache_monotone_bind; [apply cache_monotone_get_access_token|intros ?].
  cache_steps.
Qed.

Lemma cache_monotone_entries_loop (prefix : string)
    (text : world -> entry -> outcome string) (entries : list entry) :
  forall idx acc, cache_monotone (entries_loop prefix text idx entries acc).
Proof.
  induction entries as [|e rest IH]; intros idx acc; cbn [entries_loop].
  - cache_steps.
  - unfold get_color. cache_steps. apply IH.
Qed.

Lemma cache_monotone_generate_message_data (cfg : config) :
  cache_monotone (generate_message_data cfg).
Proof.
  unfold generate_message_data, weather_fields, base_data_of, get_color.
  cache_steps; try apply cache_monotone_entries_loop; cache_steps.
Qed.

Lemma cache_monotone_run_tasks (order : list nat) (tasks : list (M bool)) :
  Forall cache_monotone tasks ->
  forall futures, cache_monotone (run_tasks order tasks futures).
Proof.
  intros Htasks. induction order as [|i order IH]; intros futures;
    cbn [run_tasks]; [cache_steps|].
  destruct (tasks !! i) as [task|] eqn:Hi; [|apply IH].
  destruct (futures !! i) as [[r|]|]; try apply IH.
  apply cache_monotone_bind; [|intros ?; apply IH].
  apply cache_monotone_capture. exact (Forall_lookup_1 _ _ _ _ Htasks Hi).
Qed.

Lemma cache_monotone_finish_tasks (tasks : list (M bool)) :
  Forall cache_monotone tasks ->
  forall futures, cache_monotone (finish_tasks tasks futures).
Proof.
  induction 1 as [|task tasks Htask Htasks IH]; intros futures;
    cbn [finish_tasks]; [cache_steps|].
  destruct futures as [|f fs]; [cache_steps|].
  apply cache_monotone_bind.
  - destruct f; cache_steps.
  - intros r. apply cache_monotone_bind; [apply IH|intros ?; cache_steps].
Qed.

Lemma cache_monotone_future_results (futures : list (outcome bool)) :
  cache_monotone (future_results futures).
Proof.
  induction futures as [|f fs IH]; cbn [future_results]; cache_steps.
Qed.

(** Over a whole run of [send_messages], an entry of the weather cache is
    never removed or changed. *)
Lemma cache_monotone_send_messages (cfg : config) :
  cache_monotone (send_messages cfg).
Proof.
  unfold send_messages.
  apply cache_monotone_bind; [apply cache_monotone_generate_message_data|].
  intros data.
  assert (Htasks : Forall cache_monotone
            (map (fun u => send_template_message (app_id cfg) (app_secret cfg) u
                             (template_data_for cfg data u)) (user cfg))).
  { apply Forall_map, Forall_forall. intros u _.
    apply cache_monotone_send_template_message. }
  apply cache_monotone_bind.
  - unfold thread_pool. apply cache_monotone_bind; [cache_steps|intros W'].
    apply cache_monotone_bind;
      [by apply cache_monotone_run_tasks|intros ?;
       by apply cache_monotone_finish_tasks].
  - intros futures. apply cache_monotone_bind;
      [apply cache_monotone_future_results|intros ?; cache_steps].
Qed.

(** C4 (amended). A cached region is answered from the cache: the cached
    snapshot is returned and the state, hence the list of requests, is
    unchanged.  A region that is not cached leads to [k1] geocoding
    requests followed by [k2] weather requests, with [1 <= k1 <= 3] and
    [k2 <= 3]; when a snapshot is returned, [1 <= k2] and the snapshot is
    stored under the region; when no attempt fails, [k1 = 1] and
    [k2 <= 1].  The weather requests, if any, all go to the
    current-weather endpoint, for the location id read in the geocoding
    answer.  Whatever the query, an entry already in the cache is still
    there, unchanged, afterwards; and so it is after a whole run of
    [send_messages]. *)
Theorem get_weather_calls (key region : string) (W : world) (s : state) :
  (forall snap, cache s !! region = Some snap ->
     get_weather key region W s = (Return snap, s))
  /\ (cache s !! region = None ->
      exists (k1 k2 : nat) (wurl : string),
        requests (get_weather key region W s).2
        = requests s ++ replicate k1 (GET (location_url key region))
            ++ replicate k2 (GET wurl)
        /\ (1 <= k1 <= 3)%nat /\ (k2 <= 3)%nat
        /\ (forall snap, (get_weather key region W s).1 = Return snap ->
              (1 <= k2)%nat
              /\ cache (get_weather key region W s).2
                 = <[region := snap]> (cache s))
        /\ ((forall k url, attempt W k url <> None) ->
              k1 = 1%nat /\ (k2 <= 1)%nat)
        /\ ((1 <= k2)%nat ->
            exists v1 id,
              (get_with_retry (location_url key region) 3 W s).1 = Return v1
              /\ location_id_of v1 = Return id
              /\ wurl = weather_url key (py_str W id)))
  /\ (forall (r : string) (snap : snapshot),
        cache s !! r = Some snap ->
        cache (get_weather key region W s).2 !! r = Some snap)
  /\ (forall (cfg : config) (r : string) (snap : snapshot),
        cache s !! r = Some snap ->
        cache (send_messages cfg W s).2 !! r = Some snap).
Proof.
  split; [|split; [|split]].
  - intros snap. apply get_weather_cached.
  - intros Hc.
    destruct (get_weather_uncached key region W s Hc)
      as (k1 & k2 & wurl & r & s' & Hrun & Hreq & Hk1 & Hk2 & Hres & Hrel
          & Hurl).
    exists k1, k2, wurl. rewrite Hrun. simpl.
    split; [exact Hreq|]. split; [exact Hk1|]. split; [exact Hk2|].
    split; [|split; [exact Hrel | exact Hurl]]. intros snap ->. exact Hres.
  - intros r snap. apply get_weather_keeps_entries.
  - intros cfg r snap. apply cache_monotone_send_messages.
Qed.

(** A first query for Beijing in a world that answers at once. *)
Lemma get_weather_calls_witness :
  cache initial_state !! "Beijing" = None /\
  exists (k1 k2 : nat) (wurl : string),
    requests (get_weather "K" "Beijing"
                (scripted_world [HttpResponse (Some geocoding_ok);
                                 HttpResponse (Some weather_ok)] noon_2024_03_15)
                initial_state).2
    = requests initial_state ++ replicate k1 (GET (location_url "K" "Beijing"))
        ++ replicate k2 (GET wurl)
    /\ (1 <= k1 <= 3)%nat /\ (k2 <= 3)%nat
    /\ ((1 <= k2)%nat ->
        exists id, wurl = weather_url "K" (py_str
                     (scripted_world [HttpResponse (Some geocoding_ok);
                                      HttpResponse (Some weather_ok)]
                        noon_2024_03_15) id)).
Proof.
  split; [reflexivity|].
  destruct (get_weather_calls "K" "Beijing"
              (scripted_world [HttpResponse (Some geocoding_ok);
                               HttpResponse (Some weather_ok)] noon_2024_03_15)
              initial_state) as (_ & Hfirst & _ & _).
  destruct (Hfirst eq_refl) as (k1 & k2 & wurl & Hreq & Hk1 & Hk2 & _ & _ & Hurl).
  exists k1, k2, wurl. split; [exact Hreq|]. split; [exact Hk1|].
  split; [exact Hk2|]. intros Hk. destruct (Hurl Hk) as (v1 & id & _ & _ & ->).
  by exists id.
Defined.

(* ================================================================== *)
(** * What a computation leaves alone *)
(* ================================================================== *)

Section preserves.
Context (R : state -> state -> Prop) `{!PreOrder R}.

Lemma preserves_same {A} (c : M A) :
  (forall W s, (c W s).2 = s) -> preserves R c.
Proof. intros H W s. by rewrite H. Qed.

Lemma preserves_bind {A B} (c : M A) (f : A -> M B) :
  preserves R c -> (forall a, preserves R (f a)) -> preserves R (bind c f).
Proof.
  intros Hc Hf W s. unfold bind. specialize (Hc W s).
  destruct (c W s) as [[a|e] s1]; [|exact Hc].
  etrans; [exact Hc | apply Hf].
Qed.

Lemma preserves_try_except {A} (c : M A) (h : exn -> M A) :
  preserves R c -> (forall e, preserves R (h e)) ->
  preserves R (try_except c h).
Proof.
  intros Hc Hh W s. unfold try_except. specialize (Hc W s).
  destruct (c W s) as [[a|e] s1]; [exact Hc|].
  etrans; [exact Hc | apply Hh].
Qed.

Lemma preserves_capture {A} (c : M A) :
  preserves R c -> preserves R (capture c).
Proof. intros Hc W s. apply Hc. Qed.

Lemma preserves_get_with_retry_loop (url : string) (n : nat) :
  preserves R (requests_get url) ->
  (forall msg, preserves R (logging WARNING msg)) ->
  preserves R (get_with_retry_loop url n).
Proof.
  intros Hget Hlog. induction n as [|n IH]; cbn [get_with_retry_loop].
  - by apply preserves_same.
  - apply preserves_try_except.
    + apply preserves_bind; [exact Hget|]. intros body.
      apply preserves_same. intros W s. by destruct body.
    + intros e. apply preserves_bind; [apply Hlog | intros _; exact IH].
Qed.

Lemma preserves_entries_loop (prefix : string)
    (text : world -> entry -> outcome string) (entries : list entry) :
  preserves R get_color ->
  forall idx acc, preserves R (entries_loop prefix text idx entries acc).
Proof.
  intros Hcolor. induction entries as [|e rest IH]; intros idx acc;
    cbn [entries_loop].
  - by apply preserves_same.
  - apply preserves_bind; [by apply preserves_same|]. intros W'.
    apply preserves_bind; [by apply preserves_same|]. intros v.
    apply preserves_bind; [exact Hcolor|]. intros c. apply IH.
Qed.

Lemma preserves_run_tasks (order : list nat) (tasks : list (M bool)) :
  Forall (preserves R) tasks ->
  forall futures, preserves R (run_tasks order tasks futures).
Proof.
  intros Htasks. induction order as [|i order IH]; intros futures;
    cbn [run_tasks]; [by apply preserves_same|].
  destruct (tasks !! i) as [task|] eqn:Hi; [|apply IH].
  destruct (futures !! i) as [[r|]|]; try apply IH.
  apply preserves_bind; [|intros ?; apply IH].
  apply preserves_capture. exact (Forall_lookup_1 _ _ _ _ Htasks Hi).
Qed.

Lemma preserves_finish_tasks (tasks : list (M bool)) :
  Forall (preserves R) tasks ->
  forall futures, preserves R (finish_tasks tasks futures).
Proof.
  induction 1 as [|task tasks Htask Htasks IH]; intros futures;
    cbn [finish_tasks]; [by apply preserves_same|].
  destruct futures as [|f fs]; [by apply preserves_same|].
  apply preserves_bind.
  - destruct f; [by apply preserves_same | by apply preserves_capture].
  - intros r. apply preserves_bind; [apply IH|].
    intros ?. by apply preserves_same.
Qed.

Lemma preserves_thread_pool (tasks : list (M bool)) :
  Forall (preserves R) tasks -> preserves R (thread_pool tasks).
Proof.
  intros Htasks. unfold thread_pool.
  apply preserves_bind; [by apply preserves_same|]. intros W'.
  apply preserves_bind; [by apply preserves_run_tasks|].
  intros ?. by apply preserves_finish_tasks.
Qed.

Lemma preserves_response_json (body : option pyval) :
  preserves R (response_json body).
Proof. apply preserves_same. intros W s. by destruct body. Qed.

Lemma preserves_future_results (futures : list (outcome bool)) :
  preserves R (future_results futures).
Proof.
  induction futures as [|f fs IH]; cbn [future_results];
    [by apply preserves_same|].
  apply preserves_bind; [by apply preserves_same|]. intros b.
  apply preserves_bind; [exact IH|]. intros bs. by apply preserves_same.
Qed.
End preserves.

(** Splits a computation along its binds, handlers and tests; [prim]
    closes the steps that change the state. *)
Ltac preserves_steps prim :=
  repeat lazymatch goal with
  | |- preserves _ (bind _ _) => apply preserves_bind; [apply _ | | intros ?]
  | |- preserves _ (try_except _ _) =>
      apply preserves_try_except; [apply _ | | intros ?]
  | |- preserves _ (capture _) => apply preserves_capture
  | |- preserves _ (response_json _) =>
      apply preserves_response_json; apply _
  | |- preserves _ (if ?b then _ else _) => destruct b
  | |- preserves _ (match ?x with _ => _ end) => destruct x
  | |- preserves _ _ =>
      first [ assumption
            | apply preserves_same; [apply _ | intros ? ?; reflexivity]
            | prim ]
  end.

(** ** The two phases of a run *)

#[local] Instance issues_only_preorder (P : request -> Prop) :
  PreOrder (issues_only P).
Proof.
  split.
  - intros s. exists []. by rewrite app_nil_r.
  - intros s1 s2 s3 (n1 & H1 & P1) (n2 & H2 & P2).
    exists (n1 ++ n2). split; [by rewrite H2, H1, <- app_assoc|].
    by apply Forall_app.
Qed.

#[local] Instance weather_phase_preorder : PreOrder weather_phase.
Proof.
  split.
  - intros s. repeat split. reflexivity.
  - intros s1 s2 s3 (?&?&H12) (?&?&H23).
    split; [congruence|]. split; [congruence|]. by etrans.
Qed.

#[local] Instance messaging_phase_preorder (a b : string) :
  PreOrder (messaging_phase a b).
Proof.
  split.
  - intros s. repeat split. reflexivity.
  - intros s1 s2 s3 (?&?&H12) (?&?&H23).
    split; [congruence|]. split; [congruence|]. by etrans.
Qed.

Lemma issues_only_none (P : request -> Prop) (s s' : state) :
  requests s' = requests s -> issues_only P s s'.
Proof. intros H. exists []. by rewrite app_nil_r. Qed.

Lemma issues_only_one (P : request -> Prop) (s s' : state) (r : request) :
  requests s' = requests s ++ [r] -> P r -> issues_only P s s'.
Proof. intros H Hr. exists [r]. split; [done|]. by constructor. Qed.

(** *** The composition *)

Lemma weather_phase_quiet {A} (c : M A) :
  (forall W s, requests (c W s).2 = requests s
               /\ access_token (c W s).2 = access_token s
               /\ token_expire (c W s).2 = token_expire s) ->
  preserves weather_phase c.
Proof.
  intros H W s. destruct (H W s) as (Hr & Ha & He).
  split; [done|]. split; [done|]. by apply issues_only_none.
Qed.

Lemma weather_phase_requests_get (url : string) :
  String.prefix "https://geoapi.qweather.com/" url = true
  \/ String.prefix "https://devapi.qweather.com/" url = true ->
  preserves weather_phase (requests_get url).
Proof.
  intros Hurl W s. unfold requests_get.
  destruct (http_oracle W _ _); cbn;
    (split; [done|]); (split; [done|]);
    (eapply issues_only_one; [done|]); by exists url.
Qed.

Ltac weather_quiet :=
  apply weather_phase_quiet; intros ? ?; repeat split; reflexivity.

Lemma weather_phase_get_with_retry (url : string) (n : Z) :
  String.prefix "https://geoapi.qweather.com/" url = true
  \/ String.prefix "https://devapi.qweather.com/" url = true ->
  preserves weather_phase (get_with_retry url n).
Proof.
  intros Hurl. unfold get_with_retry.
  apply preserves_get_with_retry_loop; [apply _| |].
  - by apply weather_phase_requests_get.
  - intros msg. weather_quiet.
Qed.

Lemma weather_phase_get_weather (key region : string) :
  preserves weather_phase (get_weather key region).
Proof.
  unfold get_weather.
  preserves_steps ltac:(first
    [ apply weather_phase_get_with_retry; (by left) || (by right)
    | weather_quiet ]).
Qed.

Lemma weather_phase_get_color : preserves weather_phase get_color.
Proof. weather_quiet. Qed.

Lemma weather_phase_generate_message_data (cfg : config) :
  preserves weather_phase (generate_message_data cfg).
Proof.
  unfold generate_message_data, weather_fields, base_data_of.
  preserves_steps ltac:(first
    [ apply weather_phase_get_weather
    | apply preserves_entries_loop; [apply _ | apply weather_phase_get_color]
    | weather_quiet ]).
Qed.

#[local] Instance same_requests_preorder : PreOrder same_requests.
Proof.
  split; [done|]. intros s1 s2 s3 H12 H23. unfold same_requests in *. congruence.
Qed.

(** After the weather is resolved, the composition issues no request. *)
Lemma generate_message_data_requests (cfg : config) (W : world) (s : state) :
  requests (generate_message_data cfg W s).2
  = requests (get_weather (weather_key cfg) (region cfg) W
                (after_clock_read s)).2.
Proof.
  rewrite generate_message_data_stages. cbv zeta.
  assert (Hrest : forall w today,
    preserves same_requests
      (let* base_data := base_data_of today cfg w in
       generated_entries cfg today base_data)).
  { intros w today. unfold base_data_of, generated_entries, get_color.
    preserves_steps ltac:(first
      [ apply preserves_entries_loop; [apply _ | intros ? ?; reflexivity]
      | intros ? ?; reflexivity ]). }
  unfold bind at 1. unfold weather_fields, try_except, bind at 1.
  destruct (get_weather _ _ W (after_clock_read s)) as [[snap|e] s1]; cbn.
  - apply (Hrest _ _ W s1).
  - match goal with |- requests (_ ?w W ?st).2 = _ =>
      exact (Hrest _ _ W st) end.
Qed.

(** *** The dispatch *)

Lemma messaging_phase_quiet (a b : string) {A} (c : M A) :
  (forall W s, requests (c W s).2 = requests s
               /\ cache (c W s).2 = cache s
               /\ rand_draws (c W s).2 = rand_draws s) ->
  preserves (messaging_phase a b) c.
Proof.
  intros H W s. destruct (H W s) as (Hr & Hc & Hd).
  split; [done|]. split; [done|]. by apply issues_only_none.
Qed.

Ltac messaging_quiet :=
  apply messaging_phase_quiet; intros ? ?; repeat split; reflexivity.

Lemma messaging_phase_token_request (a b : string) :
  preserves (messaging_phase a b) (requests_get (token_url a b)).
Proof.
  intros W s. unfold requests_get.
  destruct (http_oracle W _ _); cbn;
    (split; [done|]); (split; [done|]);
    (eapply issues_only_one; [done|]); by left.
Qed.

Lemma messaging_phase_send_request (a b token : string)
    (body : template_message) :
  preserves (messaging_phase a b) (requests_post (send_url token) body).
Proof.
  intros W s. unfold requests_post.
  destruct (http_oracle W _ _); cbn;
    (split; [done|]); (split; [done|]);
    (eapply issues_only_one; [done|]); right; eauto.
Qed.

Lemma messaging_phase_get_access_token (a b : string) :
  preserves (messaging_phase a b) (get_access_token a b).
Proof.
  unfold get_access_token.
  preserves_steps ltac:(first
    [ apply messaging_phase_token_request | messaging_quiet ]).
Qed.

Lemma messaging_phase_send_template_message (a b u : string)
    (td : template_message) :
  preserves (messaging_phase a b) (send_template_message a b u td).
Proof.
  unfold send_template_message.
  preserves_steps ltac:(first
    [ apply messaging_phase_get_access_token
    | apply messaging_phase_send_request
    | messaging_quiet ]).
Qed.

Lemma messaging_phase_dispatch (cfg : config)
    (data : gmap string field_entry) :
  preserves (messaging_phase (app_id cfg) (app_secret cfg)) (dispatch cfg data).
Proof.
  unfold dispatch.
  apply preserves_bind; [apply _| |intros futures].
  - apply preserves_thread_pool; [apply _|].
    apply Forall_map, Forall_forall. intros u _.
    apply messaging_phase_send_template_message.
  - apply preserves_bind; [apply _| |intros results].
    + apply preserves_future_results. apply _.
    + messaging_quiet.
Qed.

Lemma send_messages_phases (cfg : config) :
  send_messages cfg = bind (generate_message_data cfg) (dispatch cfg).
Proof. reflexivity. Qed.

(** ** Properties of the two phases *)

Lemma get_weather_request_count (key region : string) (W : world) (s : state) :
  (length (requests (get_weather key region W s).2)
   <= length (requests s) + 6)%nat
  /\ (is_Some (cache s !! region) ->
      requests (get_weather key region W s).2 = requests s).
Proof.
  destruct (cache s !! region) as [snap|] eqn:Hc.
  - rewrite (get_weather_cached key region W s snap Hc). cbn. split; [lia|done].
  - destruct (get_weather_uncached key region W s Hc)
      as (k1 & k2 & wurl & r & s' & Hrun & Hreq & Hk1 & Hk2 & _).
    rewrite Hrun. cbn. split; [|by intros [? ?]].
    rewrite Hreq, !length_app, !length_replicate. lia.
Qed.

(** The composition reads the clock once, issues at most six requests, all
    of them GETs to the weather provider, and none when the region is
    cached; it never changes the token or its expiry. *)
Theorem generate_message_data_effects (cfg : config) (W : world) (s : state) :
  let s' := (generate_message_data cfg W s).2 in
  access_token s' = access_token s
  /\ token_expire s' = token_expire s
  /\ (exists new, requests s' = requests s ++ new
                  /\ Forall to_weather_provider new
                  /\ (length new <= 6)%nat)
  /\ (is_Some (cache s !! region cfg) -> requests s' = requests s).
Proof.
  cbv zeta.
  destruct (weather_phase_generate_message_data cfg W s)
    as (Htok & Hexp & new & Hreq & Hnew).
  pose proof (generate_message_data_requests cfg W s) as Hsame.
  destruct (get_weather_request_count (weather_key cfg) (region cfg) W
              (after_clock_read s)) as [Hcount Hcached].
  split; [exact Htok|]. split; [exact Hexp|]. split.
  - exists new. split; [exact Hreq|]. split; [exact Hnew|].
    rewrite <- Hsame, Hreq, length_app in Hcount. cbn in Hcount. lia.
  - intros Hc. rewrite Hsame. apply Hcached. exact Hc.
Qed.

(** A state whose cache already holds Beijing: nothing is requested, even
    though the weather service is unreachable. *)
Lemma generate_message_data_effects_witness :
  requests (generate_message_data sample_config no_weather_world
              (State [] 0 0 [] {["Beijing" := (PStr "Sunny", "21°C", PStr "NE")]}
                 PNone (float_of_Z 0))).2 = [].
Proof.
  destruct (generate_message_data_effects sample_config no_weather_world
              (State [] 0 0 [] {["Beijing" := (PStr "Sunny", "21°C", PStr "NE")]}
                 PNone (float_of_Z 0))) as (_ & _ & _ & Hcached).
  apply Hcached. exists (PStr "Sunny", "21°C", PStr "NE"). reflexivity.
Defined.

(** A run of [send_messages] talks first to the weather provider only,
    then to the messaging provider only; the dispatch leaves the weather
    cache as the composition left it and draws no colour. *)
Theorem send_messages_two_phases (cfg : config) (W : world) (s : state) :
  let s1 := (generate_message_data cfg W s).2 in
  let s' := (send_messages cfg W s).2 in
  exists weather messaging,
    requests s1 = requests s ++ weather
    /\ requests s' = requests s ++ weather ++ messaging
    /\ Forall to_weather_provider weather
    /\ Forall (to_messaging_provider (app_id cfg) (app_secret cfg)) messaging
    /\ cache s' = cache s1
    /\ rand_draws s' = rand_draws s1.
Proof.
  cbv zeta.
  destruct (weather_phase_generate_message_data cfg W s)
    as (_ & _ & weather & Hreq1 & Hweather).
  rewrite send_messages_phases. unfold bind.
  destruct (generate_message_data cfg W s) as [[data|e] s1]; cbn [snd] in *.
  - destruct (messaging_phase_dispatch cfg data W s1)
      as (Hcache & Hdraws & messaging & Hreq2 & Hmessaging).
    exists weather, messaging. rewrite Hreq2, Hreq1, <- app_assoc. done.
  - exists weather, []. rewrite app_nil_r. done.
Qed.

(* ================================================================== *)
(** * More on [WeatherAPI] *)
(* ================================================================== *)

(** ** Warnings of [get_with_retry] *)

Lemma get_with_retry_loop_log (n : nat) :
  forall W s url,
  exists (warnings : list (level * string)) (v : pyval) (s' : state) (k : nat),
    get_with_retry_loop url n W s = (Return v, s')
    /\ requests s' = requests s ++ replicate k (GET url)
    /\ log s' = log s ++ warnings
    /\ Forall (fun l => l.1 = WARNING) warnings
    /\ ((attempt W (length (requests s) + length warnings) url = Some v
         /\ k = S (length warnings))
        \/ (v = PNone /\ k = length warnings /\ k = n)).
Proof.
  induction n as [|n IH]; intros W s url.
  - exists [], PNone, s, 0%nat. cbn. rewrite !app_nil_r.
    repeat split; try done. by right.
  - assert (Hagain : forall st msg,
      requests st = requests s ++ [GET url] ->
      log st = log s ++ [(WARNING, msg)] ->
      exists warnings v s' k,
        get_with_retry_loop url n W st = (Return v, s')
        /\ requests s' = requests s ++ replicate k (GET url)
        /\ log s' = log s ++ warnings
        /\ Forall (fun l => l.1 = WARNING) warnings
        /\ ((attempt W (length (requests s) + length warnings) url = Some v
             /\ k = S (length warnings))
            \/ (v = PNone /\ k = length warnings /\ k = S n))).
    { intros st msg Hreq Hlog.
      destruct (IH W st url) as (ws & v & s' & k & Hrun & Hreq' & Hlog' & Hws & Hcase).
      exists ((WARNING, msg) :: ws), v, s', (S k).
      split; [exact Hrun|].
      split. { rewrite Hreq', Hreq, <- app_assoc. done. }
      split. { rewrite Hlog', Hlog, <- app_assoc. done. }
      split. { by constructor. }
      rewrite Hreq, length_app in Hcase. cbn in Hcase. cbn [length].
      destruct Hcase as [[Hv ->]|(-> & -> & <-)].
      - left. split; [|done]. rewrite <- Hv. f_equal. lia.
      - by right. }
    cbn [get_with_retry_loop]. unfold try_except.
    rewrite bind_requests_get. cbv zeta.
    destruct (http_oracle W (length (requests s)) (GET url)) as [msg|body] eqn:Hcall.
    + rewrite bind_logging. eapply Hagain; reflexivity.
    + destruct body as [v|]; cbn [response_json ret raise].
      * eexists [], v, _, 1%nat. split; [reflexivity|]. cbn. rewrite !app_nil_r.
        repeat split; try done. left. split; [|done].
        unfold attempt. rewrite Nat.add_0_r, Hcall. done.
      * rewrite bind_logging. eapply Hagain; reflexivity.
Qed.

(** [get_with_retry] writes one warning for each attempt that failed and
    nothing else: when it stops on a successful attempt the warnings are
    one fewer than the requests, and when it gives up they are as many.
    With a budget of zero or less it issues no request and returns
    [None]. *)
Theorem get_with_retry_warnings (W : world) (s : state) (url : string) (n : Z) :
  (exists (warnings : list (level * string)) (v : pyval) (s' : state) (k : nat),
     get_with_retry url n W s = (Return v, s')
     /\ requests s' = requests s ++ replicate k (GET url)
     /\ log s' = log s ++ warnings
     /\ Forall (fun l => l.1 = WARNING) warnings
     /\ ((attempt W (length (requests s) + length warnings) url = Some v
          /\ k = S (length warnings))
         \/ (v = PNone /\ k = length warnings /\ k = Z.to_nat n)))
  /\ (n <= 0 -> get_with_retry url n W s = (Return PNone, s)).
Proof.
  split.
  - apply get_with_retry_loop_log.
  - intros Hn. unfold get_with_retry. by replace (Z.to_nat n) with 0%nat by lia.
Qed.

Lemma get_with_retry_warnings_witness :
  get_with_retry "http://example/" 0
    (scripted_world [HttpResponse (Some (PInt 7))] noon_2024_03_15) initial_state
  = (Return PNone, initial_state).
Proof.
  destruct (get_with_retry_warnings
              (scripted_world [HttpResponse (Some (PInt 7))] noon_2024_03_15)
              initial_state "http://example/" 0) as [_ Hzero].
  apply Hzero. lia.
Defined.

(** ** The cache of [get_weather] *)

(** Once [get_weather] has returned a snapshot for a region, asking again
    for that region gives the same snapshot and leaves the state as it
    is, whatever the world has become and whatever the key. *)
Theorem get_weather_memoized (key key' region : string) (W W' : world)
    (s s1 : state) (snap : snapshot) :
  get_weather key region W s = (Return snap, s1) ->
  get_weather key' region W' s1 = (Return snap, s1).
Proof.
  intros Hrun. apply get_weather_cached.
  destruct (cache s !! region) as [cached|] eqn:Hc.
  - rewrite (get_weather_cached key region W s cached Hc) in Hrun.
    by injection Hrun as -> ->.
  - destruct (get_weather_uncached key region W s Hc)
      as (k1 & k2 & wurl & r & s' & Hrun' & _ & _ & _ & Hres & _).
    rewrite Hrun in Hrun'. injection Hrun' as <- <-.
    destruct Hres as [_ ->]. apply lookup_insert_eq.
Qed.

Lemma get_weather_memoized_witness :
  let W := scripted_world [HttpResponse (Some geocoding_ok);
                           HttpResponse (Some weather_ok)] noon_2024_03_15 in
  let s1 := (get_weather "K" "Beijing" W initial_state).2 in
  get_weather "K" "Beijing" no_weather_world s1
  = (Return (PStr "Sunny", "21°C", PStr "NE"), s1).
Proof.
  cbv zeta.
  apply (get_weather_memoized "K" "K" "Beijing"
           (scripted_world [HttpResponse (Some geocoding_ok);
                            HttpResponse (Some weather_ok)] noon_2024_03_15)
           no_weather_world initial_state).
  reflexivity.
Defined.

(** ** Failures of [get_weather] *)

Lemma getitem_key_raises (v : pyval) (k : string) (e : exn) :
  getitem_key v k = Raise e -> data_error e.
Proof.
  unfold data_error.
  destruct v as [| | | | | |d]; cbn; try (intros [= <-]; cbn; auto).
  destruct (d !! k); [done|]. intros [= <-]. cbn. auto.
Qed.

Lemma getitem_index_raises (v : pyval) (i : nat) (e : exn) :
  getitem_index v i = Raise e -> data_error e.
Proof.
  unfold data_error.
  destruct v as [| | | |s|l|d]; cbn; try (intros [= <-]; cbn; auto).
  - destruct (utf8_chars s !! i); [done|]. intros [= <-]. cbn. auto.
  - unfold list_item. destruct (l !! i); [done|]. intros [= <-]. cbn. auto.
Qed.

Lemma lookup_failed_raises (v : pyval) (e : exn) :
  lookup_failed v = Raise e -> data_error e.
Proof.
  unfold lookup_failed. destruct (negb (truthy v)); [done|].
  destruct (getitem_key v "code") as [c|e'] eqn:Hc; [done|].
  intros [= <-]. by eapply getitem_key_raises.
Qed.

Lemma location_id_of_raises (v : pyval) (e : exn) :
  location_id_of v = Raise e -> data_error e.
Proof.
  unfold location_id_of.
  destruct (getitem_key v "location") as [l|e1] eqn:H1; cbn;
    [|intros [= <-]; by eapply getitem_key_raises].
  destruct (getitem_index l 0) as [f|e2] eqn:H2; cbn;
    [|intros [= <-]; by eapply getitem_index_raises].
  apply getitem_key_raises.
Qed.

Lemma snapshot_of_raises (W : world) (v : pyval) (e : exn) :
  snapshot_of W v = Raise e -> data_error e.
Proof.
  unfold snapshot_of.
  destruct (getitem_key v "now") as [now|e1] eqn:H1; cbn;
    [|intros [= <-]; by eapply getitem_key_raises].
  destruct (getitem_key now "text") as [t|e2] eqn:H2; cbn;
    [|intros [= <-]; by eapply getitem_key_raises].
  destruct (getitem_key now "temp") as [t'|e3] eqn:H3; cbn;
    [|intros [= <-]; by eapply getitem_key_raises].
  destruct (getitem_key now "windDir") as [w|e4] eqn:H4; cbn;
    [done|intros [= <-]; by eapply getitem_key_raises].
Qed.

(** When [get_weather] raises, the region was not cached and the cache is
    left as it was, so that a later query tries again; the exception is
    one of the two lookup errors or comes from subscripting an answer.  A
    transport failure or a body that is not JSON never escapes. *)
Theorem get_weather_failure (key region : string) (W : world) (s s1 : state)
    (e : exn) :
  get_weather key region W s = (Raise e, s1) ->
  cache s !! region = None
  /\ cache s1 = cache s
  /\ (e = region_lookup_error \/ e = weather_lookup_error \/ data_error e)
  /\ exn_class e <> RequestException
  /\ exn_class e <> JSONDecodeError.
Proof.
  intros Hrun.
  assert (Hclass : e = region_lookup_error \/ e = weather_lookup_error
                   \/ data_error e ->
                   exn_class e <> RequestException
                   /\ exn_class e <> JSONDecodeError).
  { intros [->|[->|[H|[H|H]]]]; cbn; rewrite ?H; done. }
  destruct (cache s !! region) as [cached|] eqn:Hc.
  { by rewrite (get_weather_cached key region W s cached Hc) in Hrun. }
  split; [done|].
  destruct (get_weather_uncached key region W s Hc)
    as (k1 & k2 & wurl & r & s' & Hrun' & _ & _ & _ & Hres & _).
  rewrite Hrun in Hrun'. injection Hrun' as <- <-.
  split; [exact Hres|].
  enough (Hkind : e = region_lookup_error \/ e = weather_lookup_error
                  \/ data_error e) by (split; [exact Hkind | by apply Hclass]).
  clear Hclass Hres. revert Hrun.
  destruct (get_with_retry_3 W s (location_url key region))
    as (j1 & v1 & t1 & Hrun1 & _).
  unfold get_weather. rewrite bind_get_state, Hc.
  unfold bind at 1. rewrite Hrun1. rewrite bind_lift.
  destruct (lookup_failed v1) as [[|]|e1] eqn:Hf1.
  - intros [= <- _]. by left.
  - rewrite bind_lift.
    destruct (location_id_of v1) as [id|e2] eqn:Hid.
    + rewrite bind_ask.
      destruct (get_with_retry_3 W t1 (weather_url key (py_str W id)))
        as (j2 & v2 & t2 & Hrun2 & _).
      unfold bind at 1. rewrite Hrun2. rewrite bind_lift.
      destruct (lookup_failed v2) as [[|]|e3] eqn:Hf2.
      * intros [= <- _]. right. by left.
      * rewrite bind_lift.
        destruct (snapshot_of W v2) as [snap|e4] eqn:Hsnap; [done|].
        intros [= <- _]. right. right. by eapply snapshot_of_raises.
      * intros [= <- _]. right. right. by eapply lookup_failed_raises.
    + intros [= <- _]. right. right. by eapply location_id_of_raises.
  - intros [= <- _]. right. right. by eapply lookup_failed_raises.
Qed.

Lemma get_weather_failure_witness :
  cache (get_weather "K" "Beijing" no_weather_world initial_state).2
  = cache initial_state.
Proof.
  destruct (get_weather_failure "K" "Beijing" no_weather_world initial_state
              (get_weather "K" "Beijing" no_weather_world initial_state).2
              region_lookup_error eq_refl) as (_ & Hcache & _).
  exact Hcache.
Defined.

(** ** A lookup that succeeds at once *)

Lemma get_with_retry_first_try (W : world) (s : state) (url : string)
    (v : pyval) :
  http_oracle W (length (requests s)) (GET url) = HttpResponse (Some v) ->
  get_with_retry url 3 W s = (Return v, after_request (GET url) s).
Proof.
  intros Hcall. unfold get_with_retry. change (Z.to_nat 3) with 3%nat.
  cbn [get_with_retry_loop]. unfold try_except.
  rewrite bind_requests_get, Hcall. reflexivity.
Qed.

(** When the geocoding answer reports ["200"] with a first location that
    has an ["id"], and the weather answer for that id reports ["200"]
    with the three fields under ["now"], a first query issues exactly
    these two requests, returns the text, the temperature followed by
    ["°C"] and the wind direction, and stores them under the region. *)
Theorem get_weather_resolves (key region : string) (W : world) (s : state)
    (d1 first d2 now : gmap string pyval) (rest : list pyval)
    (id text temp wind : pyval) :
  cache s !! region = None ->
  http_oracle W (length (requests s)) (GET (location_url key region))
  = HttpResponse (Some (PDict d1)) ->
  d1 !! "code" = Some (PStr "200") ->
  d1 !! "location" = Some (PList (PDict first :: rest)) ->
  first !! "id" = Some id ->
  http_oracle W (S (length (requests s)))
    (GET (weather_url key (py_str W id)))
  = HttpResponse (Some (PDict d2)) ->
  d2 !! "code" = Some (PStr "200") ->
  d2 !! "now" = Some (PDict now) ->
  now !! "text" = Some text ->
  now !! "temp" = Some temp ->
  now !! "windDir" = Some wind ->
  get_weather key region W s
  = (Return (text, py_str W temp +:+ "°C", wind),
     with_snapshot region (text, py_str W temp +:+ "°C", wind)
       (after_request (GET (weather_url key (py_str W id)))
          (after_request (GET (location_url key region)) s))).
Proof.
  intros Hc Hcall1 Hcode1 Hloc Hid Hcall2 Hcode2 Hnow Htext Htemp Hwind.
  assert (Hne1 : d1 <> ∅) by (intros ->; by rewrite lookup_empty in Hcode1).
  assert (Hne2 : d2 <> ∅) by (intros ->; by rewrite lookup_empty in Hcode2).
  unfold get_weather. rewrite bind_get_state, Hc.
  unfold bind at 1. rewrite (get_with_retry_first_try W s _ _ Hcall1).
  rewrite bind_lift. unfold lookup_failed at 1.
  rewrite truthy_dict by done. cbn [negb getitem_key]. rewrite Hcode1.
  cbn [obind eq_str]. rewrite String.eqb_refl. cbn [negb].
  rewrite bind_lift. unfold location_id_of. cbn [getitem_key]. rewrite Hloc.
  cbn [obind getitem_index list_item lookup list_lookup getitem_key].
  rewrite Hid. rewrite bind_ask.
  unfold bind at 1.
  rewrite (get_with_retry_first_try W _ _ (PDict d2)).
  2:{ cbn. rewrite length_app. cbn. rewrite Nat.add_1_r. exact Hcall2. }
  rewrite bind_lift. unfold lookup_failed at 1.
  rewrite truthy_dict by done. cbn [negb getitem_key]. rewrite Hcode2.
  cbn [obind eq_str]. rewrite String.eqb_refl. cbn [negb].
  rewrite bind_lift. unfold snapshot_of. cbn [getitem_key].
  rewrite Hnow. cbn [obind getitem_key]. rewrite Htext, Htemp, Hwind.
  cbn [obind]. reflexivity.
Qed.

Lemma get_weather_resolves_witness :
  get_weather "K" "Beijing"
    (scripted_world [HttpResponse (Some geocoding_ok);
                     HttpResponse (Some weather_ok)] noon_2024_03_15)
    initial_state
  = (Return (PStr "Sunny", "21°C", PStr "NE"),
     with_snapshot "Beijing" (PStr "Sunny", "21°C", PStr "NE")
       (after_request (GET (weather_url "K" "101010100"))
          (after_request (GET (location_url "K" "Beijing")) initial_state))).
Proof.
  apply (get_weather_resolves "K" "Beijing"
           (scripted_world [HttpResponse (Some geocoding_ok);
                            HttpResponse (Some weather_ok)] noon_2024_03_15)
           initial_state
           (list_to_map [("code", PStr "200");
                         ("location", PList [dict [("id", PStr "101010100")]])])
           (list_to_map [("id", PStr "101010100")])
           (list_to_map [("code", PStr "200");
                         ("now", dict [("text", PStr "Sunny"); ("temp", PStr "21");
                                       ("windDir", PStr "NE")])])
           (list_to_map [("text", PStr "Sunny"); ("temp", PStr "21");
                         ("windDir", PStr "NE")])
           [] (PStr "101010100") (PStr "Sunny") (PStr "21") (PStr "NE"));
    reflexivity.
Defined.

(* ================================================================== *)
(** * More on [WeChatService] *)
(* ================================================================== *)

(** When the token is stale and the token endpoint answers with a JSON
    object that has no ["access_token"], [get_access_token] raises the
    authentication error after one request, logs the answer, and leaves
    the stored token and expiry untouched. *)
Theorem get_access_token_rejected (a b : string) (W : world) (s : state)
    (d : gmap string pyval) :
  float_lt (timestamp (clock_oracle W (clock_reads s))) (token_expire s) = false ->
  http_oracle W (length (requests s)) (GET (token_url a b))
  = HttpResponse (Some (PDict d)) ->
  d !! "access_token" = None ->
  get_access_token a b W s
  = (Raise auth_error,
     after_log ERROR ("获取Token失败: " +:+ py_str W (PDict d))
       (after_request (GET (token_url a b)) (after_clock_read s))).
Proof.
  intros Hstale Hcall Hnone.
  rewrite (get_access_token_stale a b W s Hstale).
  unfold refresh. rewrite bind_requests_get. cbv zeta.
  change (length (requests (after_clock_read s))) with (length (requests s)).
  rewrite Hcall. rewrite bind_response_json, bind_lift. cbn [contains_key].
  rewrite bool_decide_eq_false_2 by (rewrite Hnone; by intros [? ?]).
  cbn [negb]. rewrite bind_ask, bind_logging. reflexivity.
Qed.

Lemma get_access_token_rejected_witness :
  let W := scripted_world
             [HttpResponse (Some (dict [("errcode", PInt 40013)]))]
             noon_2024_03_15 in
  (get_access_token "A" "S" W initial_state).1 = Raise auth_error
  /\ access_token (get_access_token "A" "S" W initial_state).2 = PNone
  /\ token_expire (get_access_token "A" "S" W initial_state).2 = float_of_Z 0.
Proof.
  cbv zeta.
  rewrite (get_access_token_rejected "A" "S"
             (scripted_world
                [HttpResponse (Some (dict [("errcode", PInt 40013)]))]
                noon_2024_03_15)
             initial_state (list_to_map [("errcode", PInt 40013)])).
  - repeat split.
  - reflexivity.
  - reflexivity.
  - reflexivity.
Defined.

(** When the answer carries a token but no ["expires_in"],
    [get_access_token] raises [KeyError] with the new token already
    stored and the old expiry kept: the token is replaced, yet it stays
    stale. *)
Theorem get_access_token_without_lifetime (a b : string) (W : world)
    (s : state) (d : gmap string pyval) (tok : pyval) :
  float_lt (timestamp (clock_oracle W (clock_reads s))) (token_expire s) = false ->
  http_oracle W (length (requests s)) (GET (token_url a b))
  = HttpResponse (Some (PDict d)) ->
  d !! "access_token" = Some tok ->
  d !! "expires_in" = None ->
  exists s',
    get_access_token a b W s = (Raise (key_error "expires_in"), s')
    /\ access_token s' = tok
    /\ token_expire s' = token_expire s
    /\ requests s' = requests s ++ [GET (token_url a b)].
Proof.
  intros Hstale Hcall Htok Hnone.
  rewrite (get_access_token_stale a b W s Hstale).
  unfold refresh. rewrite bind_requests_get. cbv zeta.
  change (length (requests (after_clock_read s))) with (length (requests s)).
  rewrite Hcall. rewrite bind_response_json, bind_lift. cbn [contains_key].
  rewrite bool_decide_eq_true_2 by (rewrite Htok; eauto). cbn [negb].
  rewrite bind_lift. cbn [getitem_key]. rewrite Htok.
  rewrite bind_set_access_token, bind_datetime_now, bind_lift.
  cbn [getitem_key]. rewrite Hnone.
  eexists. split; [reflexivity|]. done.
Qed.

Lemma get_access_token_without_lifetime_witness :
  exists s',
    get_access_token "A" "S"
      (scripted_world
         [HttpResponse (Some (dict [("access_token", PStr "TOKEN")]))]
         noon_2024_03_15)
      initial_state = (Raise (key_error "expires_in"), s')
    /\ access_token s' = PStr "TOKEN"
    /\ token_expire s' = token_expire initial_state
    /\ requests s' = requests initial_state ++ [GET (token_url "A" "S")].
Proof.
  apply (get_access_token_without_lifetime "A" "S"
           (scripted_world
              [HttpResponse (Some (dict [("access_token", PStr "TOKEN")]))]
              noon_2024_03_15)
           initial_state (list_to_map [("access_token", PStr "TOKEN")])).
  - reflexivity.
  - reflexivity.
  - reflexivity.
  - reflexivity.
Defined.

(** The token that [get_access_token] returns is the one it leaves
    stored. *)
Lemma get_access_token_returns_stored (a b : string) (W : world)
    (s s1 : state) (tok : pyval) :
  get_access_token a b W s = (Return tok, s1) -> access_token s1 = tok.
Proof.
  destruct (float_lt (timestamp (clock_oracle W (clock_reads s)))
              (token_expire s)) eqn:Hlt.
  - rewrite (get_access_token_cached a b W s Hlt).
    by intros [= <- <-].
  - rewrite (get_access_token_stale a b W s Hlt). intros Hret.
    by destruct (refresh_returns a b W (after_clock_read s) tok s1 Hret)
      as (d & e & secs & _ & _ & _ & _ & Htok & _).
Qed.

(** After a call that returned a token, every call whose clock reading is
    before the stored expiry returns that same token and issues no
    request. *)
Theorem get_access_token_reused (a b : string) (W W' : world) (s s1 : state)
    (tok : pyval) :
  get_access_token a b W s = (Return tok, s1) ->
  float_lt (timestamp (clock_oracle W' (clock_reads s1))) (token_expire s1) = true ->
  get_access_token a b W' s1 = (Return tok, after_clock_read s1).
Proof.
  intros Hfirst Hvalid.
  rewrite (get_access_token_cached a b W' s1 Hvalid).
  by rewrite (get_access_token_returns_stored a b W s s1 tok Hfirst).
Qed.

Lemma get_access_token_reused_witness :
  let W := scripted_world [HttpResponse (Some token_ok)] noon_2024_03_15 in
  let s1 := (get_access_token "A" "S" W initial_state).2 in
  get_access_token "A" "S" no_weather_world s1
  = (Return (PStr "TOKEN"), after_clock_read s1).
Proof.
  cbv zeta.
  apply (get_access_token_reused "A" "S"
           (scripted_world [HttpResponse (Some token_ok)] noon_2024_03_15)
           no_weather_world initial_state).
  - reflexivity.
  - reflexivity.
Defined.

(** ** Requests and exceptions of [send_template_message] *)

(** A send issues its POST only once the token is obtained: when
    [get_access_token] raises, the send raises the same exception in the
    same state; otherwise it issues exactly one POST, carrying the given
    body to the URL formed with the token.  It returns a boolean only for
    an answer that is a JSON object; a transport failure, a body that is
    not JSON and a JSON value that is not an object make it raise
    [RequestException], [JSONDecodeError] and [AttributeError]. *)
Theorem send_template_message_requests (a b u : string)
    (td : template_message) (W : world) (s : state) :
  (forall e s1, get_access_token a b W s = (Raise e, s1) ->
     send_template_message a b u td W s = (Raise e, s1))
  /\ (forall tok s1, get_access_token a b W s = (Return tok, s1) ->
        requests (send_template_message a b u td W s).2
        = requests s1 ++ [POST (send_url (py_str W tok)) td]
        /\ match http_oracle W (length (requests s1))
                   (POST (send_url (py_str W tok)) td) with
           | TransportFailure msg =>
               (send_template_message a b u td W s).1
               = Raise (Exn RequestException msg)
           | HttpResponse None =>
               exists e, (send_template_message a b u td W s).1 = Raise e
                         /\ exn_class e = JSONDecodeError
           | HttpResponse (Some (PDict d)) =>
               (send_template_message a b u td W s).1
               = Return (eq_int (default PNone (d !! "errcode")) 0)
           | HttpResponse (Some _) =>
               exists e, (send_template_message a b u td W s).1 = Raise e
                         /\ exn_class e = AttributeError
           end).
Proof.
  split.
  - intros e s1 Htoken. unfold send_template_message. unfold bind at 1.
    by rewrite Htoken.
  - intros tok s1 Htoken.
    pose proof (eq_refl (send_template_message a b u td W s)) as Hrun.
    unfold send_template_message at 2 in Hrun. unfold bind at 1 in Hrun.
    rewrite Htoken, bind_ask, bind_requests_post in Hrun. cbv zeta in Hrun.
    destruct (http_oracle W _ _) as [msg|[v|]].
    + rewrite Hrun. split; reflexivity.
    + rewrite bind_response_json, bind_lift in Hrun.
      destruct v as [| | | | | |d]; cbn [dict_get] in Hrun;
        try (rewrite Hrun; split; [reflexivity|];
             eexists; split; reflexivity).
      destruct (eq_int (default PNone (d !! "errcode")) 0); cbn [negb] in Hrun.
      * rewrite Hrun. split; reflexivity.
      * rewrite bind_logging in Hrun. rewrite Hrun. split; reflexivity.
    + rewrite bind_response_json in Hrun. rewrite Hrun.
      split; [reflexivity|]. eexists. split; reflexivity.
Qed.

Lemma send_template_message_requests_witness :
  let W := scripted_world [HttpResponse (Some token_ok);
                           HttpResponse (Some (PList []))] noon_2024_03_15 in
  requests (send_template_message "A" "S" "alice" sample_message W
              initial_state).2
  = [GET (token_url "A" "S"); POST (send_url "TOKEN") sample_message]
  /\ exists e, (send_template_message "A" "S" "alice" sample_message W
                  initial_state).1 = Raise e
               /\ exn_class e = AttributeError.
Proof.
  cbv zeta.
  destruct (send_template_message_requests "A" "S" "alice" sample_message
              (scripted_world [HttpResponse (Some token_ok);
                               HttpResponse (Some (PList []))] noon_2024_03_15)
              initial_state) as [_ Hsent].
  destruct (Hsent (PStr "TOKEN") _ eq_refl) as [Hreq Hout].
  split; [exact Hreq | exact Hout].
Defined.

(* ================================================================== *)
(** * More on [DateCalculator.get_color] *)
(* ================================================================== *)

Lemma hex_digit_spec (d : Z) :
  0 <= d < 16 ->
  is_hex_digit (hex_digit d) = true /\ hex_digit_value (hex_digit d) = d.
Proof.
  intros Hd. destruct d as [|p|p]; [split; reflexivity| |lia].
  do 4 (try destruct p as [p|p|]); try lia; split; reflexivity.
Qed.

Lemma hex6_spec (n : Z) :
  is_color ("#" +:+ hex6 n) = true
  /\ color_value ("#" +:+ hex6 n) = n mod 16777216.
Proof.
  change ("#" +:+ hex6 n) with (String "#" (hex6 n)).
  unfold hex6. cbn [map string_of_list_ascii is_color color_value].
  assert (Hd : forall i, 0 <= (n / 16 ^ i) mod 16 < 16)
    by (intros i; apply Z.mod_pos_bound; lia).
  destruct (hex_digit_spec _ (Hd 5)) as [H5 V5].
  destruct (hex_digit_spec _ (Hd 4)) as [H4 V4].
  destruct (hex_digit_spec _ (Hd 3)) as [H3 V3].
  destruct (hex_digit_spec _ (Hd 2)) as [H2 V2].
  destruct (hex_digit_spec _ (Hd 1)) as [H1 V1].
  destruct (hex_digit_spec _ (Hd 0)) as [H0 V0].
  split.
  - cbn -[Z.div Z.modulo Z.pow hex_digit is_hex_digit].
    rewrite H5, H4, H3, H2, H1, H0. reflexivity.
  - cbn -[Z.div Z.modulo Z.pow hex_digit hex_digit_value Z.mul Z.add].
    rewrite V5, V4, V3, V2, V1, V0.
    change (16 ^ 5) with 1048576. change (16 ^ 4) with 65536.
    change (16 ^ 3) with 4096. change (16 ^ 2) with 256.
    change (16 ^ 1) with 16. change (16 ^ 0) with 1.
    Z.to_euclidean_division_equations. lia.
Qed.

Lemma get_color_returns (W : world) (s : state) :
  exists c,
    get_color W s
    = (Return c,
       State (requests s) (clock_reads s) (S (rand_draws s)) (log s)
             (cache s) (access_token s) (token_expire s))
    /\ is_color c = true.
Proof.
  eexists. split; [apply (bind_get_color ret)|].
  apply (hex6_spec (rand_oracle W (rand_draws s) mod 16777216)).
Qed.

(** [get_color] always returns ["#"] followed by six lowercase hexadecimal
    digits, which write the number drawn; it consumes one draw and does
    nothing else. *)
Theorem get_color_format (W : world) (s : state) :
  exists c,
    get_color W s
    = (Return c,
       State (requests s) (clock_reads s) (S (rand_draws s)) (log s)
             (cache s) (access_token s) (token_expire s))
    /\ is_color c = true
    /\ color_value c = rand_oracle W (rand_draws s) mod 16777216.
Proof.
  eexists. split; [apply (bind_get_color ret)|].
  destruct (hex6_spec (rand_oracle W (rand_draws s) mod 16777216)) as [Hc Hv].
  split; [exact Hc|]. rewrite Hv. apply Z.mod_mod. lia.
Qed.

(* ================================================================== *)
(** * More on [generate_message_data] *)
(* ================================================================== *)

(** A loop that returns: one entry per configured item under fresh keys,
    one colour drawn for each, every colour well formed. *)
Lemma entries_loop_fields (prefix : string)
    (text : world -> entry -> outcome string) (entries : list entry) :
  forall (idx : nat) (acc : gmap string field_entry) (W : world) (s : state),
  all_texts_ok (text W) entries ->
  (forall i, (idx <= i)%nat -> acc !! entry_key prefix i = None) ->
  colors_ok acc ->
  exists m s',
    entries_loop prefix text idx entries acc W s = (Return m, s')
    /\ size m = (size acc + length entries)%nat
    /\ colors_ok m
    /\ rand_draws s' = (rand_draws s + length entries)%nat
    /\ clock_reads s' = clock_reads s
    /\ (forall k, is_Some (m !! k)
          <-> is_Some (acc !! k)
              \/ exists i, (i < length entries)%nat
                           /\ k = entry_key prefix (idx + i)).
Proof.
  induction entries as [|e rest IH]; intros idx acc W s Hok Hfresh Hcol.
  - exists acc, s. cbn. split; [done|]. split; [lia|]. split; [done|].
    split; [lia|]. split; [done|]. intros k. split; [by left|].
    intros [H|(i & Hi & _)]; [done|lia].
  - apply Forall_cons in Hok as [He Hrest].
    cbn [entries_loop]. rewrite bind_ask, bind_lift.
    destruct (text W e) as [v|err] eqn:Hv; [|done].
    destruct (get_color_returns W s) as (c & Hcolor & Hc).
    unfold bind at 1. rewrite Hcolor.
    match goal with |- context [entries_loop _ _ _ _ ?acc' W ?st] =>
      destruct (IH (S idx) acc' W st Hrest)
        as (m & s' & Hrun & Hsize & Hcolors & Hdraws & Hclock & Hdom)
    end.
    { intros i Hi. rewrite lookup_insert_ne; [apply Hfresh; lia|].
      intros Heq. apply entry_key_inj in Heq. lia. }
    { apply map_Forall_insert_2; [exact Hc | exact Hcol]. }
    exists m, s'. split; [exact Hrun|].
    split. { rewrite Hsize, map_size_insert_None by (apply Hfresh; lia).
             cbn. lia. }
    split; [exact Hcolors|].
    split. { rewrite Hdraws. cbn. lia. }
    split; [exact Hclock|].
    intros k. rewrite Hdom. split.
    + intros [Hk|(i & Hi & ->)].
      * destruct (decide (k = entry_key prefix idx)) as [->|Hne].
        -- right. exists 0%nat. split; [cbn; lia|]. by rewrite Nat.add_0_r.
        -- left. by rewrite lookup_insert_ne in Hk.
      * right. exists (S i). split; [cbn; lia|]. f_equal. lia.
    + intros [Hk|(i & Hi & ->)].
      * left. destruct (decide (k = entry_key prefix idx)) as [->|Hne].
        -- rewrite lookup_insert_eq. eauto.
        -- by rewrite lookup_insert_ne.
      * destruct i as [|i].
        -- left. rewrite Nat.add_0_r, lookup_insert_eq. eauto.
        -- right. exists i. split; [cbn in Hi; lia|]. f_equal. lia.
Qed.

Lemma weather_fields_clock (cfg : config) (W : world) (s : state) :
  clock_reads (weather_fields cfg W s).2 = clock_reads s
  /\ rand_draws (weather_fields cfg W s).2 = rand_draws s.
Proof.
  assert (H : preserves (fun s s' => clock_reads s' = clock_reads s
                                    /\ rand_draws s' = rand_draws s)
                (weather_fields cfg)).
  { assert (PreOrder (fun s s' : state => clock_reads s' = clock_reads s
                                          /\ rand_draws s' = rand_draws s)).
    { split; [done|]. intros s1 s2 s3 [? ?] [? ?]. split; congruence. }
    unfold weather_fields, get_weather, get_with_retry.
    preserves_steps ltac:(first
      [ apply preserves_get_with_retry_loop;
        [apply _ | intros W' s0; unfold requests_get;
                   by destruct (http_oracle W' _ _)
                 | intros msg W' s0; done ]
      | intros ? ?; done ]). }
  apply H.
Qed.

(** The five fixed entries. *)
Lemma base_data_of_fields (today : date) (cfg : config)
    (w : pyval * pyval * pyval) (W : world) (s : state) :
  exists base s',
    base_data_of today cfg w W s = (Return base, s')
    /\ size base = 5%nat
    /\ colors_ok base
    /\ (forall k, is_Some (base !! k) <-> k ∈ fixed_keys)
    /\ value <$> base !! "weather" = Some w.1.1
    /\ value <$> base !! "temp" = Some w.1.2
    /\ value <$> base !! "wind_dir" = Some w.2
    /\ value <$> base !! "region" = Some (PStr (region cfg))
    /\ rand_draws s' = (rand_draws s + 5)%nat
    /\ clock_reads s' = clock_reads s.
Proof.
  destruct (week_day_name today) as [name Hname].
  unfold base_data_of. rewrite bind_lift, Hname.
  destruct (get_color_returns W s) as (c1 & H1 & Hc1).
  unfold bind at 1. rewrite H1.
  match goal with |- context [bind get_color _ W ?st] =>
    destruct (get_color_returns W st) as (c2 & H2 & Hc2) end.
  unfold bind at 1. rewrite H2.
  match goal with |- context [bind get_color _ W ?st] =>
    destruct (get_color_returns W st) as (c3 & H3 & Hc3) end.
  unfold bind at 1. rewrite H3.
  match goal with |- context [bind get_color _ W ?st] =>
    destruct (get_color_returns W st) as (c4 & H4 & Hc4) end.
  unfold bind at 1. rewrite H4.
  match goal with |- context [bind get_color _ W ?st] =>
    destruct (get_color_returns W st) as (c5 & H5 & Hc5) end.
  unfold bind at 1. rewrite H5.
  eexists _, _. split; [reflexivity|].
  split. { rewrite !map_size_insert_None by by simplify_map_eq. done. }
  split. { unfold colors_ok.
           repeat (apply map_Forall_insert_2; [assumption|]).
           apply map_Forall_empty. }
  split.
  { intros k. unfold fixed_keys. rewrite !elem_of_cons, elem_of_nil.
    split.
    - intros Hk.
      destruct (decide (k = "wind_dir")) as [->|?]; [tauto|].
      destruct (decide (k = "temp")) as [->|?]; [tauto|].
      destruct (decide (k = "weather")) as [->|?]; [tauto|].
      destruct (decide (k = "region")) as [->|?]; [tauto|].
      destruct (decide (k = "date")) as [->|?]; [tauto|].
      rewrite !lookup_insert_ne, lookup_empty in Hk by done.
      by destruct Hk.
    - intros [->|[->|[->|[->|[->|[]]]]]]; simplify_map_eq; eauto. }
  cbn. repeat split; try by simplify_map_eq. lia.
Qed.

(** The two loops and the merge, when every entry yields its text. *)
Lemma generated_entries_fields (cfg : config) (today : date)
    (base : gmap string field_entry) (W : world) (s : state) :
  all_texts_ok (anniversary_text W today) (default [] (anniversaries cfg)) ->
  all_texts_ok (birthday_text W today) (default [] (birthdays cfg)) ->
  size base = 5%nat -> colors_ok base ->
  (forall k, is_Some (base !! k) <-> k ∈ fixed_keys) ->
  exists m s',
    generated_entries cfg today base W s = (Return m, s')
    /\ size m = (5 + length (default [] (anniversaries cfg))
                 + length (default [] (birthdays cfg)))%nat
    /\ colors_ok m
    /\ (forall k, is_Some (m !! k)
          <-> k ∈ fixed_keys
              \/ (exists i, (i < length (default [] (anniversaries cfg)))%nat
                            /\ k = entry_key "anniversary_" i)
              \/ (exists j, (j < length (default [] (birthdays cfg)))%nat
                            /\ k = entry_key "birthday_" j))
    /\ rand_draws s'
       = (rand_draws s + length (default [] (anniversaries cfg))
          + length (default [] (birthdays cfg)))%nat
    /\ clock_reads s' = clock_reads s.
Proof.
  intros Hanns Hbds Hsize Hcol Hdom. unfold generated_entries.
  destruct (entries_loop_fields "anniversary_"
              (fun W => anniversary_text W today) _ 0%nat ∅ W s Hanns)
    as (ma & sa & Hruna & Hsa & Hca & Hda & Hka & Hdoma);
    [intros; apply lookup_empty | apply map_Forall_empty |].
  unfold bind at 1. rewrite Hruna.
  destruct (entries_loop_fields "birthday_"
              (fun W => birthday_text W today) _ 0%nat ∅ W sa Hbds)
    as (mb & sb & Hrunb & Hsb & Hcb & Hdb & Hkb & Hdomb);
    [intros; apply lookup_empty | apply map_Forall_empty |].
  unfold bind at 1. rewrite Hrunb.
  assert (Hab : mb ##ₘ ma).
  { apply map_disjoint_spec. intros k x y Hx Hy.
    assert (Hkb' : is_Some (mb !! k)) by eauto.
    assert (Hka' : is_Some (ma !! k)) by eauto.
    apply Hdomb in Hkb' as [Hk|(j & _ & ->)];
      [rewrite lookup_empty in Hk; by destruct Hk|].
    apply Hdoma in Hka' as [Hk|(i & _ & Heq)];
      [rewrite lookup_empty in Hk; by destruct Hk|].
    symmetry in Heq. by apply birthday_key_not_anniversary in Heq. }
  assert (Hbase : mb ∪ ma ##ₘ base).
  { apply map_disjoint_spec. intros k x y Hx Hy.
    assert (Hk : k ∈ fixed_keys) by (apply Hdom; eauto).
    apply lookup_union_Some in Hx; [|exact Hab]. destruct Hx as [Hx|Hx].
    - assert (Hkb' : is_Some (mb !! k)) by eauto.
      apply Hdomb in Hkb' as [Hk'|(j & _ & Heq)];
        [rewrite lookup_empty in Hk'; by destruct Hk'|].
      by apply (birthday_key_not_fixed (0 + j) k).
    - assert (Hka' : is_Some (ma !! k)) by eauto.
      apply Hdoma in Hka' as [Hk'|(i & _ & Heq)];
        [rewrite lookup_empty in Hk'; by destruct Hk'|].
      by apply (anniversary_key_not_fixed (0 + i) k). }
  exists (mb ∪ ma ∪ base), sb. split; [done|].
  split. { rewrite !map_size_disj_union by done.
           rewrite Hsb, Hsa, Hsize, map_size_empty. lia. }
  split. { unfold colors_ok. by repeat apply map_Forall_union_2. }
  split.
  { intros k. rewrite !lookup_union_is_Some, Hdoma, Hdomb, Hdom.
    rewrite lookup_empty. cbn [Nat.add].
    assert (Hnone : ~ is_Some (@None field_entry)) by (by intros [? ?]).
    tauto. }
  split; [lia | congruence].
Qed.

(** Whenever [generate_message_data] returns, every configured entry
    yielded its text. *)
Lemma generate_message_data_returns_texts (cfg : config) (W : world)
    (s s' : state) (m : gmap string field_entry) :
  generate_message_data cfg W s = (Return m, s') ->
  all_texts_ok
    (anniversary_text W (local_date (clock_oracle W (clock_reads s))))
    (default [] (anniversaries cfg))
  /\ all_texts_ok
       (birthday_text W (local_date (clock_oracle W (clock_reads s))))
       (default [] (birthdays cfg)).
Proof.
  intros Hrun.
  set (today := local_date (clock_oracle W (clock_reads s))) in *.
  destruct (weather_fields_returns cfg W (after_clock_read s)) as (w & sw & Hw).
  destruct (base_data_of_returns today cfg w W sw)
    as (name & c1 & c2 & c3 & c4 & c5 & s2 & Hbase & _).
  rewrite generate_message_data_stages in Hrun. cbv zeta in Hrun.
  fold today in Hrun. unfold bind at 1 in Hrun. rewrite Hw in Hrun.
  unfold bind at 1 in Hrun. rewrite Hbase in Hrun.
  destruct (texts_ok_or_bad (anniversary_text W today)
              (default [] (anniversaries cfg))) as [Ha|Ha];
    destruct (texts_ok_or_bad (birthday_text W today)
                (default [] (birthdays cfg))) as [Hb|Hb]; [done|..].
  all: match type of Hrun with generated_entries _ _ ?b _ ?st = _ =>
         destruct (generated_entries_raises cfg today b W st)
           as (err & s'' & Hraise); [tauto|congruence] end.
Qed.

(** The mapping returned by [generate_message_data] has exactly the five
    fixed keys, one key [anniversary_i] per configured anniversary and one
    key [birthday_j] per configured birthday, hence [5 + n + b] entries;
    every entry carries a well-formed colour; one colour is drawn per
    entry and the clock is read once. *)
Theorem generate_message_data_shape (cfg : config) (W : world) (s s' : state)
    (m : gmap string field_entry) :
  generate_message_data cfg W s = (Return m, s') ->
  let n := length (default [] (anniversaries cfg)) in
  let b := length (default [] (birthdays cfg)) in
  size m = (5 + n + b)%nat
  /\ (forall k, is_Some (m !! k)
        <-> k ∈ fixed_keys
            \/ (exists i, (i < n)%nat /\ k = entry_key "anniversary_" i)
            \/ (exists j, (j < b)%nat /\ k = entry_key "birthday_" j))
  /\ colors_ok m
  /\ rand_draws s' = (rand_draws s + (5 + n + b))%nat
  /\ clock_reads s' = S (clock_reads s).
Proof.
  intros Hrun n b.
  destruct (generate_message_data_returns_texts cfg W s s' m Hrun) as [Ha Hb].
  set (today := local_date (clock_oracle W (clock_reads s))) in *.
  destruct (weather_fields_returns cfg W (after_clock_read s)) as (w & sw & Hw).
  pose proof (weather_fields_clock cfg W (after_clock_read s)) as [Hcw Hdw].
  rewrite Hw in Hcw, Hdw. cbn [snd] in Hcw, Hdw.
  destruct (base_data_of_fields today cfg w W sw)
    as (base & s2 & Hbase & Hsize & Hcol & Hdom & _ & _ & _ & _ & Hd2 & Hc2).
  destruct (generated_entries_fields cfg today base W s2 Ha Hb Hsize Hcol Hdom)
    as (m' & s3 & Hgen & Hsz & Hcols & Hkeys & Hd3 & Hc3).
  rewrite generate_message_data_stages in Hrun. cbv zeta in Hrun.
  fold today in Hrun. unfold bind at 1 in Hrun. rewrite Hw in Hrun.
  unfold bind at 1 in Hrun. rewrite Hbase, Hgen in Hrun.
  injection Hrun as <- <-.
  split; [exact Hsz|]. split; [exact Hkeys|]. split; [exact Hcols|].
  cbn in Hcw, Hdw. split; [unfold n, b; lia | congruence].
Qed.

Lemma generate_message_data_shape_witness :
  exists m s',
    generate_message_data sample_config no_weather_world initial_state
    = (Return m, s')
    /\ size m = 7%nat
    /\ rand_draws s' = 7%nat.
Proof.
  destruct (generate_message_data sample_config no_weather_world initial_state)
    as [[m|e] s'] eqn:Hrun; [|vm_compute in Hrun; discriminate Hrun].
  destruct (generate_message_data_shape sample_config no_weather_world
              initial_state s' m Hrun) as (Hsize & _ & _ & Hdraws & _).
  exists m, s'. split; [done|]. split; [exact Hsize | exact Hdraws].
Defined.

(** When [get_weather] returns a snapshot and every configured entry
    yields its text, the mapping is returned with the snapshot's text,
    temperature and wind direction in [weather], [temp] and
    [wind_dir]. *)
Theorem generate_message_data_weather (cfg : config) (W : world)
    (s s1 : state) (text wind : pyval) (temp : string) :
  get_weather (weather_key cfg) (region cfg) W (after_clock_read s)
  = (Return (text, temp, wind), s1) ->
  let today := local_date (clock_oracle W (clock_reads s)) in
  all_texts_ok (anniversary_text W today) (default [] (anniversaries cfg)) ->
  all_texts_ok (birthday_text W today) (default [] (birthdays cfg)) ->
  exists m s',
    generate_message_data cfg W s = (Return m, s')
    /\ value <$> m !! "weather" = Some text
    /\ value <$> m !! "temp" = Some (PStr temp)
    /\ value <$> m !! "wind_dir" = Some wind
    /\ value <$> m !! "region" = Some (PStr (region cfg))
    /\ log s' = log s1.
Proof.
  intros Hw today Ha Hb.
  assert (Hfields : weather_fields cfg W (after_clock_read s)
                    = (Return (text, PStr temp, wind), s1)).
  { unfold weather_fields, try_except, bind. by rewrite Hw. }
  destruct (base_data_of_fields today cfg (text, PStr temp, wind) W s1)
    as (base & s2 & Hbase & _ & _ & _ & Hv1 & Hv2 & Hv3 & Hv4 & _).
  destruct (base_data_of_returns today cfg (text, PStr temp, wind) W s1)
    as (name & c1 & c2 & c3 & c4 & c5 & s2' & Hbase' & Hlog2 & _).
  rewrite Hbase in Hbase'. injection Hbase' as Hb' <-.
  destruct (generated_entries_returns cfg today base W s2 Ha Hb)
    as (m & s' & Hgen & Hfixed & _).
  assert (Hlog3 : log s' = log s2).
  { assert (Hp : preserves (fun s s' => log s' = log s)
                   (generated_entries cfg today base)).
    { assert (PreOrder (fun s s' : state => log s' = log s)).
      { split; [done|]. intros ? ? ? ? ?. congruence. }
      unfold generated_entries.
      preserves_steps ltac:(first
        [ apply preserves_entries_loop; [apply _ | intros ? ?; reflexivity]
        | intros ? ?; reflexivity ]). }
    specialize (Hp W s2). by rewrite Hgen in Hp. }
  exists m, s'. split.
  { rewrite generate_message_data_stages. cbv zeta. fold today.
    unfold bind at 1. rewrite Hfields. unfold bind at 1. by rewrite Hbase. }
  rewrite !Hfixed by (repeat constructor).
  repeat split; try done. congruence.
Qed.

Lemma generate_message_data_weather_witness :
  exists m s',
    generate_message_data sample_config
      (scripted_world [HttpResponse (Some geocoding_ok);
                       HttpResponse (Some weather_ok)] noon_2024_03_15)
      initial_state = (Return m, s')
    /\ value <$> m !! "weather" = Some (PStr "Sunny")
    /\ value <$> m !! "temp" = Some (PStr "21°C")
    /\ value <$> m !! "wind_dir" = Some (PStr "NE").
Proof.
  destruct (generate_message_data_weather sample_config
              (scripted_world [HttpResponse (Some geocoding_ok);
                               HttpResponse (Some weather_ok)] noon_2024_03_15)
              initial_state _ (PStr "Sunny") (PStr "NE") "21°C" eq_refl)
    as (m & s' & Hrun & Hw & Ht & Hd & _).
  - repeat constructor.
  - repeat constructor.
  - exists m, s'. repeat split; assumption.
Defined.

(** ** The day name of the date field *)

Lemma base_data_of_date (today : date) (cfg : config)
    (w : pyval * pyval * pyval) (W : world) (s : state) :
  exists base s' name,
    base_data_of today cfg w W s = (Return base, s')
    /\ week_list !! Z.to_nat (weekday today) = Some name
    /\ value <$> base !! "date"
       = Some (PStr (isoformat today +:+ " " +:+ name)).
Proof.
  destruct (week_day_name today) as [name Hname].
  unfold base_data_of. rewrite bind_lift, Hname. rewrite !bind_get_color.
  eexists _, _, name. split; [reflexivity|]. split.
  - unfold list_item in Hname.
    destruct (week_list !! Z.to_nat (weekday today)); by simplify_eq.
  - by simplify_map_eq.
Qed.

(** The date field holds [str(today)], a blank and a day name, and the day
    name is the one that the table, which starts on Sunday, gives to the
    day before today: [weekday()] counts from Monday. *)
Theorem date_field_day_name (cfg : config) (W : world) (s s' : state)
    (m : gmap string field_entry) :
  generate_message_data cfg W s = (Return m, s') ->
  let today := local_date (clock_oracle W (clock_reads s)) in
  exists name,
    value <$> m !! "date" = Some (PStr (isoformat today +:+ " " +:+ name))
    /\ day_name (toordinal today - 1) = Some name.
Proof.
  intros Hrun today.
  destruct (generate_message_data_returns_texts cfg W s s' m Hrun) as [Ha Hb].
  fold today in Ha, Hb.
  destruct (weather_fields_returns cfg W (after_clock_read s)) as (w & sw & Hw).
  destruct (base_data_of_date today cfg w W sw)
    as (base & s2 & name & Hbase & Hname & Hdate).
  destruct (generated_entries_returns cfg today base W s2 Ha Hb)
    as (m' & s3 & Hgen & Hfixed & _).
  rewrite generate_message_data_stages in Hrun. cbv zeta in Hrun.
  fold today in Hrun. unfold bind at 1 in Hrun. rewrite Hw in Hrun.
  unfold bind at 1 in Hrun. rewrite Hbase, Hgen in Hrun.
  injection Hrun as <- <-.
  exists name. split.
  - rewrite Hfixed by (repeat constructor). exact Hdate.
  - unfold day_name. rewrite <- Hname. unfold weekday. do 2 f_equal.
    Z.to_euclidean_division_equations. lia.
Qed.

(** 2024-03-15 was a Friday; its date field reads the name of
    Thursday. *)
Lemma date_field_day_name_witness :
  exists m s' name,
    generate_message_data sample_config no_weather_world initial_state
    = (Return m, s')
    /\ value <$> m !! "date"
       = Some (PStr (isoformat (Date 2024 3 15) +:+ " " +:+ name))
    /\ day_name (toordinal (Date 2024 3 15) - 1) = Some name.
Proof.
  destruct (generate_message_data sample_config no_weather_world initial_state)
    as [[m|e] s'] eqn:Hrun; [|vm_compute in Hrun; discriminate Hrun].
  destruct (date_field_day_name sample_config no_weather_world
              initial_state s' m Hrun) as (name & Hdate & Hname).
  exists m, s', name. split; [done|]. split; [exact Hdate | exact Hname].
Defined.
(* ================================================================== *)
(** * The calendar: ordinals, day counts and birthdays *)
(* ================================================================== *)

Lemma valid_ymd_bounds (y m d : Z) :
  valid_ymd y m d = true ->
  1 <= y <= 9999 /\ 1 <= m <= 12 /\ 1 <= d <= days_in_month y m.
Proof.
  unfold valid_ymd. intros H.
  repeat (apply andb_prop in H as [H ?]). lia.
Qed.

Lemma month_cases (m : Z) :
  1 <= m <= 12 ->
  m = 1 \/ m = 2 \/ m = 3 \/ m = 4 \/ m = 5 \/ m = 6 \/ m = 7 \/ m = 8
  \/ m = 9 \/ m = 10 \/ m = 11 \/ m = 12.
Proof. lia. Qed.

Ltac each_month H :=
  destruct (month_cases _ H) as
    [->|[->|[->|[->|[->|[->|[->|[->|[->|[->|[->| ->]]]]]]]]]]].

(** The days of the year before a month, month by month. *)
Lemma days_before_month_leap (y m : Z) :
  1 <= m <= 12 ->
  days_before_month y m
  = days_before_month 1 m + (if is_leap y && (3 <=? m) then 1 else 0).
Proof.
  intros Hm. each_month Hm; unfold days_before_month;
    match goal with
    | |- context [Z.to_nat ?e] =>
        let n := eval vm_compute in (Z.to_nat e) in
        change (Z.to_nat e) with n
    end;
    cbn [days_before_month_aux]; unfold days_in_month; cbn;
    destruct (is_leap y); reflexivity.
Qed.

Lemma days_in_month_leap (y m : Z) :
  1 <= m <= 12 ->
  days_in_month y m
  = days_in_month 1 m + (if is_leap y && (m =? 2) then 1 else 0).
Proof.
  intros Hm. each_month Hm; unfold days_in_month; cbn;
    destruct (is_leap y); reflexivity.
Qed.

Ltac calendar_values :=
  repeat match goal with
  | |- context [days_before_month 1 ?k] =>
      let v := eval vm_compute in (days_before_month 1 k) in
      change (days_before_month 1 k) with v
  | |- context [days_in_month 1 ?k] =>
      let v := eval vm_compute in (days_in_month 1 k) in
      change (days_in_month 1 k) with v
  | H : context [days_before_month 1 ?k] |- _ =>
      let v := eval vm_compute in (days_before_month 1 k) in
      change (days_before_month 1 k) with v in H
  | H : context [days_in_month 1 ?k] |- _ =>
      let v := eval vm_compute in (days_in_month 1 k) in
      change (days_in_month 1 k) with v in H
  end.

(** Within a year, an earlier month ends before a later one starts. *)
Lemma days_before_month_mono (y m m' : Z) :
  1 <= m -> m < m' -> m' <= 12 ->
  days_before_month y m + days_in_month y m <= days_before_month y m'.
Proof.
  intros H1 H2 H3.
  rewrite (days_before_month_leap y m), (days_before_month_leap y m'),
    (days_in_month_leap y m) by lia.
  assert (Hm : 1 <= m <= 12) by lia. assert (Hm' : 1 <= m' <= 12) by lia.
  each_month Hm; each_month Hm'; try lia;
    destruct (is_leap y); by vm_compute.
Qed.

(** A year has 365 days, or 366 when it is a leap year. *)
Lemma days_before_year_succ (y : Z) :
  days_before_year (y + 1)
  = days_before_year y + 365 + (if is_leap y then 1 else 0).
Proof.
  unfold days_before_year, is_leap. cbv zeta.
  replace (y + 1 - 1) with y by lia.
  destruct (y mod 4 =? 0) eqn:H4; destruct (y mod 100 =? 0) eqn:H100;
    destruct (y mod 400 =? 0) eqn:H400; cbn [andb orb negb];
    Z.to_euclidean_division_equations; lia.
Qed.

Lemma days_before_year_mono (y y' : Z) :
  y <= y' -> days_before_year y <= days_before_year y'.
Proof.
  intros H. unfold days_before_year. cbv zeta.
  Z.to_euclidean_division_equations. lia.
Qed.

(** The day of the year of a valid date lies within the year. *)
Lemma day_of_year_bounds (y m d : Z) :
  valid_ymd y m d = true ->
  1 <= days_before_month y m + d
  /\ days_before_month y m + d <= 365 + (if is_leap y then 1 else 0).
Proof.
  intros H. apply valid_ymd_bounds in H as (_ & Hm & Hd).
  rewrite (days_in_month_leap y m) in Hd by lia.
  rewrite (days_before_month_leap y m) by lia.
  each_month Hm; calendar_values; destruct (is_leap y); simpl in *; lia.
Qed.

(** [toordinal] respects the order of dates. *)
Lemma toordinal_lt (a b : date) :
  valid_date a = true -> valid_date b = true ->
  date_lt a b = true -> toordinal a < toordinal b.
Proof.
  unfold valid_date. intros Ha Hb Hlt.
  pose proof (day_of_year_bounds _ _ _ Ha) as [Ha1 Ha2].
  pose proof (day_of_year_bounds _ _ _ Hb) as [Hb1 Hb2].
  apply valid_ymd_bounds in Ha as (Hya & Hma & Hda).
  apply valid_ymd_bounds in Hb as (Hyb & Hmb & Hdb).
  unfold toordinal. unfold date_lt in Hlt.
  apply orb_prop in Hlt as [Hy|Hlt].
  - apply Z.ltb_lt in Hy.
    pose proof (days_before_year_succ (year a)) as Hs.
    pose proof (days_before_year_mono (year a + 1) (year b)) as Hmono.
    lia.
  - apply andb_prop in Hlt as [Hy Hlt]. apply Z.eqb_eq in Hy.
    rewrite <- Hy in *.
    apply orb_prop in Hlt as [Hm|Hlt].
    + apply Z.ltb_lt in Hm.
      pose proof (days_before_month_mono (year a) (month a) (month b)). lia.
    + apply andb_prop in Hlt as [Hm Hd]. apply Z.eqb_eq in Hm.
      apply Z.ltb_lt in Hd. rewrite Hm. lia.
Qed.

Lemma date_trichotomy (a b : date) :
  date_lt a b = true \/ a = b \/ date_lt b a = true.
Proof.
  destruct a as [ya ma da], b as [yb mb db]. unfold date_lt. cbn.
  destruct (Z.lt_trichotomy ya yb) as [?|[->|?]].
  - left. apply orb_true_intro. left. lia.
  - destruct (Z.lt_trichotomy ma mb) as [?|[->|?]].
    + left. rewrite Z.eqb_refl. cbn.
      apply orb_true_intro. right. apply orb_true_intro. left. lia.
    + destruct (Z.lt_trichotomy da db) as [?|[->|?]].
      * left. rewrite !Z.eqb_refl. cbn.
        apply orb_true_intro. right. apply orb_true_intro. right. lia.
      * right. left. done.
      * right. right. rewrite !Z.eqb_refl. cbn.
        apply orb_true_intro. right. apply orb_true_intro. right. lia.
    + right. right. rewrite Z.eqb_refl. cbn.
      apply orb_true_intro. right. apply orb_true_intro. left. lia.
  - right. right. apply orb_true_intro. left. lia.
Qed.

Lemma date_lt_irrefl (a : date) : date_lt a a = false.
Proof.
  unfold date_lt. rewrite !Z.ltb_irrefl, !Z.eqb_refl. done.
Qed.

(** The day count of [calculate_days] between two calendar dates is
    positive exactly when the first precedes the second, zero exactly when
    they are the same day, and negative exactly when the first follows the
    second: an anniversary in the future is counted with a minus sign. *)
Theorem calculate_days_sign (start_date end_date : date) :
  valid_date start_date = true -> valid_date end_date = true ->
  (0 < calculate_days start_date end_date
     <-> date_lt start_date end_date = true)
  /\ (calculate_days start_date end_date = 0 <-> start_date = end_date)
  /\ (calculate_days start_date end_date < 0
        <-> date_lt end_date start_date = true).
Proof.
  intros Ha Hb. unfold calculate_days.
  pose proof (toordinal_lt start_date end_date Ha Hb) as Hab.
  pose proof (toordinal_lt end_date start_date Hb Ha) as Hba.
  destruct (date_trichotomy start_date end_date) as [Hlt|[Heq|Hgt]].
  - specialize (Hab Hlt).
    repeat split; intros H; try done; try lia.
    + subst. lia.
    + specialize (Hba H). lia.
  - subst. rewrite date_lt_irrefl.
    repeat split; intros H; try done; lia.
  - specialize (Hba Hgt).
    repeat split; intros H; try done; try lia.
    + specialize (Hab H). lia.
    + subst. lia.
Qed.

Lemma calculate_days_sign_witness :
  (0 < calculate_days (Date 2020 2 29) (Date 2024 3 15)
     <-> date_lt (Date 2020 2 29) (Date 2024 3 15) = true)
  /\ (calculate_days (Date 2020 2 29) (Date 2024 3 15) = 0
        <-> Date 2020 2 29 = Date 2024 3 15)
  /\ (calculate_days (Date 2020 2 29) (Date 2024 3 15) < 0
        <-> date_lt (Date 2024 3 15) (Date 2020 2 29) = true).
Proof.
  apply (calculate_days_sign (Date 2020 2 29) (Date 2024 3 15));
    reflexivity.
Defined.

(** ** Birthdays *)

Lemma next_birthday_valid (birth today next : date) :
  next_birthday birth today = Return next -> valid_date next = true.
Proof.
  unfold next_birthday, replace_year.
  destruct (make_date (year today) (month birth) (day birth)) as [c|e] eqn:Hc;
    [|done].
  apply make_date_return in Hc as [-> Hv]. cbn [obind year month day].
  destruct (date_lt _ today).
  - intros Hn. apply make_date_return in Hn as [-> Hv']. exact Hv'.
  - intros [= <-]. exact Hv.
Qed.

Lemma leap_years_apart (y : Z) : is_leap y = true -> is_leap (y + 1) = false.
Proof.
  unfold is_leap. intros H. apply andb_prop in H as [H _].
  apply Z.eqb_eq in H. apply andb_false_intro1. apply Z.eqb_neq.
  Z.to_euclidean_division_equations. lia.
Qed.

Lemma toordinal_le (a b : date) :
  valid_date a = true -> valid_date b = true ->
  date_lt b a = false -> toordinal a <= toordinal b.
Proof.
  intros Ha Hb Hlt.
  destruct (date_trichotomy a b) as [H|[->|H]]; [|lia|congruence].
  pose proof (toordinal_lt a b Ha Hb H). lia.
Qed.

Lemma toordinal_inj (a b : date) :
  valid_date a = true -> valid_date b = true ->
  toordinal a = toordinal b -> a = b.
Proof.
  intros Ha Hb Heq.
  destruct (date_trichotomy a b) as [H|[->|H]]; [|done|].
  - pose proof (toordinal_lt a b Ha Hb H). lia.
  - pose proof (toordinal_lt b a Hb Ha H). lia.
Qed.

(** Earlier in the year by month and day. *)
Lemma date_lt_same_year (y m d : Z) (today : date) :
  year today = y ->
  date_lt (Date y m d) today = true ->
  m < month today \/ (m = month today /\ d < day today).
Proof.
  intros <-. unfold date_lt. cbn [year month day].
  rewrite Z.ltb_irrefl, Z.eqb_refl. cbn [orb andb].
  intros H. apply orb_prop in H as [H|H]; [left; lia|].
  apply andb_prop in H as [H1 H2]. right. lia.
Qed.

(** The occurrence of next year is at most 365 days away from a day of
    this year that follows this year's occurrence. *)
Lemma next_year_distance (y m d mt dt : Z) :
  valid_ymd (y + 1) m d = true -> valid_ymd y mt dt = true ->
  m < mt \/ (m = mt /\ d < dt) ->
  toordinal (Date (y + 1) m d) - toordinal (Date y mt dt) <= 365.
Proof.
  intros Hn Ht Hlex. unfold toordinal. cbn [year month day].
  apply valid_ymd_bounds in Hn as (_ & Hm & Hd).
  apply valid_ymd_bounds in Ht as (_ & Hmt & Hdt).
  rewrite days_before_year_succ.
  rewrite (days_before_month_leap (y + 1) m), (days_before_month_leap y mt)
    by lia.
  rewrite (days_in_month_leap (y + 1) m) in Hd by lia.
  rewrite (days_in_month_leap y mt) in Hdt by lia.
  pose proof (leap_years_apart y) as Hleap.
  each_month Hm; each_month Hmt; try lia; calendar_values;
    destruct (is_leap y); destruct (is_leap (y + 1)); simpl in *;
    try lia; by specialize (Hleap eq_refl).
Qed.

Lemma next_birthday_distance (birth today next : date) :
  valid_date today = true ->
  next_birthday birth today = Return next ->
  0 <= toordinal next - toordinal today <= 365
  /\ (toordinal next - toordinal today = 0
      <-> month today = month birth /\ day today = day birth).
Proof.
  intros Ht Hn.
  pose proof (next_birthday_valid _ _ _ Hn) as Hv.
  destruct (next_birthday_return _ _ _ Hn) as (Hm & Hd & Hlt & Hcases).
  pose proof (toordinal_le today next Ht Hv Hlt) as Hle.
  split; [split; [lia|]|].
  - destruct Hcases as [[Hy _]|[Hy Hpast]].
    + unfold valid_date in Ht, Hv.
      pose proof (day_of_year_bounds _ _ _ Ht) as [Ht1 _].
      pose proof (day_of_year_bounds _ _ _ Hv) as [_ Hv2].
      unfold toordinal. rewrite Hy in *.
      destruct (is_leap (year today)); lia.
    + apply date_lt_same_year in Hpast; [|done].
      destruct next as [yn mn dn], today as [yt mt dt].
      cbn [year month day] in *. subst yn mn dn.
      by apply next_year_distance.
  - split.
    + intros H0. assert (next = today) as ->.
      { apply toordinal_inj; [done|done|lia]. }
      done.
    + intros [Hm' Hd'].
      destruct Hcases as [[Hy _]|[_ Hpast]].
      * destruct next as [yn mn dn], today as [yt mt dt].
        cbn [year month day] in *. subst. lia.
      * apply date_lt_same_year in Hpast; [|done]. lia.
Qed.

Lemma birthday_status_today (n : Z) :
  birthday_status n = birthday_today <-> n = 0.
Proof.
  unfold birthday_status. destruct (n =? 0) eqn:Hn.
  - apply Z.eqb_eq in Hn. done.
  - apply Z.eqb_neq in Hn. split; [|done]. intros H.
    unfold birthday_today, String.append in H. discriminate H.
Qed.

(** Whatever the parsed birth date, the count of days to the next birthday
    lies between 0 and 365, and it is 0, so that the message carries the
    birthday greeting instead of a count, exactly when today has the month
    and the day of the birth date. *)
Theorem birthday_days_range (W : world) (today birth : date) (bd : entry)
    (n : Z) :
  valid_date today = true ->
  parse_date W (entry_date bd) = Return birth ->
  birthday_days W today bd = Return n ->
  0 <= n <= 365
  /\ (n = 0 <-> month today = month birth /\ day today = day birth)
  /\ (birthday_text W today bd
      = Return (entry_name bd +:+ "生日" +:+ birthday_today)
      <-> month today = month birth /\ day today = day birth).
Proof.
  intros Ht Hp Hrun. unfold birthday_text. rewrite Hrun. cbn [obind].
  unfold birthday_days in Hrun. rewrite Hp in Hrun. cbn [obind] in Hrun.
  destruct (next_birthday birth today) as [next|e] eqn:Hn; [|done].
  cbn [obind] in Hrun. injection Hrun as <-.
  destruct (next_birthday_distance birth today next Ht Hn) as [Hrange Hzero].
  split; [exact Hrange|]. split; [exact Hzero|].
  rewrite <- Hzero, <- birthday_status_today. split.
  - intros [= H]. apply (inj (String.append _)) in H.
    apply (inj (String.append _)) in H. exact H.
  - by intros ->.
Qed.

Lemma birthday_days_range_witness :
  0 <= 364 <= 365
  /\ (364 = 0 <-> month (Date 2024 3 16) = month (Date 1990 3 15)
                  /\ day (Date 2024 3 16) = day (Date 1990 3 15))
  /\ (birthday_text (scripted_world [] noon_2024_03_15) (Date 2024 3 16)
        (Entry "Bob" "1990-03-15")
      = Return ("Bob" +:+ "生日" +:+ birthday_today)
      <-> month (Date 2024 3 16) = month (Date 1990 3 15)
          /\ day (Date 2024 3 16) = day (Date 1990 3 15)).
Proof.
  apply (birthday_days_range (scripted_world [] noon_2024_03_15)
           (Date 2024 3 16) (Date 1990 3 15) (Entry "Bob" "1990-03-15") 364);
    reflexivity.
Defined.

(** A birth date on the 29th of February has an occurrence only in a leap
    year, and a next one only up to that day: on every other day
    [birthday_text] raises a [ValueError], which nothing catches before
    the main block. *)
Theorem leap_day_birthday (W : world) (today birth : date) (bd : entry) :
  valid_date today = true ->
  parse_date W (entry_date bd) = Return birth ->
  month birth = 2 -> day birth = 29 ->
  (is_leap (year today) = true
   /\ date_lt (Date (year today) 2 29) today = false ->
   birthday_days W today bd
   = Return (toordinal (Date (year today) 2 29) - toordinal today))
  /\ (is_leap (year today) = false
      \/ date_lt (Date (year today) 2 29) today = true ->
      exists msg, birthday_text W today bd = Raise (Exn ValueError msg)).
Proof.
  intros Ht Hp Hm Hd.
  unfold birthday_text, birthday_days. rewrite Hp. cbn [obind].
  unfold next_birthday, replace_year, make_date. rewrite Hm, Hd.
  apply valid_ymd_bounds in Ht as (Hy & _ & _).
  assert (Hv : forall y, 1 <= y <= 9999 -> valid_ymd y 2 29 = is_leap y).
  { intros y Hy'. unfold valid_ymd, days_in_month.
    replace (1 <=? y) with true by (symmetry; lia).
    replace (y <=? 9999) with true by (symmetry; lia).
    destruct (is_leap y); reflexivity. }
  rewrite Hv by lia.
  split.
  - intros [Hleap Hlt]. rewrite Hleap. cbn [obind month day].
    rewrite Hlt. done.
  - intros Hbad. destruct (is_leap (year today)) eqn:Hleap.
    + destruct Hbad as [?|Hlt]; [done|]. cbn [obind month day].
      rewrite Hlt.
      assert (Hnext : valid_ymd (year today + 1) 2 29 = false).
      { unfold valid_ymd, days_in_month.
        rewrite (leap_years_apart _ Hleap).
        rewrite !andb_false_r. done. }
      rewrite Hnext. cbn [obind]. eauto.
    + cbn [obind]. eauto.
Qed.

Lemma leap_day_birthday_witness :
  birthday_days (scripted_world [] noon_2024_03_15) (Date 2024 2 1)
    (Entry "Eve" "2000-02-29") = Return 28
  /\ exists msg,
       birthday_text (scripted_world [] noon_2024_03_15) (Date 2023 6 1)
         (Entry "Eve" "2000-02-29") = Raise (Exn ValueError msg).
Proof.
  split.
  - destruct (leap_day_birthday (scripted_world [] noon_2024_03_15)
                (Date 2024 2 1) (Date 2000 2 29) (Entry "Eve" "2000-02-29")
                eq_refl eq_refl eq_refl eq_refl) as [Hleap _].
    apply Hleap. split; reflexivity.
  - destruct (leap_day_birthday (scripted_world [] noon_2024_03_15)
                (Date 2023 6 1) (Date 2000 2 29) (Entry "Eve" "2000-02-29")
                eq_refl eq_refl eq_refl eq_refl) as [_ Hother].
    apply Hother. left. reflexivity.
Defined.

(** ** Parsing dates *)

Lemma strptime_ymd_outcome (s : string) :
  match strptime_ymd s with
  | Return d => valid_date d = true
  | Raise e => exn_class e = ValueError
  end.
Proof.
  unfold strptime_ymd, strptime_error, make_date.
  repeat case_match; simplify_eq; try done.
Qed.

(** The year of [isoformat], as [%Y] reads it. *)
Definition four_digits_ok (y : Z) : bool :=
  match pad_left 4 "0" (str_int y) with
  | String y1 (String y2 (String y3 (String y4 EmptyString))) =>
      is_digit y1 && is_digit y2 && is_digit y3 && is_digit y4
      && (1000 * digit_val y1 + 100 * digit_val y2 + 10 * digit_val y3
          + digit_val y4 =? y)
  | _ => false
  end.

Lemma four_digits_all :
  forallb four_digits_ok (map Z.of_nat (seq 1 (Z.to_nat 9999))) = true.
Proof. vm_compute. reflexivity. Qed.

Lemma four_digits (y : Z) :
  1 <= y <= 9999 -> four_digits_ok y = true.
Proof.
  intros Hy. pose proof four_digits_all as H.
  rewrite forallb_forall in H. apply H.
  apply in_map_iff. exists (Z.to_nat y). split; [lia|].
  apply in_seq. lia.
Qed.

Lemma append_cons (c : ascii) (s r : string) :
  String c s +:+ r = String c (s +:+ r).
Proof. reflexivity. Qed.

Lemma append_empty (r : string) : "" +:+ r = r.
Proof. reflexivity. Qed.

Lemma match_month_padded (m : Z) (rest : string) :
  1 <= m <= 12 ->
  match_month (pad_left 2 "0" (str_int m) +:+ String "-" rest)
  = Some (m, String "-" rest).
Proof. intros Hm. each_month Hm; by vm_compute. Qed.

Lemma match_day_padded (d : Z) :
  1 <= d <= 31 ->
  match_day (pad_left 2 "0" (str_int d)) = Some (d, EmptyString).
Proof.
  intros Hd.
  assert (Hc : Forall (fun k => match_day (pad_left 2 "0" (str_int k))
                                = Some (k, EmptyString))
                 (map Z.of_nat (seq 1 31))).
  { repeat constructor. }
  rewrite List.Forall_forall in Hc. apply Hc.
  apply in_map_iff. exists (Z.to_nat d). split; [lia|].
  apply in_seq. lia.
Qed.

Lemma take_digit_ascii (c : ascii) (rest : string) :
  is_digit c = true -> take_digit (String c rest) = Some (digit_val c, rest).
Proof.
  destruct c as [[] [] [] [] [] [] [] []]; intros H;
    try discriminate H; reflexivity.
Qed.

Lemma strptime_ymd_isoformat (d : date) :
  valid_date d = true -> strptime_ymd (isoformat d) = Return d.
Proof.
  intros Hv. pose proof Hv as Hb. apply valid_ymd_bounds in Hb as (Hy & Hm & Hd).
  assert (Hd' : 1 <= day d <= 31).
  { revert Hd. generalize (year d). intros y. unfold days_in_month.
    each_month Hm; try destruct (is_leap y); lia. }
  pose proof (four_digits (year d) Hy) as H4.
  unfold four_digits_ok in H4. unfold isoformat.
  destruct (pad_left 4 "0" (str_int (year d)))
    as [|y1 [|y2 [|y3 [|y4 [|? ?]]]]]; try discriminate H4.
  do 4 (apply andb_prop in H4 as [H4 ?]).
  rewrite !append_cons, !append_empty. unfold strptime_ymd, match_year.
  rewrite !take_digit_ascii by done.
  rewrite match_month_padded by done.
  rewrite match_day_padded by done.
  match goal with H : (_ =? _) = true |- _ => apply Z.eqb_eq in H; rewrite H end.
  unfold make_date. unfold valid_date in Hv. rewrite Hv.
  by destruct d.
Qed.

Lemma parse_date_not_lunar (W : world) (s : string) :
  String.prefix "r" s = false -> parse_date W s = strptime_ymd s.
Proof.
  destruct s as [|c rest]; [done|].
  destruct c as [[] [] [] [] [] [] [] []]; try done.
  cbn. by destruct rest.
Qed.

Lemma isoformat_not_lunar (d : date) :
  valid_date d = true -> String.prefix "r" (isoformat d) = false.
Proof.
  intros Hv. apply valid_ymd_bounds in Hv as (Hy & _ & _).
  pose proof (four_digits (year d) Hy) as H4.
  unfold four_digits_ok in H4. unfold isoformat.
  destruct (pad_left 4 "0" (str_int (year d)))
    as [|y1 [|y2 [|y3 [|y4 [|? ?]]]]]; try discriminate H4.
  do 4 (apply andb_prop in H4 as [H4 ?]).
  rewrite append_cons.
  destruct y1 as [[] [] [] [] [] [] [] []]; try done.
Qed.

(** Of a date that is not lunar (no leading ["r"]), [parse_date] returns
    only days of the calendar and raises only [ValueError], whatever the
    world; and every day of the calendar, written as [str] writes it
    (four digits, two, two), is read back as itself. *)
Theorem parse_date_solar (W : world) (s : string) (d : date) :
  (String.prefix "r" s = false ->
   match parse_date W s with
   | Return d' => valid_date d' = true
   | Raise e => exn_class e = ValueError
   end)
  /\ (valid_date d = true -> parse_date W (isoformat d) = Return d).
Proof.
  split.
  - intros Hs. rewrite parse_date_not_lunar by done.
    apply strptime_ymd_outcome.
  - intros Hv. rewrite parse_date_not_lunar by by apply isoformat_not_lunar.
    by apply strptime_ymd_isoformat.
Qed.

Lemma parse_date_solar_witness :
  match parse_date (scripted_world [] noon_2024_03_15) "2024-2-30" with
  | Return d' => valid_date d' = true
  | Raise e => exn_class e = ValueError
  end
  /\ parse_date (scripted_world [] noon_2024_03_15) (isoformat (Date 33 7 4))
     = Return (Date 33 7 4).
Proof.
  destruct (parse_date_solar (scripted_world [] noon_2024_03_15) "2024-2-30"
              (Date 33 7 4)) as [Hread Hback].
  split; [apply Hread; reflexivity | apply Hback; reflexivity].
Defined.

(** ** Lunar dates *)

Lemma rev_app_rev_app (a b c : string) :
  String.rev_app (String.rev_app a b) c = String.rev_app b (a +:+ c).
Proof.
  revert b c. induction a as [|x a IH]; intros b c; [done|].
  cbn [String.rev_app]. rewrite IH. done.
Qed.

Lemma split_dash_aux_last (a cur : string) :
  dash_free a = true ->
  split_dash_aux cur a = [String.rev (String.rev_app a cur)].
Proof.
  revert cur. induction a as [|x a IH]; intros cur Ha; [done|].
  cbn [dash_free] in Ha. apply andb_prop in Ha as [Hx Ha].
  cbn [split_dash_aux String.rev_app].
  apply negb_true_iff in Hx. rewrite Hx. by apply IH.
Qed.

Lemma split_dash_aux_part (a cur rest : string) :
  dash_free a = true ->
  split_dash_aux cur (a +:+ String "-" rest)
  = String.rev (String.rev_app a cur) :: split_dash rest.
Proof.
  revert cur. induction a as [|x a IH]; intros cur Ha; [done|].
  cbn [dash_free] in Ha. apply andb_prop in Ha as [Hx Ha].
  rewrite append_cons. cbn [split_dash_aux String.rev_app].
  apply negb_true_iff in Hx. rewrite Hx. by apply IH.
Qed.

Lemma rev_rev_app_empty (a : string) :
  String.rev (String.rev_app a "") = a.
Proof.
  unfold String.rev. rewrite rev_app_rev_app. cbn [String.rev_app].
  induction a as [|x a IH]; [done|]. rewrite append_cons. by rewrite IH.
Qed.

Lemma split_dash_last (a : string) :
  dash_free a = true -> split_dash a = [a].
Proof.
  intros Ha. unfold split_dash.
  by rewrite split_dash_aux_last, rev_rev_app_empty.
Qed.

Lemma split_dash_part (a rest : string) :
  dash_free a = true ->
  split_dash (a +:+ String "-" rest) = a :: split_dash rest.
Proof.
  intros Ha. unfold split_dash at 1.
  by rewrite split_dash_aux_part, rev_rev_app_empty.
Qed.

(** A lunar date ["r" y "-" m "-" d] is converted by the lunar calendar
    from the three numbers read by [int]; whatever follows a third ["-"]
    is ignored; and with two parts only, once both are read as numbers,
    the missing third raises [IndexError]. *)
Theorem parse_date_lunar (W : world) (a b c : string) :
  dash_free a = true -> dash_free b = true -> dash_free c = true ->
  parse_date W ("r" +:+ a +:+ "-" +:+ b +:+ "-" +:+ c)
  = lunar_of_parts W a b c
  /\ (forall extra,
        parse_date W ("r" +:+ a +:+ "-" +:+ b +:+ "-" +:+ c +:+ "-" +:+ extra)
        = lunar_of_parts W a b c)
  /\ (is_return (py_int a) = true -> is_return (py_int b) = true ->
      exists msg,
        parse_date W ("r" +:+ a +:+ "-" +:+ b) = Raise (Exn IndexError msg)).
Proof.
  intros Ha Hb Hc.
  rewrite !append_cons, !append_empty.
  unfold parse_date, lunar_of_parts. split; [|split].
  - rewrite !split_dash_part, split_dash_last by done. reflexivity.
  - intros extra. rewrite !append_cons, !append_empty.
    rewrite !split_dash_part by done. reflexivity.
  - intros Hya Hmb. rewrite split_dash_part, split_dash_last by done.
    cbn [list_item lookup list_lookup obind].
    destruct (py_int a); [|done]. destruct (py_int b); [|done].
    cbn [obind]. eauto.
Qed.

Lemma parse_date_lunar_witness :
  let W := scripted_world [] noon_2024_03_15 in
  parse_date W "r2020-1-15" = make_date 2020 1 15
  /\ parse_date W "r2020-1-15-junk" = make_date 2020 1 15
  /\ exists msg, parse_date W "r2020-1" = Raise (Exn IndexError msg).
Proof.
  cbv zeta.
  destruct (parse_date_lunar (scripted_world [] noon_2024_03_15)
              "2020" "1" "15" eq_refl eq_refl eq_refl)
    as (Hthree & Hmore & Htwo).
  split; [exact Hthree|]. split; [exact (Hmore "junk")|].
  apply Htwo; reflexivity.
Defined.
(* ================================================================== *)
(** * [ConfigManager.load_config] *)
(* ================================================================== *)

Lemma all_keys_in_dict (d : gmap string pyval) (keys : list string) :
  all_keys_in (PDict d) keys
  = Return (bool_decide (Forall (fun k => is_Some (d !! k)) keys)).
Proof.
  induction keys as [|k rest IH]; [done|].
  cbn [all_keys_in contains_key obind].
  destruct (decide (is_Some (d !! k))) as [Hk|Hk].
  - rewrite (bool_decide_eq_true_2 _ Hk), IH. f_equal.
    apply bool_decide_ext. rewrite Forall_cons. tauto.
  - rewrite (bool_decide_eq_false_2 _ Hk). f_equal. symmetry.
    apply bool_decide_eq_false_2. rewrite Forall_cons. tauto.
Qed.

Lemma all_keys_in_true (config : pyval) (keys : list string) :
  all_keys_in config keys = Return true
  <-> Forall (fun k => contains_key config k = Return true) keys.
Proof.
  induction keys as [|k rest IH]; [by split; [constructor|]|].
  cbn [all_keys_in]. rewrite Forall_cons, <- IH.
  destruct (contains_key config k) as [[|]|e]; cbn [obind];
    split; try done; try tauto; by intros [? ?].
Qed.

(** [load_config] never raises.  It returns the parsed value, untouched
    and without a log line, exactly when each of the six required names
    is found in it by [in]; in every other case (the file cannot be read
    or parsed, a name is missing, the value does not support [in]) it
    writes one [ERROR] line and exits with status 1.  For a JSON object
    the test is the presence of the six keys. *)
Theorem load_config_outcome (file : outcome pyval) (W : world) (s : state) :
  (exists r s', load_config file W s = (Return r, s'))
  /\ (forall config,
        load_config file W s = (Return (Completed config), s)
        <-> file = Return config
            /\ Forall (fun k => contains_key config k = Return true)
                 required_keys)
  /\ ((forall config, load_config file W s <> (Return (Completed config), s)) ->
      exists msg,
        load_config file W s
        = (Return (SysExit 1), after_log ERROR ("配置加载失败: " +:+ msg) s))
  /\ (forall d,
        file = Return (PDict d) ->
        load_config file W s
        = if bool_decide (Forall (fun k => is_Some (d !! k)) required_keys)
          then (Return (Completed (PDict d)), s)
          else (Return (SysExit 1),
                after_log ERROR ("配置加载失败: " +:+ "缺少必要配置项") s))
  /\ (forall e,
        file = Raise e ->
        load_config file W s
        = (Return (SysExit 1),
           after_log ERROR ("配置加载失败: " +:+ exn_msg e) s)).
Proof.
  assert (Hcases :
    (exists config, file = Return config
       /\ all_keys_in config required_keys = Return true
       /\ load_config file W s = (Return (Completed config), s))
    \/ (exists msg,
          load_config file W s
          = (Return (SysExit 1), after_log ERROR ("配置加载失败: " +:+ msg) s)
          /\ forall config, file = Return config ->
               all_keys_in config required_keys <> Return true)).
  { unfold load_config, try_except. rewrite bind_lift.
    destruct file as [config|e]; cbn [obind].
    - rewrite bind_lift.
      destruct (all_keys_in config required_keys) as [[|]|e] eqn:Hall;
        cbn [obind negb].
      + left. exists config. done.
      + right. exists (exn_msg missing_keys_error). split; [done|].
        intros c [= <-]. congruence.
      + right. exists (exn_msg e). split; [done|].
        intros c [= <-]. congruence.
    - right. exists (exn_msg e). split; [done|]. intros c [=]. }
  split; [|split; [|split; [|split]]].
  - destruct Hcases as [(c & _ & _ & Hrun)|(msg & Hrun & _)]; eauto.
  - intros config. rewrite <- all_keys_in_true.
    destruct Hcases as [(c & -> & Hall & Hrun)|(msg & Hrun & Hbad)].
    + rewrite Hrun. split.
      * intros [= <-]. done.
      * intros [[= <-] _]. done.
    + rewrite Hrun. split; [done|]. intros [Hf Hall]. by destruct (Hbad _ Hf).
  - intros Hnot. destruct Hcases as [(c & _ & _ & Hrun)|(msg & Hrun & _)].
    + by destruct (Hnot c).
    + eauto.
  - intros d ->. unfold load_config, try_except.
    rewrite !bind_lift. cbn [obind]. rewrite all_keys_in_dict. cbn [obind].
    by destruct (bool_decide _).
  - intros e ->. reflexivity.
Qed.

(** A complete configuration is returned as it is; one without
    ["template_id"] ends the process. *)
Lemma load_config_outcome_witness :
  let complete :=
    dict [("app_id", PStr "A"); ("app_secret", PStr "S");
          ("weather_key", PStr "K"); ("template_id", PStr "T");
          ("region", PStr "Beijing"); ("user", PList [PStr "u1"])] in
  let partial :=
    list_to_map [("app_id", PStr "A"); ("app_secret", PStr "S");
                 ("weather_key", PStr "K"); ("region", PStr "Beijing");
                 ("user", PList [PStr "u1"])] in
  load_config (Return complete) no_weather_world initial_state
  = (Return (Completed complete), initial_state)
  /\ load_config (Return (PDict partial)) no_weather_world initial_state
     = (Return (SysExit 1),
        after_log ERROR "配置加载失败: 缺少必要配置项" initial_state).
Proof.
  cbv zeta. split.
  - apply (load_config_outcome (Return _) no_weather_world initial_state).
    split; [reflexivity|]. repeat constructor.
  - destruct (load_config_outcome
                (Return (PDict (list_to_map
                   [("app_id", PStr "A"); ("app_secret", PStr "S");
                    ("weather_key", PStr "K"); ("region", PStr "Beijing");
                    ("user", PList [PStr "u1"])])))
                no_weather_world initial_state) as (_ & _ & _ & Hdict & _).
    rewrite (Hdict _ eq_refl). reflexivity.
Defined.
(* ================================================================== *)
(** * More on the dispatch *)
(* ================================================================== *)

Section pool_census.
Context (W : world) (users : list string) (task : string -> M bool)
        (expected : string -> outcome bool)
        (Inv : state -> Prop) (count : state -> nat).

(** From a state of [Inv], each task yields its expected outcome, stays
    in [Inv] and counts for one. *)
Hypothesis task_step : forall u s,
  Inv s ->
  (task u W s).1 = expected u
  /\ Inv (task u W s).2
  /\ count (task u W s).2 = S (count s).

Lemma run_tasks_census (order : list nat) :
  forall futures s,
  futures_ok expected users futures -> Inv s ->
  exists futures' s',
    run_tasks order (map task users) futures W s = (Return futures', s')
    /\ futures_ok expected users futures'
    /\ Inv s'
    /\ (count s' + length (pending_users futures' users)
        = count s + length (pending_users futures users))%nat.
Proof.
  induction order as [|i order IH]; intros futures s Hok Hinv.
  - exists futures, s. done.
  - cbn [run_tasks]. rewrite list_lookup_fmap.
    destruct (users !! i) as [u|] eqn:Hu; cbn [fmap option_fmap option_map];
      [|by apply IH].
    destruct (futures !! i) as [[r|]|] eqn:Hf; [by apply IH| |by apply IH].
    rewrite bind_capture.
    destruct (task_step u s Hinv) as (Hout & Hinv1 & Hcount1).
    rewrite Hout.
    assert (Hok' : futures_ok expected users (<[i := Some (expected u)]> futures)).
    { unfold futures_ok. rewrite <- (list_insert_id users i u Hu).
      apply Forall2_insert; [exact Hok | by right]. }
    destruct (IH _ _ Hok' Hinv1) as (futures' & s' & Hrest & Hok'' & Hinv' & Hc).
    exists futures', s'. split; [exact Hrest|]. split; [exact Hok''|].
    split; [exact Hinv'|].
    pose proof (pending_users_insert futures users i u (expected u) Hf Hu)
      as Hperm.
    apply Permutation_length in Hperm. cbn [length] in Hperm. lia.
Qed.

Lemma finish_tasks_census (us : list string) :
  forall futures s,
  futures_ok expected us futures -> Inv s ->
  exists s',
    finish_tasks (map task us) futures W s = (Return (map expected us), s')
    /\ Inv s'
    /\ count s' = (count s + length (pending_users futures us))%nat.
Proof.
  induction us as [|u us IH]; intros futures s Hok Hinv.
  - exists s. apply Forall2_nil_inv_l in Hok as ->. cbn. split; [done|].
    split; [done|lia].
  - apply Forall2_cons_inv_l in Hok as (f & fs & Hf & Hfs & ->).
    cbn [map finish_tasks pending_users].
    destruct Hf as [->| ->].
    + rewrite bind_capture.
      destruct (task_step u s Hinv) as (Hout & Hinv1 & Hcount1).
      rewrite Hout.
      destruct (IH fs _ Hfs Hinv1) as (s' & Hrest & Hinv' & Hc).
      unfold bind at 1. rewrite Hrest.
      exists s'. split; [done|]. split; [done|]. cbn [length]. lia.
    + rewrite bind_ret.
      destruct (IH fs s Hfs Hinv) as (s' & Hrest & Hinv' & Hc).
      unfold bind at 1. rewrite Hrest.
      exists s'. done.
Qed.

(** Whatever the order chosen by the pool, every task runs exactly
    once. *)
Lemma thread_pool_census (s : state) :
  Inv s ->
  exists s',
    thread_pool (map task users) W s = (Return (map expected users), s')
    /\ Inv s'
    /\ count s' = (count s + length users)%nat.
Proof.
  intros Hinv. unfold thread_pool. rewrite bind_ask. rewrite length_map.
  assert (Hfresh : futures_ok expected users (replicate (length users) None)).
  { unfold futures_ok. clear task_step.
    induction users as [|u us IH]; constructor; [by left | exact IH]. }
  destruct (run_tasks_census (pool_order W (length users)) _ s Hfresh Hinv)
    as (futures & s1 & Hrun & Hok & Hinv1 & Hc1).
  unfold bind at 1. rewrite Hrun.
  destruct (finish_tasks_census users futures s1 Hok Hinv1)
    as (s' & Hfin & Hinv' & Hc').
  exists s'. split; [exact Hfin|]. split; [exact Hinv'|].
  rewrite pending_users_fresh in Hc1. lia.
Qed.
End pool_census.

Lemma refresh_rejected (a b : string) (W : world) (s : state)
    (d : gmap string pyval) :
  http_oracle W (length (requests s)) (GET (token_url a b))
  = HttpResponse (Some (PDict d)) ->
  d !! "access_token" = None ->
  refresh a b W s
  = (Raise auth_error,
     after_log ERROR ("获取Token失败: " +:+ py_str W (PDict d))
       (after_request (GET (token_url a b)) s)).
Proof.
  intros Hcall Hnone.
  unfold refresh. rewrite bind_requests_get. cbv zeta.
  rewrite Hcall. rewrite bind_response_json, bind_lift. cbn [contains_key].
  rewrite bool_decide_eq_false_2 by (rewrite Hnone; by intros [? ?]).
  cbn [negb]. rewrite bind_ask, bind_logging. reflexivity.
Qed.

Lemma first_raise_all (e : exn) (users : list string) :
  users <> [] -> first_raise (map (fun _ => Raise e) users) = Some e.
Proof. by destruct users. Qed.

(** When the composition succeeds but the provider refuses the
    credentials (and no fresh token is stored), nobody is sent anything:
    each recipient's task asks for a token once, logs the refusal and
    raises; [send_messages] issues as many token requests as there are
    recipients, no send, and raises the authentication error without
    writing the summary. *)
Theorem send_messages_auth_failure (cfg : config) (W : world) (s s1 : state)
    (data : gmap string field_entry) :
  generate_message_data cfg W s = (Return data, s1) ->
  user cfg <> [] ->
  never_fresh W (token_expire s) ->
  token_refused W (app_id cfg) (app_secret cfg) ->
  exists (lines : list (level * string)) (s' : state),
    send_messages cfg W s = (Raise auth_error, s')
    /\ requests s'
       = requests s1
         ++ replicate (length (user cfg))
              (GET (token_url (app_id cfg) (app_secret cfg)))
    /\ log s' = log s1 ++ lines
    /\ length lines = length (user cfg)
    /\ only_errors lines
    /\ access_token s' = access_token s.
Proof.
  intros Hgen Husers Hstale Hrefused.
  pose proof (weather_phase_generate_message_data cfg W s) as Hphase.
  rewrite Hgen in Hphase. destruct Hphase as (Htok1 & Hexp1 & _).
  cbn [snd] in Htok1, Hexp1.
  set (g := GET (token_url (app_id cfg) (app_secret cfg))).
  set (Inv := fun st : state =>
    token_expire st = token_expire s
    /\ access_token st = access_token s
    /\ exists lines,
         requests st = requests s1 ++ replicate (length lines) g
         /\ log st = log s1 ++ lines
         /\ only_errors lines).
  assert (Hstep : forall u st, Inv st ->
            (send_template_message (app_id cfg) (app_secret cfg) u
               (template_data_for cfg data u) W st).1 = Raise auth_error
            /\ Inv (send_template_message (app_id cfg) (app_secret cfg) u
                      (template_data_for cfg data u) W st).2
            /\ length (log (send_template_message (app_id cfg) (app_secret cfg)
                              u (template_data_for cfg data u) W st).2)
               = S (length (log st))).
  { intros u st (Hexp & Htok & lines & Hreq & Hlog & Herr).
    destruct (Hrefused (length (requests st))) as (d & Hcall & Hnone).
    assert (Hrun : send_template_message (app_id cfg) (app_secret cfg) u
                     (template_data_for cfg data u) W st
                   = (Raise auth_error,
                      after_log ERROR ("获取Token失败: " +:+ py_str W (PDict d))
                        (after_request g (after_clock_read st)))).
    { unfold send_template_message. unfold bind at 1.
      rewrite get_access_token_stale by (rewrite Hexp; apply Hstale).
      by rewrite (refresh_rejected _ _ W (after_clock_read st) d Hcall Hnone). }
    rewrite Hrun. unfold after_log, after_request, after_clock_read.
    cbn [fst snd log requests token_expire access_token].
    split; [done|]. split.
    - split; [done|]. split; [done|].
      exists (lines ++ [(ERROR, "获取Token失败: " +:+ py_str W (PDict d))]).
      rewrite length_app. cbn [length].
      rewrite Hreq, Hlog, <- !app_assoc. split; [|split; [done|]].
      + f_equal. rewrite replicate_add. done.
      + apply Forall_app. split; [done|]. by repeat constructor.
    - rewrite length_app. cbn [length]. lia. }
  assert (Hinv1 : Inv s1).
  { split; [done|]. split; [done|]. exists []. rewrite !app_nil_r.
    split; [done|]. split; [done|]. constructor. }
  destruct (thread_pool_census W (user cfg)
              (fun u => send_template_message (app_id cfg) (app_secret cfg) u
                          (template_data_for cfg data u))
              (fun _ => Raise auth_error) Inv (fun st => length (log st))
              Hstep s1 Hinv1)
    as (s' & Hpool & (_ & Htok' & lines & Hreq & Hlog & Herr) & Hcount).
  unfold send_messages. unfold bind at 1. rewrite Hgen.
  unfold bind at 1. rewrite Hpool.
  unfold bind at 1. rewrite future_results_spec.
  rewrite (first_raise_all auth_error (user cfg) Husers).
  assert (Hlen : length lines = length (user cfg)).
  { rewrite Hlog, length_app in Hcount. lia. }
  exists lines, s'. split; [done|]. rewrite <- Hlen. done.
Qed.

(** Two recipients and an endpoint that answers with an error code: two
    token requests, no send. *)
Lemma send_messages_auth_failure_witness :
  exists (lines : list (level * string)) (s' : state),
    send_messages refused_config refusing_world initial_state
    = (Raise auth_error, s')
    /\ post_recipients (requests s') = []
    /\ length lines = 2%nat
    /\ log s'
       = log (generate_message_data refused_config refusing_world
                initial_state).2 ++ lines.
Proof.
  destruct (generate_message_data refused_config refusing_world initial_state)
    as [[data|e] s1] eqn:Hgen; [|vm_compute in Hgen; discriminate Hgen].
  destruct (send_messages_auth_failure refused_config refusing_world
              initial_state s1 data Hgen)
    as (lines & s' & Hrun & Hreq & Hlog & Hlen & _).
  - discriminate.
  - intros k. reflexivity.
  - intros k. exists (list_to_map [("errcode", PInt 40013)]).
    split; reflexivity.
  - exists lines, s'. split; [exact Hrun|]. split; [|split; [exact Hlen|]].
    + rewrite Hreq, post_recipients_app.
      assert (Hs1 : s1 = (generate_message_data refused_config refusing_world
                            initial_state).2) by by rewrite Hgen.
      rewrite Hs1. reflexivity.
    + exact Hlog.
Defined.
(* ================================================================== *)
(** * The main block *)
(* ================================================================== *)

Lemma generate_message_data_total (cfg : config) (W : world) (s : state) :
  let today := local_date (clock_oracle W (clock_reads s)) in
  (all_texts_ok (anniversary_text W today) (default [] (anniversaries cfg)) ->
   all_texts_ok (birthday_text W today) (default [] (birthdays cfg)) ->
   exists m s', generate_message_data cfg W s = (Return m, s'))
  /\ (Exists (fun a => is_return (anniversary_text W today a) = false)
        (default [] (anniversaries cfg))
      \/ Exists (fun b => is_return (birthday_text W today b) = false)
           (default [] (birthdays cfg)) ->
      exists err s', generate_message_data cfg W s = (Raise err, s')).
Proof.
  intros today.
  destruct (weather_fields_returns cfg W (after_clock_read s)) as (w & sw & Hw).
  destruct (base_data_of_returns today cfg w W sw)
    as (name & c1 & c2 & c3 & c4 & c5 & s2 & Hbase & _).
  assert (Hstages : exists base,
            generate_message_data cfg W s
            = generated_entries cfg today base W s2).
  { eexists. rewrite generate_message_data_stages. cbv zeta. fold today.
    unfold bind at 1. rewrite Hw. unfold bind at 1. rewrite Hbase. done. }
  destruct Hstages as [base Hstages]. rewrite Hstages. split.
  - intros Ha Hb.
    destruct (generated_entries_returns cfg today base W s2 Ha Hb)
      as (m & s' & Hrun & _).
    eauto.
  - apply generated_entries_raises.
Qed.

Lemma post_recipients_weather (new : list request) :
  Forall to_weather_provider new -> post_recipients new = [].
Proof.
  induction 1 as [|r rest (url & -> & _) _ IH]; [done|]. exact IH.
Qed.

Lemma generate_message_data_no_send (cfg : config) (W : world) (s : state) :
  post_recipients (requests (generate_message_data cfg W s).2)
  = post_recipients (requests s).
Proof.
  destruct (weather_phase_generate_message_data cfg W s)
    as (_ & _ & new & -> & Hnew).
  rewrite post_recipients_app, (post_recipients_weather new Hnew).
  apply app_nil_r.
Qed.

(** The dispatch, when the token can be had and each send is answered
    according to its recipient. *)
Lemma dispatch_outcome (cfg : config) (data : gmap string field_entry)
    (W : world) (s1 : state) (answer : string -> http_outcome) :
  token_available W (app_id cfg) (app_secret cfg) ->
  (forall k url body,
     http_oracle W k (POST url body) = answer (msg_touser body)) ->
  let outcomes := map (fun u => send_outcome (answer u)) (user cfg) in
  exists (sends : list request) (lines : list (level * string)) (s' : state),
    dispatch cfg data W s1
    = (match first_raise outcomes with
       | Some e => Raise e
       | None => Return tt
       end, s')
    /\ requests s' = requests s1 ++ sends
    /\ post_recipients sends ≡ₚ user cfg
    /\ log s'
       = log s1 ++ lines
         ++ match first_raise outcomes with
            | Some _ => []
            | None => [(INFO, summary_line (count_outcome true outcomes)
                                (count_outcome false outcomes))]
            end.
Proof.
  intros Havail Hanswer outcomes. unfold dispatch.
  destruct (thread_pool_spec W (user cfg)
              (fun u => send_template_message (app_id cfg) (app_secret cfg) u
                          (template_data_for cfg data u))
              (fun u => send_outcome (answer u))
              (fun u st => send_template_message_available
                             (app_id cfg) (app_secret cfg) u
                             (template_data_for cfg data u) W st answer
                             Havail Hanswer eq_refl)
              s1)
    as (s2 & sends & lines & Hpool & Hreq & Hperm & Hlog & Herr).
  unfold bind at 1. rewrite Hpool. fold outcomes.
  unfold bind at 1. rewrite future_results_spec.
  destruct (first_raise outcomes) as [e|] eqn:Hfirst.
  - exists sends, lines, s2. rewrite app_nil_r. done.
  - eexists sends, lines, _. split; [reflexivity|]. cbn.
    split; [exact Hreq|]. split; [exact Hperm|].
    pose proof (count_outcomes_total outcomes) as Htotal.
    pose proof (first_raise_none outcomes Hfirst) as Hret.
    rewrite Hlog, <- app_assoc. do 2 f_equal.
    unfold sum_results, count_outcome in *. do 3 f_equal. lia.
Qed.

Lemma main_after_load_run (cfg : config) (W : world) (s : state) :
  main_after_load cfg W s
  = match send_messages cfg W (fresh_generator s) with
    | (Return _, s') => (Return (Completed tt), s')
    | (Raise e, s') =>
        (Return (SysExit 1),
         after_log ERROR ("程序异常终止: " +:+ exn_msg e) s')
    end.
Proof.
  unfold main_after_load, try_except, bind, new_generator, fresh_generator.
  destruct (send_messages cfg W _) as [[[]|e] s']; reflexivity.
Qed.

(** The exit status of the main block, when the token can be had and each
    send is answered according to its recipient, whatever the weather
    service does.  If every configured date is processed and no send
    raises, the block completes: every recipient was sent to once and the
    last log line is the summary.  If a send raises, every recipient was
    still sent to once, and the process exits with status 1 on that
    exception.  If a configured date cannot be processed, the process
    exits with status 1 and nobody was sent anything. *)
Theorem main_after_load_status (cfg : config) (W : world) (s : state)
    (answer : string -> http_outcome) :
  token_available W (app_id cfg) (app_secret cfg) ->
  (forall k url body,
     http_oracle W k (POST url body) = answer (msg_touser body)) ->
  let today := local_date (clock_oracle W (clock_reads s)) in
  let outcomes := map (fun u => send_outcome (answer u)) (user cfg) in
  let dates_ok :=
    all_texts_ok (anniversary_text W today) (default [] (anniversaries cfg))
    /\ all_texts_ok (birthday_text W today) (default [] (birthdays cfg)) in
  (dates_ok -> first_raise outcomes = None ->
   exists s',
     main_after_load cfg W s = (Return (Completed tt), s')
     /\ post_recipients (requests s')
        ≡ₚ post_recipients (requests s) ++ user cfg
     /\ last (log s')
        = Some (INFO, summary_line (count_outcome true outcomes)
                        (count_outcome false outcomes)))
  /\ (dates_ok -> forall e, first_raise outcomes = Some e ->
      exists s',
        main_after_load cfg W s = (Return (SysExit 1), s')
        /\ post_recipients (requests s')
           ≡ₚ post_recipients (requests s) ++ user cfg
        /\ last (log s') = Some (ERROR, "程序异常终止: " +:+ exn_msg e))
  /\ (~ dates_ok ->
      exists s' msg,
        main_after_load cfg W s = (Return (SysExit 1), s')
        /\ post_recipients (requests s') = post_recipients (requests s)
        /\ last (log s') = Some (ERROR, "程序异常终止: " +:+ msg)).
Proof.
  intros Havail Hanswer today outcomes dates_ok.
  rewrite main_after_load_run.
  destruct (generate_message_data_total cfg W (fresh_generator s))
    as [Hreturns Hraises].
  change (local_date (clock_oracle W (clock_reads (fresh_generator s))))
    with today in Hreturns, Hraises.
  pose proof (generate_message_data_no_send cfg W (fresh_generator s)) as Hsend.
  change (requests (fresh_generator s)) with (requests s) in Hsend.
  rewrite send_messages_phases. unfold bind at 1 2 3.
  assert (Hgood : dates_ok ->
    exists data s1 lines s',
      generate_message_data cfg W (fresh_generator s) = (Return data, s1)
      /\ dispatch cfg data W s1
         = (match first_raise outcomes with
            | Some e => Raise e
            | None => Return tt
            end, s')
      /\ post_recipients (requests s')
         ≡ₚ post_recipients (requests s) ++ user cfg
      /\ log s'
         = log s1 ++ lines
           ++ match first_raise outcomes with
              | Some _ => []
              | None => [(INFO, summary_line (count_outcome true outcomes)
                                  (count_outcome false outcomes))]
              end).
  { intros [Ha Hb]. destruct (Hreturns Ha Hb) as (data & s1 & Hgen).
    rewrite Hgen in Hsend. cbn [snd] in Hsend.
    destruct (dispatch_outcome cfg data W s1 answer Havail Hanswer)
      as (sends & lines & s' & Hrun & Hreq & Hperm & Hlog).
    exists data, s1, lines, s'. split; [done|]. split; [exact Hrun|].
    split; [|exact Hlog].
    rewrite Hreq, post_recipients_app, Hsend, Hperm. done. }
  split; [|split].
  - intros Hok Hnone.
    destruct (Hgood Hok) as (data & s1 & lines & s' & Hgen & Hrun
                             & Hperm & Hlog).
    rewrite Hgen, Hrun, Hnone. exists s'. split; [done|].
    split; [exact Hperm|]. rewrite Hlog, Hnone, app_assoc. apply last_snoc.
  - intros Hok e He.
    destruct (Hgood Hok) as (data & s1 & lines & s' & Hgen & Hrun
                             & Hperm & Hlog).
    rewrite Hgen, Hrun, He. eexists. split; [reflexivity|].
    split; [exact Hperm|]. cbn [after_log log]. apply last_snoc.
  - intros Hbad.
    assert (Hex : Exists (fun a => is_return (anniversary_text W today a) = false)
                    (default [] (anniversaries cfg))
                  \/ Exists (fun b => is_return (birthday_text W today b) = false)
                       (default [] (birthdays cfg))).
    { destruct (texts_ok_or_bad (anniversary_text W today)
                  (default [] (anniversaries cfg))) as [Ha|Ha]; [|by left].
      destruct (texts_ok_or_bad (birthday_text W today)
                  (default [] (birthdays cfg))) as [Hb|Hb]; [|by right].
      by destruct Hbad. }
    destruct (Hraises Hex) as (err & s1 & Hgen).
    rewrite Hgen in Hsend |- *. cbn [snd] in Hsend.
    eexists _, (exn_msg err). split; [reflexivity|].
    split; [exact Hsend|]. cbn [after_log log]. apply last_snoc.
Qed.

(** Seven recipients and no weather: with the third send rejected the
    block completes, with the third send unreachable it exits; a malformed
    birthday exits with nothing sent. *)
Lemma main_after_load_status_witness :
  (exists s',
     main_after_load seven_recipients (service_world third_rejected)
       initial_state = (Return (Completed tt), s')
     /\ last (log s') = Some (INFO, summary_line 6 1))
  /\ (exists s',
        main_after_load seven_recipients (service_world third_unreachable)
          initial_state = (Return (SysExit 1), s')
        /\ last (log s') = Some (ERROR, "程序异常终止: connection reset"))
  /\ (exists s',
        main_after_load malformed_config (service_world third_rejected)
          initial_state = (Return (SysExit 1), s')
        /\ post_recipients (requests s') = []).
Proof.
  split; [|split].
  - destruct (main_after_load_status seven_recipients
                (service_world third_rejected) initial_state third_rejected
                (service_world_token third_rejected) (fun _ _ _ => eq_refl))
      as (Hdone & _ & _).
    destruct Hdone as (s' & Hrun & _ & Hlast).
    + split; constructor.
    + reflexivity.
    + exists s'. split; [exact Hrun | exact Hlast].
  - destruct (main_after_load_status seven_recipients
                (service_world third_unreachable) initial_state
                third_unreachable
                (service_world_token third_unreachable) (fun _ _ _ => eq_refl))
      as (_ & Hfail & _).
    destruct (Hfail (conj (List.Forall_nil _) (List.Forall_nil _))
                (Exn RequestException "connection reset") eq_refl)
      as (s' & Hrun & _ & Hlast).
    exists s'. split; [exact Hrun | exact Hlast].
  - destruct (main_after_load_status malformed_config
                (service_world third_rejected) initial_state third_rejected
                (service_world_token third_rejected) (fun _ _ _ => eq_refl))
      as (_ & _ & Hbad).
    destruct Hbad as (s' & msg & Hrun & Hsent & _).
    + intros [_ Hb]. apply Forall_cons in Hb as [Hb _].
      vm_compute in Hb. discriminate Hb.
    + exists s'. split; [exact Hrun | exact Hsent].
Defined.
